(** * fitscore-units-lib: unit conversion, metric classification and legacy migration

    A shallow embedding of the TypeScript/JavaScript sources of the library and
    the properties its specification states about them.

    Numbers.  A JavaScript [number] is an IEEE 754 binary64 value; it is
    modelled by Rocq's primitive [float], whose operations are the binary64
    operations with round-to-nearest-even, and whose literals are rounded to
    the nearest binary64 value exactly as JavaScript source literals are.
    [NaN] is the single value [nan].

    Strings.  A JavaScript string is modelled by the [string] of the bytes
    of its UTF-8 encoding, so that a string literal of this file denotes the
    JavaScript string with the same text; comparing two strings and searching
    one in another give the same answers on the encodings as on the strings.
    [trim] removes every ECMAScript white-space and line-terminator code
    point.  [toLowerCase] is given in full for strings of code points below
    U+0100, white space and the Kelvin sign (the one code point outside
    ASCII whose lower-case form is an ASCII letter); beyond, it follows the
    Unicode tables of the engine, which are a parameter of the development.

    Exceptions.  A function that can [throw] returns a [result].

    Two revisions of the units module are present in the repository:
    - module [Src]: the TypeScript source [units.ts] (src/unnamed/part_002,
      lines 1-194) and its build dist/units.js, with four unit families;
    - module [Dist]: the compiled units module that follows the formatting
      helpers in dist/formatting.js (lines 77-334), with nine unit families;
      it is the revision the test-suite src/src/__tests__/units.test.ts
      exercises.
    The conversion functions are textually the same in both; they are written
    once, over the table, in section [ConversionEngine]. *)

From Stdlib Require Import ZArith QArith Qabs Qpower List String Ascii Bool.
From Stdlib Require Import Lia Lra Psatz Floats.
From Stdlib Require Import DecimalString.
Import ListNotations.

Set Warnings "-inexact-float".

Local Open Scope list_scope.
Local Open Scope string_scope.

(** ** JavaScript values *)

(** A value of type [number | null | undefined]. *)
Inductive nullable_number :=
| JSnull
| JSundefined
| JSnumber (x : float).

(** The global [isNaN] on a number. *)
Definition isNaN (x : float) : bool := PrimFloat.is_nan x.

(** [a === b] and [a !== b] on numbers: IEEE equality, so that [NaN !== NaN]
    and [-0 === 0]. *)
Definition strict_eq (a b : float) : bool := PrimFloat.eqb a b.
Definition strict_neq (a b : float) : bool := negb (strict_eq a b).

(** [a !== b] on values of type [string | null]. *)
Definition opt_string_neq (a b : option string) : bool :=
  match a, b with
  | None, None => false
  | Some x, Some y => negb (String.eqb x y)
  | _, _ => true
  end.

(** Thrown errors, by the message template that builds them. *)
Inductive error :=
| UnknownUnit (displayUnit : string)
    (* `Unknown display unit: ${displayUnit}` *)
| InvalidUnits (fromUnit toUnit : string)
    (* `Invalid units: ${fromUnit} -> ${toUnit}` *)
| IncompatibleUnits (fromBase toBase : option string)
    (* `Cannot convert between different base units: ${..base} -> ${..base}` *)
| RangeError.
    (* thrown by Number.prototype.toFixed for a precision outside 0..100 *)

Inductive result (A : Type) :=
| Ok (a : A)
| Throw (e : error).
Arguments Ok {A} a.
Arguments Throw {A} e.

Definition bind {A B : Type} (r : result A) (k : A -> result B) : result B :=
  match r with
  | Ok a => k a
  | Throw e => Throw e
  end.

Notation "'let*' x ':=' r 'in' k" := (bind r (fun x => k))
  (at level 10, x name, r at level 100, k at level 200).

(** ** Strings *)

(** [s.includes(needle)] *)
Fixpoint includes (s needle : string) : bool :=
  if String.prefix needle s then true
  else match s with
       | EmptyString => false
       | String _ s' => includes s' needle
       end.

(** [list.some(m => s.includes(m))] *)
Definition some_included (s : string) (l : list string) : bool :=
  existsb (fun m => includes s m) l.

(** The lower-case form of an ASCII letter. *)
Definition lower_ascii (c : ascii) : ascii :=
  let n := nat_of_ascii c in
  if ((65 <=? n) && (n <=? 90))%nat then ascii_of_nat (n + 32) else c.

(** The second byte of the lower-case form of a code point U+00C0..U+00FF,
    encoded C3 80..C3 BF: the letters U+00C0..U+00DE other than the
    multiplication sign U+00D7 (C3 97) move up by 32. *)
Definition lower_C3 (d : ascii) : ascii :=
  let k := nat_of_ascii d in
  if ((k <=? 158) && negb (k =? 151))%nat then ascii_of_nat (k + 32) else d.

(** A continuation byte of UTF-8, 80..BF. *)
Definition is_continuation (d : ascii) : bool :=
  let k := nat_of_ascii d in ((128 <=? k) && (k <=? 191))%nat.

(** The number of bytes of the white-space or line-terminator code point
    that the bytes [c0 c1 c2] start with, 0 when there is none.  These are
    the code points [trim] removes: TAB, LF, VT, FF, CR, SPACE, U+00A0
    (C2 A0), U+1680 (E1 9A 80), U+2000..U+200A (E2 80 80..8A), U+2028,
    U+2029, U+202F (E2 80 A8, A9, AF), U+205F (E2 81 9F), U+3000 (E3 80 80)
    and U+FEFF (EF BB BF). *)
Definition white_space_bytes (c0 c1 c2 : ascii) : nat :=
  let b0 := nat_of_ascii c0 in
  let b1 := nat_of_ascii c1 in
  let b2 := nat_of_ascii c2 in
  if (((9 <=? b0) && (b0 <=? 13)) || (b0 =? 32))%nat then 1
  else if ((b0 =? 194) && (b1 =? 160))%nat then 2
  else if (((b0 =? 225) && (b1 =? 154) && (b2 =? 128))
           || ((b0 =? 226) && (b1 =? 128)
               && (((128 <=? b2) && (b2 <=? 138))
                   || (b2 =? 168) || (b2 =? 169) || (b2 =? 175)))
           || ((b0 =? 226) && (b1 =? 129) && (b2 =? 159))
           || ((b0 =? 227) && (b1 =? 128) && (b2 =? 128))
           || ((b0 =? 239) && (b1 =? 187) && (b2 =? 191)))%nat then 3
  else 0.

(** The lower-case form of a string each of whose code points is below
    U+0100 (an ASCII byte, or two bytes led by C2 or C3), a white-space code
    point, or the Kelvin sign U+212A (E2 84 AA), which becomes the letter k;
    each code point is converted by itself.  [None] for any other string. *)
Fixpoint lower_known (s : string) : option string :=
  match s with
  | EmptyString => Some EmptyString
  | String c s1 =>
      let n := nat_of_ascii c in
      if (n <? 128)%nat then option_map (String (lower_ascii c)) (lower_known s1)
      else
        match s1 with
        | EmptyString => None
        | String d s2 =>
            if (n =? 194)%nat && is_continuation d then
              option_map (fun t => String c (String d t)) (lower_known s2)
            else if (n =? 195)%nat && is_continuation d then
              option_map (fun t => String c (String (lower_C3 d) t)) (lower_known s2)
            else
              match s2 with
              | EmptyString => None
              | String e s3 =>
                  if ((n =? 226) && (nat_of_ascii d =? 132) && (nat_of_ascii e =? 170))%nat
                  then option_map (String "k") (lower_known s3)
                  else if (white_space_bytes c d e =? 3)%nat
                  then option_map (fun t => String c (String d (String e t)))
                                  (lower_known s3)
                  else None
              end
        end
  end.

Section LowerCase.

(** [s.toLowerCase()] for a string [s] that [lower_known] does not cover:
    the result follows the Unicode case tables of the engine and the context
    of each letter. *)
Variable UnicodeLowerCase : string -> string.

(** [s.toLowerCase()] *)
Definition toLowerCase (s : string) : string :=
  match lower_known s with
  | Some t => t
  | None => UnicodeLowerCase s
  end.

End LowerCase.

(** No byte of a white-space code point has code 0, which stands below for
    a byte past the end of the string. *)
Definition past_end : ascii := ascii_of_nat 0.

(** [s.trimStart()] *)
Fixpoint trimStart (s : string) : string :=
  match s with
  | EmptyString => EmptyString
  | String c0 s1 =>
      match s1 with
      | EmptyString =>
          match white_space_bytes c0 past_end past_end with
          | 1%nat => EmptyString
          | _ => s
          end
      | String c1 s2 =>
          match s2 with
          | EmptyString =>
              match white_space_bytes c0 c1 past_end with
              | 1%nat => trimStart s1
              | 2%nat => EmptyString
              | _ => s
              end
          | String c2 s3 =>
              match white_space_bytes c0 c1 c2 with
              | 1%nat => trimStart s1
              | 2%nat => trimStart s2
              | 3%nat => trimStart s3
              | _ => s
              end
          end
      end
  end.

(** The string consists of white space only. *)
Definition isBlank (s : string) : bool := String.eqb (trimStart s) EmptyString.

(** [s.trimEnd()]: the longest suffix of white space is removed. *)
Fixpoint trimEnd (s : string) : string :=
  match s with
  | EmptyString => EmptyString
  | String c s' => if isBlank s then EmptyString else String c (trimEnd s')
  end.

(** [s.trim()] *)
Definition trim (s : string) : string := trimEnd (trimStart s).

(** ** The unit table and the conversion engine *)

Record conversion := { factor : float; base : string }.

(** The object literal [TO_BASE_FACTORS], as its own properties in source
    order. *)
Definition unit_table := list (string * conversion).

(** The property names every object literal inherits from [Object.prototype].
    Reading one of them from the table yields a function or object: a truthy
    value that has neither a [factor] nor a [base] property. *)
Definition Object_prototype_keys : list string :=
  [ "constructor"; "hasOwnProperty"; "isPrototypeOf"; "propertyIsEnumerable";
    "toLocaleString"; "toString"; "valueOf"; "__proto__";
    "__defineGetter__"; "__defineSetter__"; "__lookupGetter__"; "__lookupSetter__" ].

(** The value of the property read [TO_BASE_FACTORS[k]]. *)
Inductive property :=
| Own (c : conversion)   (* an entry of the table *)
| Inherited              (* a member of Object.prototype *)
| Absent.                (* undefined *)

Section ConversionEngine.

Variable TO_BASE_FACTORS : unit_table.

Definition get (k : string) : property :=
  match find (fun e => String.eqb (fst e) k) TO_BASE_FACTORS with
  | Some e => Own (snd e)
  | None => if existsb (String.eqb k) Object_prototype_keys then Inherited else Absent
  end.

(** [conversion.factor] read as a number: [undefined] converts to [NaN]. *)
Definition factor_of (p : property) : float :=
  match p with
  | Own c => factor c
  | _ => nan
  end.

(** [conversion.base] *)
Definition base_of (p : property) : option string :=
  match p with
  | Own c => Some (base c)
  | _ => None
  end.

(** [!conversion] *)
Definition falsy (p : property) : bool :=
  match p with
  | Absent => true
  | _ => false
  end.

Definition toBase (value : float) (displayUnit : string) : result float :=
  let conversion := get displayUnit in
  if falsy conversion then Throw (UnknownUnit displayUnit)
  else Ok (value * factor_of conversion)%float.

Definition fromBase (baseValue : float) (displayUnit : string) : result float :=
  let conversion := get displayUnit in
  if falsy conversion then Throw (UnknownUnit displayUnit)
  else Ok (baseValue / factor_of conversion)%float.

Definition getBaseUnit (displayUnit : string) : result (option string) :=
  let conversion := get displayUnit in
  if falsy conversion then Throw (UnknownUnit displayUnit)
  else Ok (base_of conversion).

(** The default of the [tolerance] parameter, [1e-10]. *)
Definition default_tolerance : float := 1e-10%float.

Definition validateRoundTrip (value : float) (unit : string) (tolerance : float)
  : result bool :=
  let* baseValue := toBase value unit in
  let* backToDisplay := fromBase baseValue unit in
  Ok (PrimFloat.abs (value - backToDisplay) <? tolerance)%float.

Definition convertUnit (value : float) (fromUnit toUnit : string) : result float :=
  let fromConversion := get fromUnit in
  let toConversion := get toUnit in
  if falsy fromConversion || falsy toConversion then Throw (InvalidUnits fromUnit toUnit)
  else if opt_string_neq (base_of fromConversion) (base_of toConversion)
  then Throw (IncompatibleUnits (base_of fromConversion) (base_of toConversion))
  else
    let* baseValue := toBase value fromUnit in
    fromBase baseValue toUnit.

(** [try { return toBase(value, displayUnit) } catch { return null }] after
    the null/undefined/NaN guard; [None] is [null]. *)
Definition safeConvertToBase (value : nullable_number) (displayUnit : string)
  : option float :=
  match value with
  | JSnull | JSundefined => None
  | JSnumber x =>
      if isNaN x then None
      else match toBase x displayUnit with
           | Ok y => Some y
           | Throw _ => None
           end
  end.

Definition safeConvertFromBase (baseValue : nullable_number) (displayUnit : string)
  : option float :=
  match baseValue with
  | JSnull | JSundefined => None
  | JSnumber x =>
      if isNaN x then None
      else match fromBase x displayUnit with
           | Ok y => Some y
           | Throw _ => None
           end
  end.

End ConversionEngine.

(** ** Exact values of binary64 numbers *)

Definition bpow (e : Z) : Q := 2 ^ e.

(** The value of the finite number with mantissa [m] and exponent [e]. *)
Definition mag (m : positive) (e : Z) : Q := inject_Z (Zpos m) * bpow e.

(** The exact rational value of a finite binary64 number. *)
Definition SF2Q (x : spec_float) : Q :=
  match x with
  | S754_finite s m e => inject_Z (cond_Zopp s (Zpos m)) * bpow e
  | _ => 0
  end.

(** [is_mag s x R]: [x] is a zero or a finite number of sign [s] and
    magnitude [R]. *)
Inductive is_mag (s : bool) : spec_float -> Q -> Prop :=
| mag_zero : is_mag s (S754_zero s) 0
| mag_finite m e : is_mag s (S754_finite s m e) (inject_Z (Zpos m) * bpow e).

(** The exact rational value of a finite JavaScript number. *)
Definition Qval (x : float) : Q := SF2Q (Prim2SF x).

(** ** Number.prototype.toFixed and formatValue *)

(** Decimal digits of a natural number, a single zero digit for zero. *)
Definition digits_of_N (n : N) : string :=
  NilZero.string_of_uint (N.to_uint n).

Fixpoint zeros (k : nat) : string :=
  match k with
  | O => EmptyString
  | S k' => String "0" (zeros k')
  end.

(** The integer [n] for which [n / 10^f - x] is as close to zero as possible,
    the larger one when there are two, for [x = m * 2^e > 0]. *)
Definition toFixed_integer (m : positive) (e : Z) (f : Z) : N :=
  let num := (Zpos m * 10 ^ f)%Z in
  match e with
  | Zneg p => Z.to_N ((2 * num + 2 ^ Zpos p) / (2 * 2 ^ Zpos p))
  | _ => Z.to_N (num * 2 ^ e)
  end.

(** Steps 10.b-10.c of toFixed: the digits of [n] with a decimal point before
    the last [f] of them, padded with leading zeros to [f + 1] digits. *)
Definition insert_point (digits : string) (f : nat) : string :=
  match f with
  | O => digits
  | _ =>
      let k := String.length digits in
      let padded := if (k <=? f)%nat then zeros (f + 1 - k) ++ digits else digits in
      let k' := String.length padded in
      substring 0 (k' - f) padded ++ "." ++ substring (k' - f) f padded
  end.

Section Formatting.

(** [Number::toString] on a finite number of magnitude at least [10^21],
    where toFixed falls back to exponential notation; the rendering is the
    engine's and is left abstract. *)
Variable NumberToString : float -> string.

(** [x.toFixed(fractionDigits)] for an integral [fractionDigits]. *)
Definition toFixed (x : float) (fractionDigits : Z) : result string :=
  if ((fractionDigits <? 0) || (100 <? fractionDigits))%Z then Throw RangeError
  else
    match Prim2SF x with
    | S754_nan => Ok "NaN"
    | S754_infinity false => Ok "Infinity"
    | S754_infinity true => Ok "-Infinity"
    | S754_zero _ => Ok (insert_point "0" (Z.to_nat fractionDigits))
    | S754_finite s m e =>
        if (PrimFloat.abs x <? 1e21)%float then
          Ok ((if s then "-" else "") ++
              insert_point (digits_of_N (toFixed_integer m e fractionDigits))
                           (Z.to_nat fractionDigits))
        else Ok (NumberToString x)
    end.

Variable TO_BASE_FACTORS : unit_table.

(** [formatValue(baseValue, displayUnit, precision = 2)]; [None] is an
    omitted or [undefined] precision. *)
Definition formatValue (baseValue : float) (displayUnit : string) (precision : option Z)
  : result string :=
  let precision := match precision with Some p => p | None => 2%Z end in
  let* displayValue := fromBase TO_BASE_FACTORS baseValue displayUnit in
  let* digits := toFixed displayValue precision in
  Ok (digits ++ " " ++ displayUnit).

(** *** formatBaseValue (src/src/formatting.ts, dist/formatting.js) *)

Record FormattedValue := {
  displayValue : option float;      (* number | null *)
  formattedValue : string;
  unit : string
}.

Variable family : Type.
Variable UnitPreferences : Type.
Variable getMetricType : string -> family.
Variable getDisplayUnit : family -> UnitPreferences -> string.

(** The placeholder, the character U+2014 (em dash). *)
Definition placeholder : string := "—".

Definition formatBaseValue (baseValue : nullable_number) (metricKey : string)
    (preferences : UnitPreferences) (precision : option Z) : result FormattedValue :=
  match baseValue with
  | JSnull | JSundefined =>
      let metricType := getMetricType metricKey in
      let unit := getDisplayUnit metricType preferences in
      Ok {| displayValue := None; formattedValue := placeholder; unit := unit |}
  | JSnumber x =>
      if isNaN x then
        let metricType := getMetricType metricKey in
        let unit := getDisplayUnit metricType preferences in
        Ok {| displayValue := None; formattedValue := placeholder; unit := unit |}
      else
        let metricType := getMetricType metricKey in
        let unit := getDisplayUnit metricType preferences in
        let* displayValue := fromBase TO_BASE_FACTORS x unit in
        let* formattedValue := formatValue x unit precision in
        Ok {| displayValue := Some displayValue;
              formattedValue := formattedValue;
              unit := unit |}
  end.

End Formatting.

(** ** The units module, TypeScript source revision
    (src/unnamed/part_002 lines 1-194; compiled as dist/units.js) *)

Module Src.

(** [keyof UnitPreferences] *)
Inductive family := mass | distance | time | speed.

(** An object with one display unit per family, read as
    [preferences[metricType]]. *)
Definition UnitPreferences := family -> string.

Definition DEFAULT_PREFERENCES : UnitPreferences :=
  fun f => match f with
           | mass => "kg"
           | distance => "m"
           | time => "s"
           | speed => "m/s"
           end.

Definition TO_BASE_FACTORS : unit_table :=
  [ (* Mass (base: kg) *)
    ("kg",   {| factor := 1;          base := "kg" |});
    ("lb",   {| factor := 0.45359237; base := "kg" |});
    (* Distance (base: m) *)
    ("m",    {| factor := 1;          base := "m" |});
    ("cm",   {| factor := 0.01;       base := "m" |});
    ("in",   {| factor := 0.0254;     base := "m" |});
    ("ft",   {| factor := 0.3048;     base := "m" |});
    (* Time (base: s) *)
    ("s",    {| factor := 1;          base := "s" |});
    ("min",  {| factor := 60;         base := "s" |});
    (* Speed (base: m/s) *)
    ("m/s",  {| factor := 1;          base := "m/s" |});
    ("km/h", {| factor := 1 / 3.6;    base := "m/s" |});
    ("mph",  {| factor := 0.44704;    base := "m/s" |}) ]%float.

Definition getDisplayUnit (metricType : family) (preferences : UnitPreferences) : string :=
  preferences metricType.

Definition getMetricType (metricKey : string) : family :=
  if includes metricKey "weight" || includes metricKey "mass" then mass
  else if includes metricKey "height" || includes metricKey "distance"
          || includes metricKey "jump" then distance
  else if includes metricKey "time" || includes metricKey "duration" then time
  else if includes metricKey "speed" || includes metricKey "velocity" then speed
  else
    let massMetrics := ["body_weight"; "max_weight"; "load"] in
    let distanceMetrics := ["vertical_jump"; "broad_jump"; "reach"; "height"] in
    let timeMetrics := ["sprint_time"; "reaction_time"; "hold_time"] in
    let speedMetrics := ["max_speed"; "average_speed"] in
    if some_included metricKey massMetrics then mass
    else if some_included metricKey distanceMetrics then distance
    else if some_included metricKey timeMetrics then time
    else if some_included metricKey speedMetrics then speed
    else distance.

End Src.

(** ** The units module, compiled nine-family revision
    (dist/formatting.js lines 77-334) *)

Module Dist.

Inductive family :=
| mass | distance | length | time | speed | count | percent | score | reps.

Definition UnitPreferences := family -> string.

Definition DEFAULT_PREFERENCES : UnitPreferences :=
  fun f => match f with
           | mass => "kg"
           | distance => "m"
           | length => "cm"
           | time => "s"
           | speed => "m/s"
           | count => "count"
           | percent => "percent"
           | score => "score"
           | reps => "reps"
           end.

Definition TO_BASE_FACTORS : unit_table :=
  [ (* Mass (base: kg) *)
    ("kg",   {| factor := 1;          base := "kg" |});
    ("lb",   {| factor := 0.45359237; base := "kg" |});
    (* Distance (base: m) *)
    ("m",    {| factor := 1;          base := "m" |});
    ("cm",   {| factor := 0.01;       base := "m" |});
    ("in",   {| factor := 0.0254;     base := "m" |});
    ("ft",   {| factor := 0.3048;     base := "m" |});
    (* Time (base: s) *)
    ("s",    {| factor := 1;          base := "s" |});
    ("min",  {| factor := 60;         base := "s" |});
    (* Speed (base: m/s) *)
    ("m/s",  {| factor := 1;          base := "m/s" |});
    ("km/h", {| factor := 1 / 3.6;    base := "m/s" |});
    ("mph",  {| factor := 0.44704;    base := "m/s" |});
    (* Non-convertible units (pass-through) *)
    ("count",   {| factor := 1; base := "count" |});
    ("percent", {| factor := 1; base := "percent" |});
    ("score",   {| factor := 1; base := "score" |});
    ("reps",    {| factor := 1; base := "reps" |});
    ("%",       {| factor := 1; base := "%" |});
    ("level",   {| factor := 1; base := "level" |}) ]%float.

Definition getDisplayUnit (metricType : family) (preferences : UnitPreferences) : string :=
  preferences metricType.

Definition getMetricType (metricKey : string) : family :=
  (* Non-convertible unit families first (exact matches) *)
  if includes metricKey "score" || includes metricKey "fms"
     || includes metricKey "rating" then score
  else if includes metricKey "count" || includes metricKey "number" then count
  else if includes metricKey "percent" || includes metricKey "%" then percent
  else if includes metricKey "reps" || includes metricKey "repetitions" then reps
  (* Common patterns in FitScore Pro metric keys *)
  else if includes metricKey "weight" || includes metricKey "mass" then mass
  else if includes metricKey "height" || includes metricKey "reach"
          || includes metricKey "span" then length
  else if includes metricKey "distance" || includes metricKey "jump" then distance
  else if includes metricKey "time" || includes metricKey "duration" then time
  else if includes metricKey "speed" || includes metricKey "velocity" then speed
  else
    let scoreMetrics := ["deep_squat"; "overhead_squat"; "shoulder_mobility";
                         "trunk_stability"; "rotary_stability"] in
    let countMetrics := ["push_ups"; "sit_ups"; "attempts"] in
    let repsMetrics := ["max_reps"; "total_reps"] in
    let massMetrics := ["body_weight"; "max_weight"; "load"] in
    let lengthMetrics := ["height"; "reach"; "arm_span"; "leg_length"; "torso_length"] in
    let distanceMetrics := ["vertical_jump"; "broad_jump"; "sprint_distance";
                            "throw_distance"] in
    let timeMetrics := ["sprint_time"; "reaction_time"; "hold_time"] in
    let speedMetrics := ["max_speed"; "average_speed"] in
    if some_included metricKey scoreMetrics then score
    else if some_included metricKey countMetrics then count
    else if some_included metricKey repsMetrics then reps
    else if some_included metricKey massMetrics then mass
    else if some_included metricKey lengthMetrics then length
    else if some_included metricKey distanceMetrics then distance
    else if some_included metricKey timeMetrics then time
    else if some_included metricKey speedMetrics then speed
    else distance.

(** [isNonConvertibleUnit] *)
Definition isNonConvertibleUnit (u : string) : bool :=
  existsb (String.eqb u) ["count"; "percent"; "score"; "reps"; "%"; "level"].

End Dist.

(** ** Legacy migration (src/src/migration-utils.ts) *)

Module TestResultMigrationData.
Record t := mk {
  result_id : string;
  test_key : string;
  value : float;
  units : option string       (* string | null *)
}.
End TestResultMigrationData.

Module MigratedTestResult.
Record t := mk {
  result_id : string;
  value_base : float;
  value_raw : float;
  unit_raw : option string    (* string | null *)
}.
End MigratedTestResult.

(** The one-character string holding a double quote (code 34). *)
Definition double_quote : string := String (ascii_of_nat 34) EmptyString.

Definition one_of (s : string) (l : list string) : bool := existsb (String.eqb s) l.

(** [normalizeUnitString]: the comparisons are made on the lower-cased, trimmed
    string; an unmatched input is returned as it was given. *)
Definition normalizeUnitString (UnicodeLowerCase : string -> string) (unit : string)
  : string :=
  let normalized := trim (toLowerCase UnicodeLowerCase unit) in
  (* Mass units *)
  if one_of normalized ["kg"; "kilogram"; "kilograms"] then "kg"
  else if one_of normalized ["lb"; "lbs"; "pound"; "pounds"] then "lb"
  (* Distance units *)
  else if one_of normalized ["m"; "meter"; "meters"; "metre"; "metres"] then "m"
  else if one_of normalized ["cm"; "centimeter"; "centimeters"; "centimetre";
                             "centimetres"] then "cm"
  else if one_of normalized ["in"; "inch"; "inches"; double_quote] then "in"
  else if one_of normalized ["ft"; "foot"; "feet"; "'"] then "ft"
  (* Time units *)
  else if one_of normalized ["s"; "sec"; "second"; "seconds"] then "s"
  else if one_of normalized ["min"; "minute"; "minutes"] then "min"
  (* Speed units *)
  else if one_of normalized ["m/s"; "mps"; "meters/second"; "metres/second"] then "m/s"
  else if one_of normalized ["km/h"; "kmh"; "kph"; "kilometers/hour"] then "km/h"
  else if one_of normalized ["mph"; "miles/hour"; "miles per hour"] then "mph"
  (* Return original if no match found (will be handled by error case) *)
  else unit.

(** Entries of the [errors] and [warnings] arrays, by the message template
    that builds them, with the interpolated values. *)
Inductive migration_error :=
| LengthMismatch (original migrated : nat)
| IdMismatch (i : nat) (orig_id mig_id : string)
| ValueRawMismatch (id : string) (value_raw value : float)
| UnitRawMismatch (id : string) (unit_raw units : option string).

Inductive migration_warning :=
| SuspiciousConversion (id : string) (value : float) (units : option string)
                       (value_base ratio : float).

Record stats := {
  total : nat;
  converted : nat;
  unchanged : nat;
  failed : nat
}.

Record validation := {
  success : bool;
  errors : list migration_error;
  warnings : list migration_warning;
  statistics : stats            (* the field [stats] *)
}.

(** The mutable locals of [validateMigration]. *)
Record locals := {
  l_errors : list migration_error;
  l_warnings : list migration_warning;
  l_converted : nat;
  l_unchanged : nat;
  l_failed : nat
}.

Section Migration.

Variable TO_BASE_FACTORS : unit_table.

(** The case conversion of the engine beyond the code points [toLowerCase]
    spells out. *)
Variable UnicodeLowerCase : string -> string.

Import TestResultMigrationData.

Definition migrateTestResult (result : TestResultMigrationData.t) : MigratedTestResult.t :=
  let result_id := result.(result_id) in
  let value := result.(value) in
  let units := result.(units) in
  (* Store original values for audit *)
  let value_raw := value in
  let unit_raw := units in
  match units with
  | None => MigratedTestResult.mk result_id value value_raw unit_raw
  | Some u =>
      (* !units || units.trim() === '' *)
      if String.eqb u "" || String.eqb (trim u) "" then
        MigratedTestResult.mk result_id value value_raw unit_raw
      else
        let normalizedUnit := normalizeUnitString UnicodeLowerCase u in
        match toBase TO_BASE_FACTORS value normalizedUnit with
        | Ok value_base => MigratedTestResult.mk result_id value_base value_raw unit_raw
        | Throw _ =>
            (* console.warn(...); use the original value *)
            MigratedTestResult.mk result_id value value_raw unit_raw
        end
  end.

Definition migrateTestResults (results : list TestResultMigrationData.t)
  : list MigratedTestResult.t :=
  map migrateTestResult results.

End Migration.

(** One iteration of the loop of [validateMigration], at index [i]. *)
Definition validateRecord (i : nat) (orig : TestResultMigrationData.t)
    (mig : MigratedTestResult.t) (st : locals) : locals :=
  let oid := TestResultMigrationData.result_id orig in
  let ovalue := TestResultMigrationData.value orig in
  let ounits := TestResultMigrationData.units orig in
  let mid := MigratedTestResult.result_id mig in
  if negb (String.eqb oid mid) then
    (* errors.push(ID mismatch); failed++; continue *)
    {| l_errors := (l_errors st ++ [IdMismatch i oid mid])%list;
       l_warnings := l_warnings st;
       l_converted := l_converted st;
       l_unchanged := l_unchanged st;
       l_failed := S (l_failed st) |}
  else
    let value_base := MigratedTestResult.value_base mig in
    (* Check if conversion was applied *)
    let st1 :=
      if (PrimFloat.abs (ovalue - value_base) <? 1e-10)%float then
        {| l_errors := l_errors st;
           l_warnings := l_warnings st;
           l_converted := l_converted st;
           l_unchanged := S (l_unchanged st);
           l_failed := l_failed st |}
      else
        (* Validate reasonable conversion factors *)
        let ratio := (value_base / ovalue)%float in
        {| l_errors := l_errors st;
           l_warnings :=
             if ((ratio <? 0.001) || (1000 <? ratio))%float
             then (l_warnings st ++ [SuspiciousConversion oid ovalue ounits value_base ratio])%list
             else l_warnings st;
           l_converted := S (l_converted st);
           l_unchanged := l_unchanged st;
           l_failed := l_failed st |} in
    (* Validate audit trail *)
    let value_raw := MigratedTestResult.value_raw mig in
    let st2 :=
      if strict_neq value_raw ovalue then
        {| l_errors := (l_errors st1 ++ [ValueRawMismatch oid value_raw ovalue])%list;
           l_warnings := l_warnings st1;
           l_converted := l_converted st1;
           l_unchanged := l_unchanged st1;
           l_failed := S (l_failed st1) |}
      else st1 in
    let unit_raw := MigratedTestResult.unit_raw mig in
    if opt_string_neq unit_raw ounits then
      {| l_errors := (l_errors st2 ++ [UnitRawMismatch oid unit_raw ounits])%list;
         l_warnings := l_warnings st2;
         l_converted := l_converted st2;
         l_unchanged := l_unchanged st2;
         l_failed := S (l_failed st2) |}
    else st2.

(** [for (let i = 0; i < original.length; i++)], entered at index [i] with the
    elements from [i] on; the two arrays have the same length there. *)
Fixpoint validateLoop (i : nat) (original : list TestResultMigrationData.t)
    (migrated : list MigratedTestResult.t) (st : locals) : locals :=
  match original, migrated with
  | orig :: original', mig :: migrated' =>
      validateLoop (S i) original' migrated' (validateRecord i orig mig st)
  | _, _ => st
  end.

Definition is_empty {A : Type} (l : list A) : bool :=
  match l with
  | [] => true
  | _ => false
  end.

Definition validateMigration (original : list TestResultMigrationData.t)
    (migrated : list MigratedTestResult.t) : validation :=
  let st0 := {| l_errors := []; l_warnings := []; l_converted := 0;
                l_unchanged := 0; l_failed := 0 |} in
  if negb (List.length original =? List.length migrated)%nat then
    let errors := (l_errors st0 ++
                   [LengthMismatch (List.length original) (List.length migrated)])%list in
    {| success := false;
       errors := errors;
       warnings := l_warnings st0;
       statistics := {| total := List.length original; converted := 0; unchanged := 0;
                        failed := List.length original |} |}
  else
    let st := validateLoop 0 original migrated st0 in
    {| success := is_empty (l_errors st);
       errors := l_errors st;
       warnings := l_warnings st;
       statistics := {| total := List.length original;
                        converted := l_converted st;
                        unchanged := l_unchanged st;
                        failed := l_failed st |} |}.

(** ** Sample inputs *)

(** A record whose free-text unit is the name of a member that every object
    literal inherits from [Object.prototype]. *)
Definition record_constructor : TestResultMigrationData.t :=
  TestResultMigrationData.mk "r1" "body_weight" 5 (Some "constructor").

(** A record whose value is [NaN]. *)
Definition record_nan : TestResultMigrationData.t :=
  TestResultMigrationData.mk "r2" "height" nan None.

(** The end-to-end records of the specification. *)
Definition record_lbs : TestResultMigrationData.t :=
  TestResultMigrationData.mk "1" "body_weight" 165.3 (Some "lbs").
Definition record_height : TestResultMigrationData.t :=
  TestResultMigrationData.mk "2" "height" 180 None.

(** The engine's part of [toLowerCase] in the closed examples below: their
    strings have no code point it would be asked about, and the identity
    stands in for it. *)
Definition sample_lower_case : string -> string := fun s => s.

(** The UTF-8 encodings of the no-break space U+00A0 and of the Kelvin sign
    U+212A. *)
Definition no_break_space : string :=
  String (ascii_of_nat 194) (String (ascii_of_nat 160) EmptyString).
Definition kelvin_sign : string :=
  String (ascii_of_nat 226) (String (ascii_of_nat 132) (String (ascii_of_nat 170) EmptyString)).

(** Two migrated lists agree on everything but [value_base]. *)
Definition same_audit (m m' : MigratedTestResult.t) : Prop :=
  MigratedTestResult.result_id m = MigratedTestResult.result_id m' /\
  MigratedTestResult.value_raw m = MigratedTestResult.value_raw m' /\
  MigratedTestResult.unit_raw m = MigratedTestResult.unit_raw m'.

(** A metric key contains one of the keywords of the first scan of the
    nine-family classifier. *)
Definition exact_family_keyword (metricKey : string) : bool :=
  some_included metricKey
    ["score"; "fms"; "rating"; "count"; "number"; "percent"; "%"; "reps"; "repetitions"].

(** ** Further functions of the library *)

(** *** getTestDisplayUnit (dist/formatting.js lines 271-304) *)

(** The fields of [baseUnitRef] the function reads. *)
Module BaseUnitRef.
Record t := mk {
  key : string;
  family : string
}.
End BaseUnitRef.

(** [baseUnitRef?.key || apiUnit]: the key when there is a reference and its
    key is not the empty string. *)
Definition unitKey_of (apiUnit : string) (baseUnitRef : option BaseUnitRef.t) : string :=
  match baseUnitRef with
  | Some r => if String.eqb (BaseUnitRef.key r) "" then apiUnit else BaseUnitRef.key r
  | None => apiUnit
  end.

(** [baseUnitRef?.family === f] *)
Definition family_is (baseUnitRef : option BaseUnitRef.t) (f : string) : bool :=
  match baseUnitRef with
  | Some r => String.eqb (BaseUnitRef.family r) f
  | None => false
  end.

(** [preferences] is an object with the nine fields of [UnitPreferences];
    [unitKey in TO_BASE_FACTORS] holds for the entries of the table and for
    the names inherited from [Object.prototype]. *)
Definition getTestDisplayUnit (apiUnit : string) (baseUnitRef : option BaseUnitRef.t)
    (preferences : Dist.UnitPreferences) : string :=
  let unitKey := unitKey_of apiUnit baseUnitRef in
  if Dist.isNonConvertibleUnit unitKey then unitKey
  else if family_is baseUnitRef "length" then preferences Dist.length
  else if family_is baseUnitRef "distance" then preferences Dist.distance
  else if family_is baseUnitRef "mass" || family_is baseUnitRef "weight"
  then preferences Dist.mass
  else if family_is baseUnitRef "time" then preferences Dist.time
  else if family_is baseUnitRef "speed" then preferences Dist.speed
  else if (family_is baseUnitRef "count" || family_is baseUnitRef "percent")
          && negb (String.eqb unitKey "") then unitKey
  else if negb (falsy (get Dist.TO_BASE_FACTORS unitKey)) then unitKey
  else "m".

(** *** Batch formatting (src/src/formatting.ts lines 73-120) *)

(** The guard [v === null || v === undefined || isNaN(v)] of
    [formatBaseValue]. *)
Definition is_missing (v : nullable_number) : bool :=
  match v with
  | JSnull | JSundefined => true
  | JSnumber x => isNaN x
  end.

(** [results.map(f)] for an [f] that may throw: the elements are visited in
    order and the first exception ends the call. *)
Fixpoint map_result {A B : Type} (f : A -> result B) (l : list A) : result (list B) :=
  match l with
  | [] => Ok []
  | a :: l' =>
      let* b := f a in
      let* bs := map_result f l' in
      Ok (b :: bs)
  end.

(** An element of the array [formatTestResultsForAPI] returns: the fields of
    the input object and the three display fields. *)
Record APIResult (R : Type) := {
  api_result : R;                   (* ...result *)
  display_value : option float;
  formatted_value : string;
  display_unit : string
}.
Arguments api_result {R} _.
Arguments display_value {R} _.
Arguments formatted_value {R} _.
Arguments display_unit {R} _.

Section FormattingBatch.

Variable NumberToString : float -> string.
Variable TO_BASE_FACTORS : unit_table.
Variable family : Type.
Variable UnitPreferences : Type.
Variable getMetricType : string -> family.
Variable getDisplayUnit : family -> UnitPreferences -> string.

Definition getDisplayUnitForMetric (metricKey : string) (preferences : UnitPreferences)
  : string :=
  let metricType := getMetricType metricKey in
  getDisplayUnit metricType preferences.

(** The type parameter [T] and the fields the functions read from it. *)
Variable R : Type.
Variable metric_key : R -> string.
Variable test_key : R -> string.
Variable value_base : R -> nullable_number.

(** [{...result, ...formatBaseValue(..)}]: the input object with the fields
    [displayValue], [formattedValue] and [unit] set from the formatted value. *)
Definition formatAssessmentResults (results : list R) (preferences : UnitPreferences)
  : result (list (R * FormattedValue)) :=
  map_result
    (fun result =>
       let* formatted :=
         formatBaseValue NumberToString TO_BASE_FACTORS family UnitPreferences
           getMetricType getDisplayUnit
           (value_base result) (metric_key result) preferences None in
       Ok (result, formatted))
    results.

Definition formatTestResultsForAPI (results : list R) (preferences : UnitPreferences)
  : result (list (APIResult R)) :=
  map_result
    (fun result =>
       let* formatted :=
         formatBaseValue NumberToString TO_BASE_FACTORS family UnitPreferences
           getMetricType getDisplayUnit
           (value_base result) (test_key result) preferences None in
       Ok {| api_result := result;
             display_value := displayValue formatted;
             formatted_value := formattedValue formatted;
             display_unit := unit formatted |})
    results.

End FormattingBatch.

(** *** generateMigrationSQL (src/src/migration-utils.ts lines 219-233) *)

(** [s.replace(/'/g, "''")] *)
Fixpoint escape_quotes (s : string) : string :=
  match s with
  | EmptyString => EmptyString
  | String c s' =>
      if Ascii.eqb c "'" then String "'" (String "'" (escape_quotes s'))
      else String c (escape_quotes s')
  end.

(** The text after ["unit_raw" = ]: a quoted literal for a non-empty string,
    [NULL] for [null] and for the empty string, which are both falsy. *)
Definition unit_raw_sql (unit_raw : option string) : string :=
  match unit_raw with
  | None => "NULL"
  | Some u => if String.eqb u "" then "NULL" else "'" ++ escape_quotes u ++ "'"
  end.

Section MigrationSQL.

(** [`${x}`] for a number [x]: [Number::toString], the engine's rendering. *)
Variable NumberToString : float -> string.

Definition migrationStatement (result : MigratedTestResult.t) : string :=
  "UPDATE " ++ double_quote ++ "TestResult" ++ double_quote ++ " SET " ++
  double_quote ++ "value_base" ++ double_quote ++ " = " ++
    NumberToString (MigratedTestResult.value_base result) ++ ", " ++
  double_quote ++ "value_raw" ++ double_quote ++ " = " ++
    NumberToString (MigratedTestResult.value_raw result) ++ ", " ++
  double_quote ++ "unit_raw" ++ double_quote ++ " = " ++
    unit_raw_sql (MigratedTestResult.unit_raw result) ++ " " ++
  "WHERE " ++ double_quote ++ "result_id" ++ double_quote ++ " = '" ++
    MigratedTestResult.result_id result ++ "';".

Definition generateMigrationSQL (migrated : list MigratedTestResult.t) : list string :=
  map migrationStatement migrated.

End MigrationSQL.

(** ** Definitions used to state properties *)

(** The eleven unit names [normalizeUnitString] maps its aliases to. *)
Definition canonical_units : list string :=
  ["kg"; "lb"; "m"; "cm"; "in"; "ft"; "s"; "min"; "m/s"; "km/h"; "mph"].

(** The errors pushed by the identifier check. *)
Definition is_id_mismatch (e : migration_error) : bool :=
  match e with
  | IdMismatch _ _ _ => true
  | _ => false
  end.

(** The classifiers as one ordered keyword table: the family of the first
    keyword of the table that the key contains, and the default when it
    contains none. *)
Fixpoint first_keyword {F : Type} (table : list (string * F)) (default : F)
    (metricKey : string) : F :=
  match table with
  | [] => default
  | (keyword, f) :: table' =>
      if includes metricKey keyword then f else first_keyword table' default metricKey
  end.

Definition Src_keywords : list (string * Src.family) :=
  [ ("weight", Src.mass); ("mass", Src.mass);
    ("height", Src.distance); ("distance", Src.distance); ("jump", Src.distance);
    ("time", Src.time); ("duration", Src.time);
    ("speed", Src.speed); ("velocity", Src.speed);
    ("load", Src.mass) ].

Definition Dist_keywords : list (string * Dist.family) :=
  [ ("score", Dist.score); ("fms", Dist.score); ("rating", Dist.score);
    ("count", Dist.count); ("number", Dist.count);
    ("percent", Dist.percent); ("%", Dist.percent);
    ("reps", Dist.reps); ("repetitions", Dist.reps);
    ("weight", Dist.mass); ("mass", Dist.mass);
    ("height", Dist.length); ("reach", Dist.length); ("span", Dist.length);
    ("distance", Dist.distance); ("jump", Dist.distance);
    ("time", Dist.time); ("duration", Dist.time);
    ("speed", Dist.speed); ("velocity", Dist.speed);
    ("deep_squat", Dist.score); ("overhead_squat", Dist.score);
    ("shoulder_mobility", Dist.score); ("trunk_stability", Dist.score);
    ("rotary_stability", Dist.score);
    ("push_ups", Dist.count); ("sit_ups", Dist.count); ("attempts", Dist.count);
    ("load", Dist.mass);
    ("leg_length", Dist.length); ("torso_length", Dist.length) ].

(** Reading the body of a quoted SQL string literal, after its opening
    quote: two quotes stand for one, a single quote ends the literal.  The
    result is the string denoted and the text that follows the literal. *)
Fixpoint read_sql_literal (s : string) : option (string * string) :=
  match s with
  | EmptyString => None
  | String c s' =>
      if Ascii.eqb c "'" then
        match s' with
        | String c' s'' =>
            if Ascii.eqb c' "'" then
              match read_sql_literal s'' with
              | Some (u, rest) => Some (String "'" u, rest)
              | None => None
              end
            else Some (EmptyString, s')
        | EmptyString => Some (EmptyString, EmptyString)
        end
      else
        match read_sql_literal s' with
        | Some (u, rest) => Some (String c u, rest)
        | None => None
        end
  end.

(** The string contains no single quote. *)
Fixpoint quote_free (s : string) : bool :=
  match s with
  | EmptyString => true
  | String c s' => negb (Ascii.eqb c "'") && quote_free s'
  end.

(** * Properties *)

(** ** Binary64 facts *)

Lemma Prim2SF_one : Prim2SF 1%float = S754_finite false 4503599627370496 (-52).
Proof. reflexivity. Qed.

Lemma iter_shr_52 (m : positive) :
  iter_pos shr_1 52
    {| shr_m := Zpos (Pos.mul 4503599627370496 m); shr_r := false; shr_s := false |}
  = {| shr_m := Zpos m; shr_r := false; shr_s := false |}.
Proof. reflexivity. Qed.

Lemma digits_shift_52 (m : positive) :
  Zpos (digits2_pos (Pos.mul 4503599627370496 m)) = (Zpos (digits2_pos m) + 52)%Z.
Proof. cbn. lia. Qed.

(** Multiplying a binary64 number by one is exact. *)
Lemma SF64mul_one (x : spec_float) :
  valid_binary x = true -> SF64mul x (Prim2SF 1%float) = x.
Proof.
  rewrite Prim2SF_one.
  destruct x as [s|s| |s m e]; cbn [SF64mul SFmul]; intros Hv.
  - now rewrite xorb_false_r.
  - now rewrite xorb_false_r.
  - reflexivity.
  - rewrite xorb_false_r, Pos.mul_comm.
    unfold valid_binary, bounded, canonical_mantissa in Hv.
    apply andb_true_iff in Hv as [Hc Hb].
    apply Z.eqb_eq in Hc.
    unfold binary_round_aux, shr_fexp.
    cbn [Zdigits2 shr_record_of_loc].
    rewrite digits_shift_52.
    replace (Zpos (digits2_pos m) + 52 + (e + -52))%Z
      with (Zpos (digits2_pos m) + e)%Z by lia.
    rewrite Hc.
    replace (e - (e + -52))%Z with 52%Z by lia.
    cbn [shr]. rewrite iter_shr_52.
    cbn [shr_m loc_of_shr_record round_nearest_even Zdigits2 shr_record_of_loc].
    replace (e + -52 + 52)%Z with e by lia.
    rewrite Hc, Z.sub_diag. cbn [shr shr_m].
    now rewrite Hb.
Qed.

Lemma float_mul_1_r (x : float) : (x * 1)%float = x.
Proof.
  apply Prim2SF_inj. rewrite mul_spec.
  apply SF64mul_one, Prim2SF_valid.
Qed.

Lemma float_mul_nan_r (x : float) : (x * nan)%float = nan.
Proof.
  apply Prim2SF_inj. rewrite mul_spec.
  change (Prim2SF nan) with S754_nan.
  unfold SF64mul. now destruct (Prim2SF x).
Qed.

Lemma float_div_nan_r (x : float) : (x / nan)%float = nan.
Proof.
  apply Prim2SF_inj. rewrite div_spec.
  change (Prim2SF nan) with S754_nan.
  unfold SF64div. now destruct (Prim2SF x).
Qed.

Lemma strict_neq_refl (x : float) : isNaN x = false -> strict_neq x x = false.
Proof.
  unfold isNaN, PrimFloat.is_nan, strict_neq, strict_eq. intros H.
  apply negb_false_iff in H. now rewrite H.
Qed.

Lemma opt_string_neq_refl (u : option string) : opt_string_neq u u = false.
Proof. destruct u as [s|]; cbn; [now rewrite String.eqb_refl | reflexivity]. Qed.

Lemma opt_string_neq_true (a b : option string) : opt_string_neq a b = true <-> a <> b.
Proof.
  destruct a as [x|], b as [y|]; cbn.
  - rewrite negb_true_iff. split.
    + intros H E. injection E as ->. now rewrite String.eqb_refl in H.
    + intros H. apply String.eqb_neq. congruence.
  - split; [discriminate | reflexivity].
  - split; [discriminate | reflexivity].
  - split; [discriminate | congruence].
Qed.

(** ** The conversion engine over an arbitrary table *)

Section EngineFacts.

Variable T : unit_table.

Lemma toBase_Own value u c :
  get T u = Own c -> toBase T value u = Ok (value * factor c)%float.
Proof. unfold toBase. now intros ->. Qed.

Lemma fromBase_Own value u c :
  get T u = Own c -> fromBase T value u = Ok (value / factor c)%float.
Proof. unfold fromBase. now intros ->. Qed.

Lemma toBase_Absent value u :
  get T u = Absent -> toBase T value u = Throw (UnknownUnit u).
Proof. unfold toBase. now intros ->. Qed.

Lemma fromBase_Absent value u :
  get T u = Absent -> fromBase T value u = Throw (UnknownUnit u).
Proof. unfold fromBase. now intros ->. Qed.

Lemma toBase_Inherited value u :
  get T u = Inherited -> toBase T value u = Ok nan.
Proof. unfold toBase. intros ->. cbn. now rewrite float_mul_nan_r. Qed.

Lemma fromBase_Inherited value u :
  get T u = Inherited -> fromBase T value u = Ok nan.
Proof. unfold fromBase. intros ->. cbn. now rewrite float_div_nan_r. Qed.

(** A unit with factor one converts to base as the identity. *)
Lemma toBase_factor_one value u c :
  get T u = Own c -> factor c = 1%float -> toBase T value u = Ok value.
Proof.
  intros H1 H2. rewrite (toBase_Own _ _ _ H1), H2. now rewrite float_mul_1_r.
Qed.

(** An entry found by [get] is an entry of the table. *)
Lemma get_Own_In u c : get T u = Own c -> In (u, c) T.
Proof.
  unfold get.
  destruct (find _ T) as [[k c']|] eqn:F.
  - intros [= <-]. apply find_some in F as [HIn Hk].
    cbn in Hk. apply String.eqb_eq in Hk. now subst.
  - destruct (existsb _ _); discriminate.
Qed.

End EngineFacts.

(** ** Migration of one record *)

Section MigrationFacts.

Variable T : unit_table.
Variable lc : string -> string.

(** The audit fields and the identifier are copied on every path. *)
Lemma migrateTestResult_audit (r : TestResultMigrationData.t) :
  MigratedTestResult.result_id (migrateTestResult T lc r) = TestResultMigrationData.result_id r /\
  MigratedTestResult.value_raw (migrateTestResult T lc r) = TestResultMigrationData.value r /\
  MigratedTestResult.unit_raw (migrateTestResult T lc r) = TestResultMigrationData.units r.
Proof.
  unfold migrateTestResult.
  destruct (TestResultMigrationData.units r) as [u|]; [|now cbn].
  destruct (_ || _); [now cbn|].
  destruct (toBase T _ _); now cbn.
Qed.

(** [value_base] on each path, by the outcome of the table read. *)
Lemma migrateTestResult_value_base (r : TestResultMigrationData.t) :
  MigratedTestResult.value_base (migrateTestResult T lc r) =
  match TestResultMigrationData.units r with
  | None => TestResultMigrationData.value r
  | Some u =>
      if String.eqb u EmptyString || String.eqb (trim u) EmptyString
      then TestResultMigrationData.value r
      else match get T (normalizeUnitString lc u) with
           | Own c => (TestResultMigrationData.value r * factor c)%float
           | Inherited => nan
           | Absent => TestResultMigrationData.value r
           end
  end.
Proof.
  unfold migrateTestResult.
  destruct (TestResultMigrationData.units r) as [u|]; [|now cbn].
  destruct (_ || _); [now cbn|].
  destruct (get T (normalizeUnitString lc u)) as [c| |] eqn:G.
  - now rewrite (toBase_Own _ _ _ _ G).
  - now rewrite (toBase_Inherited _ _ _ G).
  - now rewrite (toBase_Absent _ _ _ G).
Qed.

End MigrationFacts.

(** [migrateTestResult] is a total function; on every path it copies the
    identifier, the value and the units of the record into [result_id],
    [value_raw] and [unit_raw]; [value_base] is the original value when
    [units] is null, empty or blank after trimming, or when the normalized
    unit is absent from the table; it is [value * factor] when the normalized
    unit is an entry of the table; and it is NaN when the normalized unit
    names a member inherited from [Object.prototype].  Trimming and
    lower-casing are those of JavaScript: in both revisions, units 'lb'
    followed by a no-break space, or ' Pounds ', convert as pounds; the
    Kelvin sign followed by 'PH' converts as km/h; and units that are one
    no-break space count as blank. *)
Theorem migrateTestResult_spec (T : unit_table) (lc : string -> string)
    (r : TestResultMigrationData.t) :
  MigratedTestResult.result_id (migrateTestResult T lc r) = TestResultMigrationData.result_id r /\
  MigratedTestResult.value_raw (migrateTestResult T lc r) = TestResultMigrationData.value r /\
  MigratedTestResult.unit_raw (migrateTestResult T lc r) = TestResultMigrationData.units r /\
  MigratedTestResult.value_base (migrateTestResult T lc r) =
  match TestResultMigrationData.units r with
  | None => TestResultMigrationData.value r
  | Some u =>
      if String.eqb u EmptyString || String.eqb (trim u) EmptyString
      then TestResultMigrationData.value r
      else match get T (normalizeUnitString lc u) with
           | Own c => (TestResultMigrationData.value r * factor c)%float
           | Inherited => nan
           | Absent => TestResultMigrationData.value r
           end
  end /\
  (forall id key v,
     let migrated_base T' units :=
       MigratedTestResult.value_base
         (migrateTestResult T' lc (TestResultMigrationData.mk id key v (Some units))) in
     migrated_base Src.TO_BASE_FACTORS ("lb" ++ no_break_space) = (v * 0.45359237)%float /\
     migrated_base Dist.TO_BASE_FACTORS ("lb" ++ no_break_space) = (v * 0.45359237)%float /\
     migrated_base Src.TO_BASE_FACTORS " Pounds " = (v * 0.45359237)%float /\
     migrated_base Dist.TO_BASE_FACTORS " Pounds " = (v * 0.45359237)%float /\
     migrated_base Src.TO_BASE_FACTORS (kelvin_sign ++ "PH") = (v * (1 / 3.6))%float /\
     migrated_base Dist.TO_BASE_FACTORS (kelvin_sign ++ "PH") = (v * (1 / 3.6))%float /\
     migrated_base Src.TO_BASE_FACTORS no_break_space = v /\
     migrated_base Dist.TO_BASE_FACTORS no_break_space = v).
Proof.
  destruct (migrateTestResult_audit T lc r) as (H1 & H2 & H3).
  split; [exact H1|]. split; [exact H2|]. split; [exact H3|].
  split; [apply migrateTestResult_value_base|].
  intros id key v. cbv zeta. repeat split; reflexivity.
Qed.

(** C2 (defect).  [migrateTestResult] on the record
    [{result_id: 'r1', test_key: 'body_weight', value: 5, units: 'constructor'}]:
    the unit is not registered in either table, yet [value_base] is [NaN] and
    not the original value 5, because the table read finds the member
    inherited from [Object.prototype] and no error is raised.  The audit
    fields are still the original ones. *)
Theorem migrateTestResult_inherited_unit (lc : string -> string) :
  find (fun e => String.eqb (fst e) "constructor") Src.TO_BASE_FACTORS = None /\
  find (fun e => String.eqb (fst e) "constructor") Dist.TO_BASE_FACTORS = None /\
  normalizeUnitString lc "constructor" = "constructor" /\
  migrateTestResult Src.TO_BASE_FACTORS lc record_constructor
    = MigratedTestResult.mk "r1" nan 5 (Some "constructor") /\
  migrateTestResult Dist.TO_BASE_FACTORS lc record_constructor
    = MigratedTestResult.mk "r1" nan 5 (Some "constructor") /\
  strict_eq (MigratedTestResult.value_base
               (migrateTestResult Src.TO_BASE_FACTORS lc record_constructor)) 5 = false.
Proof. repeat split; reflexivity. Qed.

(** ** The classifier *)

(** C3 (defect).  The classifier of the TypeScript source returns [distance]
    for the keys 'height', 'deep_squat' and 'push_ups', where the
    specification and the test-suite expect 'length', 'score' and 'count';
    it has no first scan for score/count/percent/reps, so a key such as
    'weight_score' is classified by the domain scan.  The other three
    exemplar keys are classified as stated. *)
Theorem Src_getMetricType_exemplars :
  Src.getMetricType "height" = Src.distance /\
  Src.getMetricType "deep_squat" = Src.distance /\
  Src.getMetricType "push_ups" = Src.distance /\
  Src.getMetricType "weight_score" = Src.mass /\
  Src.getMetricType "body_weight" = Src.mass /\
  Src.getMetricType "vertical_jump" = Src.distance /\
  Src.getMetricType "unknown_metric" = Src.distance.
Proof. repeat split; reflexivity. Qed.

(** The nine-family classifier maps the exemplar keys as the specification
    states, and a key with a keyword of the first scan is never given a
    family of the domain scan. *)
Lemma Dist_getMetricType_exemplars :
  Dist.getMetricType "body_weight" = Dist.mass /\
  Dist.getMetricType "height" = Dist.length /\
  Dist.getMetricType "vertical_jump" = Dist.distance /\
  Dist.getMetricType "deep_squat" = Dist.score /\
  Dist.getMetricType "push_ups" = Dist.count /\
  Dist.getMetricType "unknown_metric" = Dist.distance /\
  Dist.getMetricType "weight_score" = Dist.score /\
  forall metricKey,
    exact_family_keyword metricKey = true ->
    In (Dist.getMetricType metricKey) [Dist.score; Dist.count; Dist.percent; Dist.reps].
Proof.
  do 7 (split; [reflexivity|]).
  intros k H. unfold exact_family_keyword, some_included in H. cbn [existsb] in H.
  unfold Dist.getMetricType.
  destruct (includes k "score"); [cbn; auto|].
  destruct (includes k "fms"); [cbn; auto|].
  destruct (includes k "rating"); [cbn; auto|].
  destruct (includes k "count"); [cbn; auto|].
  destruct (includes k "number"); [cbn; auto|].
  destruct (includes k "percent"); [cbn; auto|].
  destruct (includes k "%"); [cbn; auto|].
  destruct (includes k "reps"); [cbn; auto|].
  destruct (includes k "repetitions"); [cbn; auto|].
  discriminate.
Qed.

Lemma Dist_getMetricType_exemplars_witness :
  exact_family_keyword "weight_score" = true /\
  In (Dist.getMetricType "weight_score") [Dist.score; Dist.count; Dist.percent; Dist.reps].
Proof.
  split; [reflexivity|].
  apply (proj2 (proj2 (proj2 (proj2 (proj2 (proj2 (proj2 Dist_getMetricType_exemplars))))))).
  reflexivity.
Defined.

(** ** Identity entries *)

(** C4 (defect).  The table of the TypeScript source has no entry for count,
    percent, score or reps: [toBase] throws the unknown-unit error for each
    of them, at every value. *)
Theorem Src_toBase_non_convertible (v : float) :
  get Src.TO_BASE_FACTORS "count" = Absent /\
  get Src.TO_BASE_FACTORS "percent" = Absent /\
  get Src.TO_BASE_FACTORS "score" = Absent /\
  get Src.TO_BASE_FACTORS "reps" = Absent /\
  toBase Src.TO_BASE_FACTORS v "count" = Throw (UnknownUnit "count") /\
  toBase Src.TO_BASE_FACTORS v "percent" = Throw (UnknownUnit "percent") /\
  toBase Src.TO_BASE_FACTORS v "score" = Throw (UnknownUnit "score") /\
  toBase Src.TO_BASE_FACTORS v "reps" = Throw (UnknownUnit "reps").
Proof. repeat split; reflexivity. Qed.

(** The nine-family table has the identity entries, each with itself as base
    and factor one, and [toBase] returns the value unchanged for them. *)
Lemma Dist_identity_entries (v : float) :
  get Dist.TO_BASE_FACTORS "count" = Own {| factor := 1; base := "count" |} /\
  get Dist.TO_BASE_FACTORS "percent" = Own {| factor := 1; base := "percent" |} /\
  get Dist.TO_BASE_FACTORS "score" = Own {| factor := 1; base := "score" |} /\
  get Dist.TO_BASE_FACTORS "reps" = Own {| factor := 1; base := "reps" |} /\
  get Dist.TO_BASE_FACTORS "%" = Own {| factor := 1; base := "%" |} /\
  toBase Dist.TO_BASE_FACTORS v "count" = Ok v /\
  toBase Dist.TO_BASE_FACTORS v "percent" = Ok v /\
  toBase Dist.TO_BASE_FACTORS v "score" = Ok v /\
  toBase Dist.TO_BASE_FACTORS v "reps" = Ok v /\
  toBase Dist.TO_BASE_FACTORS v "%" = Ok v.
Proof.
  do 5 (split; [reflexivity|]).
  repeat split; (eapply toBase_factor_one; [reflexivity | reflexivity]).
Qed.

(** ** Conversion between display units *)

(** C5.  For registered units whose base units differ, [convertUnit] throws
    the incompatible-units error whatever the value is: the outcome is fixed
    by the two table entries alone, before any arithmetic; in particular
    ('kg','m') and ('m/s','kg') are rejected for every value in both
    revisions of the table.  For registered units with the same base unit it
    returns [fromBase(toBase(x, fromUnit), toUnit)]. *)
Theorem convertUnit_spec :
  (forall (T : unit_table) (x : float) (fromUnit toUnit : string) (c1 c2 : conversion),
      get T fromUnit = Own c1 ->
      get T toUnit = Own c2 ->
      (base c1 <> base c2 ->
       convertUnit T x fromUnit toUnit
       = Throw (IncompatibleUnits (Some (base c1)) (Some (base c2)))) /\
      (base c1 = base c2 ->
       convertUnit T x fromUnit toUnit
       = (let* baseValue := toBase T x fromUnit in fromBase T baseValue toUnit) /\
       convertUnit T x fromUnit toUnit = Ok ((x * factor c1) / factor c2)%float)) /\
  (forall x : float,
      convertUnit Src.TO_BASE_FACTORS x "kg" "m"
      = Throw (IncompatibleUnits (Some "kg") (Some "m")) /\
      convertUnit Src.TO_BASE_FACTORS x "m/s" "kg"
      = Throw (IncompatibleUnits (Some "m/s") (Some "kg")) /\
      convertUnit Dist.TO_BASE_FACTORS x "kg" "m"
      = Throw (IncompatibleUnits (Some "kg") (Some "m")) /\
      convertUnit Dist.TO_BASE_FACTORS x "m/s" "kg"
      = Throw (IncompatibleUnits (Some "m/s") (Some "kg"))).
Proof.
  split.
  - intros T x u1 u2 c1 c2 H1 H2. split; intros Hb.
    + unfold convertUnit. rewrite H1, H2. cbn [falsy orb base_of].
      assert (Hn : opt_string_neq (Some (base c1)) (Some (base c2)) = true)
        by (apply opt_string_neq_true; congruence).
      now rewrite Hn.
    + assert (Hn : opt_string_neq (Some (base c1)) (Some (base c2)) = false)
        by (rewrite Hb; apply opt_string_neq_refl).
      unfold convertUnit. rewrite H1, H2. cbn [falsy orb base_of]. rewrite Hn.
      split; [reflexivity|].
      rewrite (toBase_Own _ _ _ _ H1). cbn [bind].
      now rewrite (fromBase_Own _ _ _ _ H2).
  - intros x. repeat split; reflexivity.
Qed.

Lemma convertUnit_spec_witness :
  convertUnit Dist.TO_BASE_FACTORS 100 "percent" "%"
  = Throw (IncompatibleUnits (Some "percent") (Some "%")) /\
  convertUnit Src.TO_BASE_FACTORS 10 "m/s" "km/h" = Ok ((10 * 1) / (1 / 3.6))%float.
Proof.
  split.
  - refine (proj1 (proj1 convertUnit_spec Dist.TO_BASE_FACTORS 100%float "percent" "%"
                     {| factor := 1; base := "percent" |} {| factor := 1; base := "%" |}
                     eq_refl eq_refl) _).
    cbn. discriminate.
  - refine (proj2 (proj2 (proj1 convertUnit_spec Src.TO_BASE_FACTORS 10%float "m/s" "km/h"
                     {| factor := 1; base := "m/s" |}
                     {| factor := (1 / 3.6)%float; base := "m/s" |}
                     eq_refl eq_refl) _)).
    reflexivity.
Defined.

(** ** Safe conversions *)

Section SafeFacts.

Variable T : unit_table.

(** What the safe conversions return, by the outcome of the table read. *)
Lemma safeConvert_cases :
  (forall u, safeConvertToBase T JSnull u = None /\
             safeConvertToBase T JSundefined u = None /\
             safeConvertToBase T (JSnumber nan) u = None /\
             safeConvertFromBase T JSnull u = None /\
             safeConvertFromBase T JSundefined u = None /\
             safeConvertFromBase T (JSnumber nan) u = None) /\
  (forall x u, isNaN x = true ->
             safeConvertToBase T (JSnumber x) u = None /\
             safeConvertFromBase T (JSnumber x) u = None) /\
  (forall x u, get T u = Absent ->
             safeConvertToBase T (JSnumber x) u = None /\
             safeConvertFromBase T (JSnumber x) u = None) /\
  (forall x u c, isNaN x = false -> get T u = Own c ->
             toBase T x u = Ok (x * factor c)%float /\
             safeConvertToBase T (JSnumber x) u = Some (x * factor c)%float /\
             fromBase T x u = Ok (x / factor c)%float /\
             safeConvertFromBase T (JSnumber x) u = Some (x / factor c)%float).
Proof.
  split; [|split; [|split]].
  - intros u. repeat split; reflexivity.
  - intros x u H. unfold safeConvertToBase, safeConvertFromBase. now rewrite H.
  - intros x u H. unfold safeConvertToBase, safeConvertFromBase.
    rewrite (toBase_Absent _ _ _ H), (fromBase_Absent _ _ _ H).
    now destruct (isNaN x).
  - intros x u c Hx H. unfold safeConvertToBase, safeConvertFromBase.
    rewrite (toBase_Own _ _ _ _ H), (fromBase_Own _ _ _ _ H), Hx.
    repeat split; reflexivity.
Qed.

End SafeFacts.

(** C6 (defect).  For the unit 'constructor', which is registered in neither
    table, the safe conversions of the number 100 return [NaN] and not
    [null]: the strict conversion does not throw, so there is nothing to
    catch.  For 'bogus' they return [null]. *)
Theorem safeConvert_inherited_unit :
  get Src.TO_BASE_FACTORS "constructor" = Inherited /\
  get Dist.TO_BASE_FACTORS "constructor" = Inherited /\
  safeConvertToBase Src.TO_BASE_FACTORS (JSnumber 100) "constructor" = Some nan /\
  safeConvertFromBase Src.TO_BASE_FACTORS (JSnumber 100) "constructor" = Some nan /\
  safeConvertToBase Dist.TO_BASE_FACTORS (JSnumber 100) "constructor" = Some nan /\
  safeConvertFromBase Dist.TO_BASE_FACTORS (JSnumber 100) "constructor" = Some nan /\
  safeConvertToBase Src.TO_BASE_FACTORS (JSnumber 100) "bogus" = None /\
  safeConvertToBase Dist.TO_BASE_FACTORS (JSnumber 100) "bogus" = None.
Proof. repeat split; reflexivity. Qed.

(** ** Validation of a migrated batch *)

(** The errors and the failure count after one iteration are determined by
    the identifiers and the audit fields: [value_base] plays no part. *)
Lemma validateRecord_errors i orig mig st :
  l_errors (validateRecord i orig mig st) =
  (let oid := TestResultMigrationData.result_id orig in
   if negb (String.eqb oid (MigratedTestResult.result_id mig))
   then l_errors st ++ [IdMismatch i oid (MigratedTestResult.result_id mig)]
   else
     (l_errors st
      ++ (if strict_neq (MigratedTestResult.value_raw mig) (TestResultMigrationData.value orig)
          then [ValueRawMismatch oid (MigratedTestResult.value_raw mig)
                  (TestResultMigrationData.value orig)]
          else []))
      ++ (if opt_string_neq (MigratedTestResult.unit_raw mig) (TestResultMigrationData.units orig)
          then [UnitRawMismatch oid (MigratedTestResult.unit_raw mig)
                  (TestResultMigrationData.units orig)]
          else []))%list.
Proof.
  unfold validateRecord. cbv zeta.
  destruct (negb _); [reflexivity|].
  destruct (_ <? _)%float; destruct (strict_neq _ _); destruct (opt_string_neq _ _);
    cbn [l_errors]; now rewrite ?app_nil_r.
Qed.

Lemma validateRecord_failed i orig mig st :
  l_failed (validateRecord i orig mig st) =
  (if negb (String.eqb (TestResultMigrationData.result_id orig)
              (MigratedTestResult.result_id mig))
   then S (l_failed st)
   else
     (if opt_string_neq (MigratedTestResult.unit_raw mig) (TestResultMigrationData.units orig)
      then 1 else 0)
     + ((if strict_neq (MigratedTestResult.value_raw mig) (TestResultMigrationData.value orig)
         then 1 else 0)
        + l_failed st))%nat.
Proof.
  unfold validateRecord. cbv zeta.
  destruct (negb _); [reflexivity|].
  destruct (_ <? _)%float; destruct (strict_neq _ _); destruct (opt_string_neq _ _);
    reflexivity.
Qed.

(** Two runs of the loop over migrated lists with the same identifiers and
    audit fields, started with the same errors and failure count, end with
    the same errors and failure count. *)
Lemma validateLoop_same_audit original :
  forall i migrated migrated' st st',
    Forall2 same_audit migrated migrated' ->
    l_errors st = l_errors st' ->
    l_failed st = l_failed st' ->
    l_errors (validateLoop i original migrated st)
    = l_errors (validateLoop i original migrated' st') /\
    l_failed (validateLoop i original migrated st)
    = l_failed (validateLoop i original migrated' st').
Proof.
  induction original as [|orig original IH]; intros i migrated migrated' st st' HF He Hf.
  - now cbn.
  - destruct HF as [|mig mig' migrated migrated' (Hid & Hv & Hu) HF]; [now cbn|].
    cbn [validateLoop]. apply IH; [assumption| |].
    + rewrite !validateRecord_errors. cbv zeta. now rewrite Hid, Hv, Hu, He.
    + rewrite !validateRecord_failed. now rewrite Hid, Hv, Hu, Hf.
Qed.

Lemma is_empty_true {A : Type} (l : list A) : is_empty l = true <-> l = [].
Proof. destruct l; cbn; split; congruence. Qed.

(** The loop visits the pairs in order: one more pair at the end is one more
    iteration, at the index of that pair. *)
Lemma validateLoop_snoc original :
  forall migrated i st orig mig,
    List.length original = List.length migrated ->
    validateLoop i (original ++ [orig]) (migrated ++ [mig]) st
    = validateRecord (i + List.length original) orig mig
        (validateLoop i original migrated st).
Proof.
  induction original as [|o original IH]; intros [|m migrated] i st orig mig Hlen;
    try discriminate Hlen.
  - cbn. now rewrite Nat.add_0_r.
  - cbn [app validateLoop List.length].
    rewrite IH by (cbn in Hlen; lia).
    now replace (S i + List.length original)%nat with (i + S (List.length original))%nat by lia.
Qed.

(** The report over two sequences of equal length, by the state the loop
    ends in. *)
Lemma validateMigration_equal_length original migrated :
  List.length original = List.length migrated ->
  let st := validateLoop 0 original migrated
              {| l_errors := []; l_warnings := []; l_converted := 0;
                 l_unchanged := 0; l_failed := 0 |} in
  validateMigration original migrated =
  {| success := is_empty (l_errors st);
     errors := l_errors st;
     warnings := l_warnings st;
     statistics := {| total := List.length original;
                      converted := l_converted st;
                      unchanged := l_unchanged st;
                      failed := l_failed st |} |}.
Proof.
  intros Hlen. unfold validateMigration. now rewrite Hlen, Nat.eqb_refl.
Qed.

Lemma is_empty_app_cons {A : Type} (l : list A) (a : A) (l' : list A) :
  is_empty (l ++ a :: l') = false.
Proof. now destruct l. Qed.

(** A number for which [isNaN] holds is the NaN of the binary64
    specification, and no test [<] holds for its absolute value. *)
Lemma isNaN_Prim2SF (x : float) : isNaN x = true -> Prim2SF x = S754_nan.
Proof.
  unfold isNaN, PrimFloat.is_nan. rewrite eqb_spec.
  destruct (Prim2SF x) as [s|s| |s m e]; try reflexivity; intros H; exfalso;
    revert H; unfold SFeqb, SFcompare.
  - discriminate.
  - destruct s; discriminate.
  - rewrite Z.compare_refl, Pos.compare_cont_refl. destruct s; discriminate.
Qed.

Lemma abs_nan_ltb (x t : float) : isNaN x = true -> (PrimFloat.abs x <? t)%float = false.
Proof.
  intros H. rewrite ltb_spec, abs_spec, (isNaN_Prim2SF x H). reflexivity.
Qed.

(** C7 (amended).  [validateMigration]:
    - when the two sequences differ in length, the report is unsuccessful,
      holds the single length-mismatch error, counts every original record
      as failed and classifies none (converted = unchanged = 0);
    - in every case, success holds exactly when the errors list is empty;
    - for sequences of equal length every pair is checked, in order, at its
      index: the report over one more pair is the report without it, changed
      by the checks of that pair;
    - a pair with different identifiers adds the identifier error for its
      index and one failure, makes the report unsuccessful, and adds nothing
      else: the pair is not classified, raises no warning and its audit
      fields are not compared;
    - a pair with equal identifiers adds one audit error and one failure for
      each of [value_raw] and [unit_raw] that differs from the original, and
      is classified unchanged when the test [|orig.value - value_base| <
      1e-10] holds and converted when it does not; only a converted pair can
      raise a warning, and it does when the ratio is below 0.001 or above
      1000;
    - a pair whose difference is NaN is classified converted, although
      [|orig.value - value_base| >= 1e-10] does not hold for it;
    - warnings never affect success: two migrated sequences that differ
      only in their [value_base] fields get the same success flag, errors
      and failure count. *)
Theorem validateMigration_report :
  (forall original migrated,
      List.length original <> List.length migrated ->
      validateMigration original migrated =
      {| success := false;
         errors := [LengthMismatch (List.length original) (List.length migrated)];
         warnings := [];
         statistics := {| total := List.length original; converted := 0;
                          unchanged := 0; failed := List.length original |} |}) /\
  (forall original migrated,
      success (validateMigration original migrated) = true
      <-> errors (validateMigration original migrated) = []) /\
  (forall original migrated orig mig,
      List.length original = List.length migrated ->
      TestResultMigrationData.result_id orig <> MigratedTestResult.result_id mig ->
      let before := validateMigration original migrated in
      let after := validateMigration (original ++ [orig]) (migrated ++ [mig]) in
      errors after
      = (errors before ++ [IdMismatch (List.length original)
                             (TestResultMigrationData.result_id orig)
                             (MigratedTestResult.result_id mig)])%list /\
      warnings after = warnings before /\
      converted (statistics after) = converted (statistics before) /\
      unchanged (statistics after) = unchanged (statistics before) /\
      failed (statistics after) = S (failed (statistics before)) /\
      success after = false) /\
  (forall original migrated orig mig,
      List.length original = List.length migrated ->
      TestResultMigrationData.result_id orig = MigratedTestResult.result_id mig ->
      let oid := TestResultMigrationData.result_id orig in
      let ovalue := TestResultMigrationData.value orig in
      let ounits := TestResultMigrationData.units orig in
      let value_base := MigratedTestResult.value_base mig in
      let value_raw := MigratedTestResult.value_raw mig in
      let unit_raw := MigratedTestResult.unit_raw mig in
      let ratio := (value_base / ovalue)%float in
      let audit :=
        ((if strict_neq value_raw ovalue
          then [ValueRawMismatch oid value_raw ovalue] else [])
         ++ (if opt_string_neq unit_raw ounits
             then [UnitRawMismatch oid unit_raw ounits] else []))%list in
      let before := validateMigration original migrated in
      let after := validateMigration (original ++ [orig]) (migrated ++ [mig]) in
      errors after = (errors before ++ audit)%list /\
      failed (statistics after) = (failed (statistics before) + List.length audit)%nat /\
      (if (PrimFloat.abs (ovalue - value_base) <? 1e-10)%float
       then unchanged (statistics after) = S (unchanged (statistics before)) /\
            converted (statistics after) = converted (statistics before) /\
            warnings after = warnings before
       else converted (statistics after) = S (converted (statistics before)) /\
            unchanged (statistics after) = unchanged (statistics before) /\
            warnings after
            = (warnings before
               ++ (if ((ratio <? 0.001) || (1000 <? ratio))%float
                   then [SuspiciousConversion oid ovalue ounits value_base ratio]
                   else []))%list) /\
      (isNaN (ovalue - value_base)%float = true ->
       converted (statistics after) = S (converted (statistics before)) /\
       ((1e-10 <=? PrimFloat.abs (ovalue - value_base))%float = false))) /\
  (forall original migrated migrated',
      Forall2 same_audit migrated migrated' ->
      success (validateMigration original migrated)
      = success (validateMigration original migrated') /\
      errors (validateMigration original migrated)
      = errors (validateMigration original migrated') /\
      failed (statistics (validateMigration original migrated))
      = failed (statistics (validateMigration original migrated'))).
Proof.
  split; [|split; [|split; [|split]]].
  - intros original migrated H. unfold validateMigration.
    apply Nat.eqb_neq in H. now rewrite H.
  - intros original migrated. unfold validateMigration.
    destruct (negb _); cbn [success errors].
    + split; discriminate.
    + apply is_empty_true.
  - intros original migrated orig mig Hlen Hid. cbv zeta.
    rewrite (validateMigration_equal_length original migrated Hlen).
    rewrite (validateMigration_equal_length (original ++ [orig]) (migrated ++ [mig]))
      by (rewrite !length_app; cbn; lia).
    cbv zeta. rewrite (validateLoop_snoc original migrated 0 _ orig mig Hlen).
    cbn [errors warnings statistics converted unchanged failed success Nat.add].
    unfold validateRecord. apply String.eqb_neq in Hid. rewrite Hid. cbn [negb].
    cbn [l_errors l_warnings l_converted l_unchanged l_failed].
    repeat split. apply is_empty_app_cons.
  - intros original migrated orig mig Hlen Hid. cbv zeta.
    rewrite (validateMigration_equal_length original migrated Hlen).
    rewrite (validateMigration_equal_length (original ++ [orig]) (migrated ++ [mig]))
      by (rewrite !length_app; cbn; lia).
    cbv zeta. rewrite (validateLoop_snoc original migrated 0 _ orig mig Hlen).
    cbn [errors warnings statistics converted unchanged failed success Nat.add].
    set (st := validateLoop 0 original migrated _).
    unfold validateRecord. cbv zeta. rewrite Hid, String.eqb_refl. cbn [negb].
    split; [|split; [|split]].
    + destruct (_ <? 1e-10)%float;
        destruct (strict_neq _ _); destruct (opt_string_neq _ _);
        cbn [l_errors app]; rewrite ?app_nil_r, <- ?app_assoc; reflexivity.
    + destruct (_ <? 1e-10)%float;
        destruct (strict_neq _ _); destruct (opt_string_neq _ _);
        cbn [l_failed app List.length]; lia.
    + destruct (_ <? 1e-10)%float; [|destruct (orb _ _)];
        destruct (strict_neq _ _); destruct (opt_string_neq _ _);
        cbn [l_warnings l_unchanged l_converted];
        rewrite ?app_nil_r; repeat split; reflexivity.
    + intros Hnan. rewrite (abs_nan_ltb _ _ Hnan). split.
      * destruct (strict_neq _ _); destruct (opt_string_neq _ _); reflexivity.
      * rewrite leb_spec, abs_spec, (isNaN_Prim2SF _ Hnan).
        unfold SFleb, SFcompare. now destruct (Prim2SF 1e-10).
  - intros original migrated migrated' HF.
    assert (HL : List.length migrated = List.length migrated')
      by (induction HF; cbn; congruence).
    unfold validateMigration. rewrite <- HL.
    destruct (negb _); cbn [success errors statistics failed l_errors l_warnings].
    + now rewrite HL.
    + destruct (validateLoop_same_audit original 0 migrated migrated'
                  {| l_errors := []; l_warnings := []; l_converted := 0;
                     l_unchanged := 0; l_failed := 0 |}
                  {| l_errors := []; l_warnings := []; l_converted := 0;
                     l_unchanged := 0; l_failed := 0 |} HF eq_refl eq_refl) as [He Hf].
      now rewrite He, Hf.
Qed.

(** The example of the specification, two original records against one
    migrated record; and one pair with different identifiers, whose audit
    fields differ too. *)
Lemma validateMigration_report_witness :
  validateMigration [record_lbs; record_height]
                    [migrateTestResult Src.TO_BASE_FACTORS sample_lower_case record_lbs]
  = {| success := false;
       errors := [LengthMismatch 2 1];
       warnings := [];
       statistics := {| total := 2; converted := 0; unchanged := 0; failed := 2 |} |} /\
  errors (validateMigration ([] ++ [record_lbs])
            ([] ++ [MigratedTestResult.mk "WRONG" 0 0 (Some "x")]))
  = [IdMismatch 0 "1" "WRONG"] /\
  success (validateMigration ([] ++ [record_lbs])
             ([] ++ [MigratedTestResult.mk "WRONG" 0 0 (Some "x")])) = false.
Proof.
  split; [|split].
  - refine (proj1 validateMigration_report [record_lbs; record_height]
              [migrateTestResult Src.TO_BASE_FACTORS sample_lower_case record_lbs] _).
    cbn. discriminate.
  - refine (proj1 (proj1 (proj2 (proj2 validateMigration_report)) [] []
                     record_lbs (MigratedTestResult.mk "WRONG" 0 0 (Some "x")) eq_refl _)).
    cbn. discriminate.
  - refine (proj2 (proj2 (proj2 (proj2 (proj2
              (proj1 (proj2 (proj2 validateMigration_report)) [] []
                 record_lbs (MigratedTestResult.mk "WRONG" 0 0 (Some "x")) eq_refl _)))))).
    cbn. discriminate.
Defined.

(** C7 (counterexample).  The record with units 'constructor' against its
    own migration output: [value_base] is NaN, so the difference is NaN and
    [|orig.value - value_base| >= 1e-10] is false; the pair is counted
    converted all the same, because the code classifies by the failure of
    the test [< 1e-10]. *)
Lemma validateMigration_nan_difference :
  migrateTestResult Src.TO_BASE_FACTORS sample_lower_case record_constructor
  = MigratedTestResult.mk "r1" nan 5 (Some "constructor") /\
  (1e-10 <=? PrimFloat.abs (5 - nan))%float = false /\
  (PrimFloat.abs (5 - nan) <? 1e-10)%float = false /\
  validateMigration [record_constructor]
    [MigratedTestResult.mk "r1" nan 5 (Some "constructor")]
  = {| success := true;
       errors := [];
       warnings := [];
       statistics := {| total := 1; converted := 1; unchanged := 0; failed := 0 |} |}.
Proof. repeat split; reflexivity. Qed.

(** ** Conversion constants *)



(** ** Formatting *)

(** C9.  [formatValue] renders [fromBase(baseValue, unit)] with [toFixed] at
    the given precision (2 when omitted), then a space, then the unit
    string; [formatValue(1,'kg',2)] is "1.00 kg" and [formatValue(1,'cm',2)]
    is "100.00 cm" in both revisions of the table.  [formatBaseValue] on
    null, undefined or NaN never throws, whatever the classifier, the
    preferences and the precision are: it returns a null display value, the
    placeholder U+2014 and the display unit of the key's family, which is
    the unit a successful formatting of a number reports for the same key
    and preferences. *)
Theorem formatting_spec :
  (forall NumberToString T baseValue displayUnit precision,
      formatValue NumberToString T baseValue displayUnit precision =
      (let* displayValue := fromBase T baseValue displayUnit in
       let* digits := toFixed NumberToString displayValue
                        (match precision with Some p => p | None => 2%Z end) in
       Ok (digits ++ " " ++ displayUnit))) /\
  (forall NumberToString,
      formatValue NumberToString Src.TO_BASE_FACTORS 1 "kg" (Some 2%Z) = Ok "1.00 kg" /\
      formatValue NumberToString Src.TO_BASE_FACTORS 1 "cm" (Some 2%Z) = Ok "100.00 cm" /\
      formatValue NumberToString Dist.TO_BASE_FACTORS 1 "kg" (Some 2%Z) = Ok "1.00 kg" /\
      formatValue NumberToString Dist.TO_BASE_FACTORS 1 "cm" (Some 2%Z) = Ok "100.00 cm") /\
  (forall NumberToString T (family UnitPreferences : Type)
          (getMetricType : string -> family)
          (getDisplayUnit : family -> UnitPreferences -> string)
          metricKey preferences precision,
      let shown := {| displayValue := None;
                      formattedValue := placeholder;
                      unit := getDisplayUnit (getMetricType metricKey) preferences |} in
      let format v := formatBaseValue NumberToString T family UnitPreferences
                        getMetricType getDisplayUnit v metricKey preferences precision in
      format JSnull = Ok shown /\
      format JSundefined = Ok shown /\
      format (JSnumber nan) = Ok shown /\
      (forall x, isNaN x = true -> format (JSnumber x) = Ok shown) /\
      (forall x r, format (JSnumber x) = Ok r -> unit r = unit shown)).
Proof.
  split; [|split].
  - reflexivity.
  - intros NTS. repeat split; reflexivity.
  - intros NTS T family UP gmt gdu key prefs precision shown format.
    split; [reflexivity|]. split; [reflexivity|]. split; [reflexivity|]. split.
    + intros x Hx. unfold format, formatBaseValue. now rewrite Hx.
    + intros x r. unfold format, formatBaseValue.
      destruct (isNaN x).
      * now intros [= <-].
      * destruct (fromBase T x _); [|discriminate]. cbn [bind].
        destruct (formatValue _ _ _ _ _); [|discriminate]. cbn [bind].
        now intros [= <-].
Qed.

Lemma formatting_spec_witness :
  unit {| displayValue := Some (75 / 0.45359237)%float;
          formattedValue := "165.35 lb";
          unit := "lb" |}
  = "lb".
Proof.
  refine (proj2 (proj2 (proj2 (proj2
            (proj2 (proj2 formatting_spec) (fun _ => EmptyString) Dist.TO_BASE_FACTORS
               Dist.family Dist.UnitPreferences Dist.getMetricType Dist.getDisplayUnit
               "body_weight" (fun _ => "lb") None))))
            75%float _ _).
  vm_compute. reflexivity.
Defined.

(** ** Validation of the library's own migration output *)

Section SelfValidation.

Variable T : unit_table.
Variable lc : string -> string.

(** A record whose value is not NaN passes the checks against its own
    migration: no error, no failure. *)
Lemma validateRecord_migrated i (r : TestResultMigrationData.t) st :
  isNaN (TestResultMigrationData.value r) = false ->
  l_errors (validateRecord i r (migrateTestResult T lc r) st) = l_errors st /\
  l_failed (validateRecord i r (migrateTestResult T lc r) st) = l_failed st.
Proof.
  intros Hn.
  destruct (migrateTestResult_audit T lc r) as (Hid & Hv & Hu).
  rewrite validateRecord_errors, validateRecord_failed. cbv zeta.
  rewrite Hid, Hv, Hu, String.eqb_refl, (strict_neq_refl _ Hn), opt_string_neq_refl.
  cbn [negb]. now rewrite !app_nil_r.
Qed.

Lemma validateLoop_migrated (records : list TestResultMigrationData.t) :
  Forall (fun r => isNaN (TestResultMigrationData.value r) = false) records ->
  forall i st,
    l_errors (validateLoop i records (migrateTestResults T lc records) st) = l_errors st /\
    l_failed (validateLoop i records (migrateTestResults T lc records) st) = l_failed st.
Proof.
  induction 1 as [|r records Hr _ IH]; intros i st; [now cbn|].
  cbn [migrateTestResults map validateLoop].
  destruct (validateRecord_migrated i r st Hr) as [He Hf].
  destruct (IH (S i) (validateRecord i r (migrateTestResult T lc r) st)) as [He' Hf'].
  unfold migrateTestResults in He', Hf'. now rewrite He', Hf'.
Qed.

End SelfValidation.

(** C10 (counterexample).  A batch holding one record whose value is NaN does
    not validate against its own migration output: the audit check
    [mig.value_raw !== orig.value] holds for NaN, so one error is reported
    and success is false. *)
Lemma self_validation_nan :
  validateMigration [record_nan] (migrateTestResults Src.TO_BASE_FACTORS sample_lower_case [record_nan])
  = {| success := false;
       errors := [ValueRawMismatch "r2" nan nan];
       warnings := [];
       statistics := {| total := 1; converted := 1; unchanged := 0; failed := 1 |} |}
  /\ success (validateMigration [record_nan]
                (migrateTestResults Dist.TO_BASE_FACTORS sample_lower_case [record_nan])) = false.
Proof. split; reflexivity. Qed.

(** C10 (amended).  For every batch of records none of whose values is NaN,
    and either revision of the table (indeed any table), validating the
    batch against its own migration output succeeds: success is true, the
    errors list is empty, no record is counted as failed, and the migrated
    sequence has the length and, position by position, the identifier, value
    and units of the input in its audit fields. *)
Theorem self_validation (T : unit_table) (lc : string -> string)
    (records : list TestResultMigrationData.t) :
  Forall (fun r => isNaN (TestResultMigrationData.value r) = false) records ->
  let report := validateMigration records (migrateTestResults T lc records) in
  success report = true /\
  errors report = [] /\
  failed (statistics report) = 0%nat /\
  total (statistics report) = List.length records /\
  List.length (migrateTestResults T lc records) = List.length records /\
  Forall2 (fun r m =>
             MigratedTestResult.result_id m = TestResultMigrationData.result_id r /\
             MigratedTestResult.value_raw m = TestResultMigrationData.value r /\
             MigratedTestResult.unit_raw m = TestResultMigrationData.units r)
          records (migrateTestResults T lc records).
Proof.
  intros H report.
  assert (HL : List.length (migrateTestResults T lc records) = List.length records)
    by apply length_map.
  destruct (validateLoop_migrated T lc records H 0
              {| l_errors := []; l_warnings := []; l_converted := 0;
                 l_unchanged := 0; l_failed := 0 |}) as [He Hf].
  unfold report, validateMigration. rewrite HL, Nat.eqb_refl. cbn [negb].
  cbn [success errors statistics failed total]. rewrite He, Hf.
  repeat split; try reflexivity; try assumption.
  clear. induction records as [|r records IH]; cbn; constructor.
  - apply migrateTestResult_audit.
  - exact IH.
Qed.

Lemma self_validation_witness :
  success (validateMigration [record_lbs; record_height; record_constructor]
             (migrateTestResults Dist.TO_BASE_FACTORS sample_lower_case
                [record_lbs; record_height; record_constructor])) = true.
Proof.
  refine (proj1 (self_validation Dist.TO_BASE_FACTORS sample_lower_case
                   [record_lbs; record_height; record_constructor] _)).
  repeat constructor.
Defined.


(** ** Binary64 rounding

    Error bounds for the binary64 multiplication, division and subtraction,
    read off their definitions in [SpecFloat]: the result of an operation is
    within two units in the last place of the exact result. *)

Section Rounding.

Local Open Scope Z_scope.

(** The bit length [digits2_pos] is [Pos.size]. *)
Lemma digits2_size p : digits2_pos p = Pos.size p.
Proof. induction p; cbn; congruence. Qed.

(** A positive integer lies between the powers of two given by its bit
    length. *)
Lemma Zdigits2_bounds m : 0 < m -> 2 ^ (Zdigits2 m - 1) <= m < 2 ^ Zdigits2 m.
Proof.
  destruct m as [|p|p]; try lia. intros _. cbn [Zdigits2]. rewrite digits2_size.
  split.
  - pose proof (Pos.size_le p) as H.
    assert (Hs : Zpos (Pos.size p) = Z.succ (Zpos (Pos.size p) - 1)) by lia.
    assert (H2 : 2 ^ Zpos (Pos.size p) <= 2 * Zpos p).
    { rewrite <- Pos2Z.inj_pow. change (2 * Zpos p) with (Zpos p~0). now apply Pos2Z.pos_le_pos. }
    rewrite Hs, Z.pow_succ_r in H2 by lia. lia.
  - pose proof (Pos.size_gt p) as H.
    rewrite <- Pos2Z.inj_pow. now apply Pos2Z.pos_lt_pos.
Qed.

Lemma Zdigits2_nonneg m : 0 <= Zdigits2 m.
Proof. destruct m; cbn; lia. Qed.

(** One step of the right shift halves the mantissa. *)
Lemma shr_1_m mrs : 0 <= shr_m mrs -> shr_m (shr_1 mrs) = shr_m mrs / 2.
Proof.
  destruct mrs as [m r s]. cbn [shr_m]. intros H.
  rewrite <- Z.div2_div.
  destruct m as [|[p|p|]|p]; try reflexivity; lia.
Qed.

(** [p] steps divide it by [2^p]. *)
Lemma iter_shr_m p : forall mrs, 0 <= shr_m mrs ->
  shr_m (iter_pos shr_1 p mrs) = shr_m mrs / 2 ^ Zpos p.
Proof.
  induction p as [p IH|p IH|]; intros mrs H; cbn [iter_pos].
  - assert (H1 : 0 <= shr_m (shr_1 mrs)) by (rewrite shr_1_m by lia; apply Z.div_pos; lia).
    assert (H2 : 0 <= shr_m (iter_pos shr_1 p (shr_1 mrs)))
      by (rewrite IH by lia; apply Z.div_pos; [lia | apply Z.pow_pos_nonneg; lia]).
    rewrite IH, IH, shr_1_m by lia.
    rewrite !Z.div_div by (try apply Z.pow_pos_nonneg; lia).
    f_equal. rewrite Pos2Z.inj_xI.
    rewrite <- Z.pow_add_r, <- Z.pow_succ_r by lia. f_equal. lia.
  - assert (H2 : 0 <= shr_m (iter_pos shr_1 p mrs))
      by (rewrite IH by lia; apply Z.div_pos; [lia | apply Z.pow_pos_nonneg; lia]).
    rewrite IH, IH by lia.
    rewrite !Z.div_div by (try apply Z.pow_pos_nonneg; lia).
    f_equal. rewrite Pos2Z.inj_xO.
    rewrite <- Z.pow_add_r by lia. f_equal. lia.
  - rewrite shr_1_m by lia. reflexivity.
Qed.

(** The binary64 exponent function. *)
Lemma fexp64 e : fexp prec emax e = Z.max (e - 53) (-1074).
Proof. reflexivity. Qed.

(** [shr_fexp] raises the exponent to the canonical one when that is larger,
    and divides the mantissa by the corresponding power of two. *)
Lemma shr_fexp_spec m e l :
  0 <= m ->
  exists mrs e',
    shr_fexp prec emax m e l = (mrs, e') /\
    e' = Z.max e (fexp prec emax (Zdigits2 m + e)) /\
    shr_m mrs = m / 2 ^ (e' - e) /\
    (e' = e -> mrs = shr_record_of_loc m l).
Proof.
  intros Hm. unfold shr_fexp, shr.
  assert (Hr : shr_m (shr_record_of_loc m l) = m) by (destruct l as [|[]]; reflexivity).
  destruct (fexp prec emax (Zdigits2 m + e) - e) as [|p|p] eqn:E.
  - eexists _, _. split; [reflexivity|]. split; [lia|]. split.
    + rewrite Z.sub_diag, Z.pow_0_r, Z.div_1_r. exact Hr.
    + reflexivity.
  - eexists _, _. split; [reflexivity|]. split; [lia|]. split.
    + rewrite iter_shr_m by lia. rewrite Hr. f_equal. f_equal. lia.
    + lia.
  - eexists _, _. split; [reflexivity|]. split; [lia|]. split.
    + rewrite Z.sub_diag, Z.pow_0_r, Z.div_1_r. exact Hr.
    + reflexivity.
Qed.

(** After a shift that changed the exponent, the exponent is the least one or
    the mantissa has 53 bits. *)
Lemma shift_normal m e :
  0 <= m ->
  let e' := Z.max e (fexp prec emax (Zdigits2 m + e)) in
  e' = e \/ e' = -1074 \/ 2 ^ 52 <= m / 2 ^ (e' - e).
Proof.
  intros Hm e'.
  assert (Hdef : e' = Z.max e (Z.max (Zdigits2 m + e - 53) (-1074))) by reflexivity.
  clearbody e'.
  destruct (Z.eq_dec e' e) as [|Hne]; [now left|]. right.
  destruct (Z.eq_dec e' (-1074)) as [|Hn2]; [now left|]. right.
  assert (He' : e' = Zdigits2 m + e - 53) by lia.
  assert (Hk : 0 < Zdigits2 m - 53) by lia.
  assert (Hpos : 0 < m) by (destruct m; cbn in *; lia).
  destruct (Zdigits2_bounds m Hpos) as [Hlo _].
  replace (e' - e) with (Zdigits2 m - 53) by lia.
  apply Z.div_le_lower_bound; [apply Z.pow_pos_nonneg; lia|].
  rewrite <- Z.pow_add_r by lia.
  replace (Zdigits2 m - 53 + 52) with (Zdigits2 m - 1) by lia. exact Hlo.
Qed.

(** Rounding to nearest even keeps the truncated mantissa or adds one. *)
Lemma round_nearest_even_bounds m l : m <= round_nearest_even m l <= m + 1.
Proof. destruct l as [|[]]; cbn; try destruct (Z.even m); lia. Qed.

(** Euclidean division by a power of two. *)
Lemma div_pow2_bounds m k : 0 <= k -> (m / 2 ^ k) * 2 ^ k <= m < (m / 2 ^ k + 1) * 2 ^ k.
Proof.
  intros Hk. assert (Hp : 0 < 2 ^ k) by (apply Z.pow_pos_nonneg; lia).
  pose proof (Z.div_mod m (2 ^ k) ltac:(lia)).
  pose proof (Z.mod_pos_bound m (2 ^ k) Hp). nia.
Qed.

(** The result of [binary_round_aux] on a non-negative mantissa [mx] at
    exponent [ex]: a mantissa [M3] at an exponent [e3 >= ex] with
    [(M3 - 1) 2^e3 <= mx 2^ex] and [(mx + 1) 2^ex <= (M3 + 2) 2^e3]; either
    nothing was shifted, or [e3] is the least exponent, or [M3] has 53
    bits. *)
Lemma binary_round_aux_spec s mx ex lx :
  0 <= mx ->
  exists M3 e3,
    0 <= M3 /\ ex <= e3 /\
    (M3 - 1) * 2 ^ (e3 - ex) <= mx /\
    mx + 1 <= (M3 + 2) * 2 ^ (e3 - ex) /\
    ((e3 = ex /\ mx <= M3 /\ (lx = loc_Exact -> M3 = mx)) \/ e3 = -1074 \/ 2 ^ 52 <= M3) /\
    binary_round_aux prec emax s mx ex lx =
    match M3 with
    | Z0 => S754_zero s
    | Zpos m => if e3 <=? 971 then S754_finite s m e3 else S754_infinity s
    | Zneg _ => S754_nan
    end.
Proof.
  intros Hmx. unfold binary_round_aux.
  destruct (shr_fexp_spec mx ex lx Hmx) as (mrs1 & e1 & E1 & He1 & HM1 & Hsame1).
  rewrite E1.
  set (M1 := shr_m mrs1) in *.
  set (M2 := round_nearest_even M1 (loc_of_shr_record mrs1)).
  assert (HM1pos : 0 <= M1)
    by (rewrite HM1; apply Z.div_pos; [lia | apply Z.pow_pos_nonneg; lia]).
  pose proof (round_nearest_even_bounds M1 (loc_of_shr_record mrs1)) as HM2. fold M2 in HM2.
  assert (HM2pos : 0 <= M2) by lia.
  destruct (shr_fexp_spec M2 e1 loc_Exact HM2pos) as (mrs3 & e3 & E3 & He3 & HM3 & _).
  rewrite E3.
  set (M3 := shr_m mrs3) in *.
  assert (Hk1 : 0 <= e1 - ex) by lia.
  assert (Hk3 : 0 <= e3 - e1) by lia.
  assert (HM3pos : 0 <= M3)
    by (rewrite HM3; apply Z.div_pos; [lia | apply Z.pow_pos_nonneg; lia]).
  pose proof (div_pow2_bounds mx (e1 - ex) Hk1) as B1. rewrite <- HM1 in B1.
  pose proof (div_pow2_bounds M2 (e3 - e1) Hk3) as B3. rewrite <- HM3 in B3.
  assert (Hpow : 2 ^ (e3 - ex) = 2 ^ (e3 - e1) * 2 ^ (e1 - ex))
    by (rewrite <- Z.pow_add_r by lia; f_equal; lia).
  assert (P1 : 0 < 2 ^ (e1 - ex)) by (apply Z.pow_pos_nonneg; lia).
  assert (P3 : 0 < 2 ^ (e3 - e1)) by (apply Z.pow_pos_nonneg; lia).
  exists M3, e3.
  split; [exact HM3pos|]. split; [lia|].
  split; [rewrite Hpow; nia|]. split; [rewrite Hpow; nia|].
  split.
  - pose proof (shift_normal M2 e1 HM2pos) as N3. cbv zeta in N3. rewrite <- He3 in N3.
    rewrite <- HM3 in N3.
    destruct N3 as [N3|[N3|N3]]; [|now right; left | now right; right].
    pose proof (shift_normal mx ex Hmx) as N1. cbv zeta in N1. rewrite <- He1 in N1.
    rewrite <- HM1 in N1.
    assert (HM32 : M3 = M2)
      by (rewrite HM3, N3, Z.sub_diag, Z.pow_0_r, Z.div_1_r; reflexivity).
    destruct N1 as [N1|[N1|N1]].
    + left. split; [lia|].
      assert (HM1x : M1 = mx)
        by (rewrite HM1, N1, Z.sub_diag, Z.pow_0_r, Z.div_1_r; reflexivity).
      split; [lia|].
      intros ->. rewrite HM32. unfold M2, M1. rewrite (Hsame1 N1). reflexivity.
    + right; left. lia.
    + right; right. lia.
  - fold M3. destruct M3; reflexivity.
Qed.

Local Open Scope Q_scope.

(** Powers of two as rationals. *)
Lemma bpow_pos e : 0 < bpow e.
Proof. apply Qpower_0_lt. reflexivity. Qed.

Lemma bpow_add a b : bpow (a + b) == bpow a * bpow b.
Proof. apply Qpower_plus. discriminate. Qed.

Lemma bpow_split e ez : bpow e == bpow (e - ez) * bpow ez.
Proof. rewrite <- bpow_add. now replace (e - ez + ez)%Z with e by lia. Qed.

Lemma bpow_le a b : (a <= b)%Z -> bpow a <= bpow b.
Proof. intros H. apply Qpower_le_compat_l; [exact H | discriminate]. Qed.

Lemma bpow_inject k : (0 <= k)%Z -> inject_Z (2 ^ k) == bpow k.
Proof. intros H. unfold bpow. now rewrite Zpower_Qpower. Qed.

Lemma inject_Z_le a b : (a <= b)%Z -> inject_Z a <= inject_Z b.
Proof. intros H. now rewrite <- Zle_Qle. Qed.

(** An integer bound [a * 2^(e' - e) <= b] read on values. *)
Lemma scale_le a b e e' :
  (e <= e')%Z -> (a * 2 ^ (e' - e) <= b)%Z ->
  inject_Z a * bpow e' <= inject_Z b * bpow e.
Proof.
  intros He H. apply inject_Z_le in H.
  rewrite inject_Z_mult, bpow_inject in H by lia.
  replace e' with ((e' - e) + e)%Z at 1 by lia. rewrite bpow_add.
  pose proof (bpow_pos e). nra.
Qed.

Lemma scale_ge a b e e' :
  (e <= e')%Z -> (b <= a * 2 ^ (e' - e))%Z ->
  inject_Z b * bpow e <= inject_Z a * bpow e'.
Proof.
  intros He H. apply inject_Z_le in H.
  rewrite inject_Z_mult, bpow_inject in H by lia.
  replace e' with ((e' - e) + e)%Z at 1 by lia. rewrite bpow_add.
  pose proof (bpow_pos e). nra.
Qed.

Lemma inject_Z_pow52 M : (2 ^ 52 <= M)%Z -> bpow 52 <= inject_Z M.
Proof. intros H. rewrite <- bpow_inject by lia. now apply inject_Z_le. Qed.

Lemma inject_Z_sub_1 a : inject_Z (a - 1) == inject_Z a - 1.
Proof. unfold Z.sub. rewrite inject_Z_plus. reflexivity. Qed.

Lemma inject_Z_add_1 a : inject_Z (a + 1) == inject_Z a + 1.
Proof. rewrite inject_Z_plus. reflexivity. Qed.

Lemma inject_Z_add_2 a : inject_Z (a + 2) == inject_Z a + 2.
Proof. rewrite inject_Z_plus. reflexivity. Qed.

(** Rounding a non-negative value [X] that lies in [[mx, mx+1) * 2^ex]:
    the result is a zero or a finite number of magnitude [R], within two
    units [u] of [X], where [u] is at most 2^-1074 or at most 2^-52 R. *)
Lemma bra_bound s mx ex lx (X : Q) :
  (0 <= mx)%Z ->
  inject_Z mx * bpow ex <= X ->
  X < inject_Z (mx + 1) * bpow ex ->
  X < bpow 972 ->
  ((lx = loc_Exact /\ X == inject_Z mx * bpow ex) \/ (2 ^ 52 <= mx)%Z \/ (ex <= -1074)%Z) ->
  exists R u,
    is_mag s (binary_round_aux prec emax s mx ex lx) R /\
    0 <= u /\ R - 2 * u <= X /\ X <= R + 2 * u /\
    (u <= bpow (-1074) \/ bpow 52 * u <= R).
Proof.
  intros Hmx HXlo HXhi Hov Hin.
  destruct (binary_round_aux_spec s mx ex lx Hmx) as (M3 & e3 & HM3 & Hle & Blo & Bhi & Tri & Eq).
  apply (scale_le _ _ _ _ Hle) in Blo.
  apply (scale_ge _ _ _ _ Hle) in Bhi.
  rewrite inject_Z_sub_1 in Blo. rewrite inject_Z_add_1, inject_Z_add_2 in Bhi.
  rewrite inject_Z_add_1 in HXhi.
  pose proof (bpow_pos e3) as HU. pose proof (bpow_pos ex) as HUx.
  set (U := bpow e3) in *.
  set (R := inject_Z M3 * U) in *.
  assert (HR0 : 0 <= inject_Z M3) by (change 0 with (inject_Z 0); now apply inject_Z_le).
  assert (Blo' : R - U <= X) by (unfold R; nra).
  assert (Bhi' : X < R + 2 * U) by (unfold R; nra).
  (* the unit of the result *)
  assert (HuR : (R == X /\ lx = loc_Exact /\ e3 = ex) \/ U <= bpow (-1074) \/ bpow 52 * U <= R).
  { destruct Tri as [(He & HmM & Hex)|[He|HM]].
    - destruct Hin as [(Hl & HX)|[H52|Hex']].
      + left. split; [|now split]. unfold R, U. rewrite HX, (Hex Hl), He. reflexivity.
      + right; right. unfold R.
        assert (bpow 52 <= inject_Z M3) by (apply inject_Z_pow52; lia). nra.
      + right; left. unfold U. apply bpow_le. lia.
    - right; left. unfold U. rewrite He. apply Qle_refl.
    - right; right. unfold R.
      assert (bpow 52 <= inject_Z M3) by (now apply inject_Z_pow52). nra. }
  (* no overflow *)
  assert (Hfin : (0 < M3)%Z -> (e3 <= 971)%Z).
  { intros Hp. destruct (Z.le_gt_cases e3 971) as [|Hgt]; [assumption|exfalso].
    assert (H972 : bpow 972 <= U) by (apply bpow_le; lia).
    assert (H1 : 1 <= inject_Z M3) by (change 1 with (inject_Z 1); apply inject_Z_le; lia).
    assert (Hb52 : bpow 52 == 4503599627370496) by reflexivity.
    destruct HuR as [(HRX & _)|[Hu|Hu]].
    - unfold R in HRX. nra.
    - assert (bpow (-1074) < bpow 972) by reflexivity. lra.
    - unfold R in *. nra. }
  pose proof (bpow_pos (-1074)) as Heps.
  destruct M3 as [|p|p]; [| |lia].
  - exists 0.
    assert (HR : R == 0) by (unfold R; cbn; ring).
    destruct HuR as [(HRX & _)|[Hu|Hu]].
    + exists 0. rewrite Eq. split; [constructor|]. rewrite HR in HRX. lra.
    + exists U. rewrite Eq. split; [constructor|]. lra.
    + exists U. rewrite Eq. split; [constructor|].
      assert (Hb52 : bpow 52 == 4503599627370496) by reflexivity. nra.
  - exists R. rewrite Eq.
    assert (Hle971 : (e3 <=? 971)%Z = true) by (apply Z.leb_le, Hfin; lia).
    rewrite Hle971.
    destruct HuR as [(HRX & _)|[Hu|Hu]].
    + exists 0. split; [constructor|]. lra.
    + exists U. split; [constructor|]. lra.
    + exists U. split; [constructor|]. lra.
Qed.

Lemma mag_pos m e : 0 < mag m e.
Proof.
  unfold mag. pose proof (bpow_pos e).
  assert (1 <= inject_Z (Zpos m)) by (change 1 with (inject_Z 1); apply inject_Z_le; lia).
  nra.
Qed.

Lemma is_mag_nonneg s r R : is_mag s r R -> 0 <= R.
Proof. intros []; [apply Qle_refl | apply Qlt_le_weak, mag_pos]. Qed.

(** Multiplication of two positive finite numbers. *)
Lemma mul_bound m e mf ef :
  mag m e * mag mf ef < bpow 972 ->
  exists R u,
    is_mag false (SF64mul (S754_finite false m e) (S754_finite false mf ef)) R /\
    0 <= u /\ R - 2 * u <= mag m e * mag mf ef /\ mag m e * mag mf ef <= R + 2 * u /\
    (u <= bpow (-1074) \/ bpow 52 * u <= R).
Proof.
  intros Hov. cbn [SF64mul SFmul xorb].
  assert (HX : mag m e * mag mf ef == inject_Z (Zpos (m * mf)) * bpow (e + ef)).
  { unfold mag. rewrite Pos2Z.inj_mul, inject_Z_mult, bpow_add. ring. }
  apply bra_bound.
  - lia.
  - rewrite HX. apply Qle_refl.
  - rewrite HX, inject_Z_add_1. pose proof (bpow_pos (e + ef)). nra.
  - exact Hov.
  - left. split; [reflexivity | exact HX].
Qed.

(** The integer quotient computed by the division. *)
Lemma div_core_spec my ey mf ef :
  exists q e' l,
    SFdiv_core_binary prec emax (Zpos my) ey (Zpos mf) ef = (q, e', l) /\
    (0 <= q)%Z /\
    inject_Z q * bpow e' <= mag my ey / mag mf ef /\
    mag my ey / mag mf ef < inject_Z (q + 1) * bpow e' /\
    ((2 ^ 52 <= q)%Z \/ (e' <= -1074)%Z).
Proof.
  unfold SFdiv_core_binary.
  set (d1 := Zdigits2 (Zpos my)). set (d2 := Zdigits2 (Zpos mf)).
  set (e' := Z.min (fexp prec emax (d1 + ey - (d2 + ef))) (ey - ef)).
  set (s := (ey - ef - e')%Z).
  assert (Hs : (0 <= s)%Z) by (unfold s, e'; lia).
  set (m' := match s with Zpos _ => Z.shiftl (Zpos my) s | Z0 => Zpos my | Zneg _ => 0%Z end).
  assert (Hm' : m' = (Zpos my * 2 ^ s)%Z).
  { unfold m'. destruct s as [|p|p]; [rewrite Z.pow_0_r; lia | | lia].
    apply Z.shiftl_mul_pow2. lia. }
  pose proof (Z_div_mod m' (Zpos mf) ltac:(lia)) as Hdiv.
  destruct (Z.div_eucl m' (Zpos mf)) as [q r]. destruct Hdiv as [Hqr Hr].
  assert (Hps : (0 < 2 ^ s)%Z) by (apply Z.pow_pos_nonneg; lia).
  assert (Hq : (0 <= q)%Z) by nia.
  exists q, e', (new_location (Zpos mf) r). split; [reflexivity|]. split; [exact Hq|].
  assert (HF : 0 < mag mf ef) by apply mag_pos.
  assert (HY : mag my ey == inject_Z m' * bpow e' * bpow ef).
  { unfold mag. rewrite Hm', inject_Z_mult, bpow_inject by lia.
    replace ey with (s + e' + ef)%Z at 1 by (unfold s; lia).
    rewrite !bpow_add. ring. }
  pose proof (bpow_pos e') as He'. pose proof (bpow_pos ef) as Hef.
  assert (Hm'q : inject_Z m' == inject_Z (Zpos mf) * inject_Z q + inject_Z r)
    by (rewrite Hqr, inject_Z_plus, inject_Z_mult; reflexivity).
  assert (Hr0 : 0 <= inject_Z r) by (change 0 with (inject_Z 0); apply inject_Z_le; lia).
  assert (Hr1 : inject_Z r + 1 <= inject_Z (Zpos mf))
    by (rewrite <- inject_Z_add_1; apply inject_Z_le; lia).
  assert (Hmf1 : 1 <= inject_Z (Zpos mf))
    by (change 1 with (inject_Z 1); apply inject_Z_le; lia).
  assert (Hq0 : 0 <= inject_Z q) by (change 0 with (inject_Z 0); now apply inject_Z_le).
  assert (HP : 0 < bpow e' * bpow ef) by (apply Qmult_lt_0_compat; assumption).
  split; [|split].
  - apply Qle_shift_div_l; [exact HF|]. rewrite HY. unfold mag. rewrite Hm'q.
    apply Qle_minus_iff.
    setoid_replace ((inject_Z (Zpos mf) * inject_Z q + inject_Z r) * bpow e' * bpow ef
                    + - (inject_Z q * bpow e' * (inject_Z (Zpos mf) * bpow ef)))
      with (inject_Z r * (bpow e' * bpow ef)) by ring.
    apply Qmult_le_0_compat; [exact Hr0 | apply Qlt_le_weak, HP].
  - apply Qlt_shift_div_r; [exact HF|]. rewrite HY. unfold mag. rewrite Hm'q.
    rewrite inject_Z_add_1.
    apply Qlt_minus_iff.
    setoid_replace ((inject_Z q + 1) * bpow e' * (inject_Z (Zpos mf) * bpow ef)
                    + - ((inject_Z (Zpos mf) * inject_Z q + inject_Z r) * bpow e' * bpow ef))
      with ((inject_Z (Zpos mf) - inject_Z r) * (bpow e' * bpow ef)) by ring.
    apply Qmult_lt_0_compat; [lra | exact HP].
  - destruct (Z.le_gt_cases e' (-1074)) as [|Hgt]; [now right|left].
    assert (HA : (e' <= d1 + ey - (d2 + ef) - 53)%Z).
    { unfold e' in *. rewrite fexp64 in *. lia. }
    destruct (Zdigits2_bounds (Zpos my) ltac:(lia)) as [Hlo1 _]. fold d1 in Hlo1.
    destruct (Zdigits2_bounds (Zpos mf) ltac:(lia)) as [_ Hhi2]. fold d2 in Hhi2.
    assert (Hd1 : (1 <= d1)%Z) by (unfold d1; cbn; lia).
    assert (Hd2 : (1 <= d2)%Z) by (unfold d2; cbn; lia).
    assert (Hs' : (53 + d2 - d1 <= s)%Z) by (unfold s; lia).
    assert (Hm'lo : (2 ^ (52 + d2) <= m')%Z).
    { rewrite Hm'.
      apply Z.le_trans with (2 ^ (d1 - 1) * 2 ^ s)%Z; [|nia].
      rewrite <- Z.pow_add_r by lia. apply Z.pow_le_mono_r; lia. }
    rewrite Z.pow_add_r in Hm'lo by lia.
    assert (H52 : (0 < 2 ^ 52)%Z) by lia.
    nia.
Qed.

(** Division of a non-negative finite number by a positive finite one. *)
Lemma div_bound y Y mf ef :
  is_mag false y Y ->
  Y / mag mf ef < bpow 972 ->
  exists R u,
    is_mag false (SF64div y (S754_finite false mf ef)) R /\
    0 <= u /\ R - 2 * u <= Y / mag mf ef /\ Y / mag mf ef <= R + 2 * u /\
    (u <= bpow (-1074) \/ bpow 52 * u <= R).
Proof.
  intros Hy Hov. pose proof (bpow_pos (-1074)) as Heps.
  destruct Hy as [|my ey].
  - exists 0, 0. cbn [SF64div SFdiv xorb]. split; [constructor|].
    assert (0 / mag mf ef == 0) by (unfold Qdiv; ring). lra.
  - fold (mag my ey) in *. cbn [SF64div SFdiv xorb].
    destruct (div_core_spec my ey mf ef) as (q & e' & l & Eq & Hq & Hlo & Hhi & Hn).
    rewrite Eq.
    apply bra_bound; try assumption. right. exact Hn.
Qed.

(** Alignment of a mantissa to a lower exponent keeps the value. *)
Lemma iter_xO mx d : Zpos (Pos.iter xO mx d) = (Zpos mx * 2 ^ Zpos d)%Z.
Proof.
  induction d as [|d IH] using Pos.peano_ind.
  - cbn. lia.
  - rewrite Pos.iter_succ, Pos2Z.inj_succ, Z.pow_succ_r, Pos2Z.inj_xO, IH by lia. ring.
Qed.

Lemma shl_align_fst mx ex ex' :
  (ex' <= ex)%Z -> Zpos (fst (shl_align mx ex ex')) = (Zpos mx * 2 ^ (ex - ex'))%Z.
Proof.
  intros H. unfold shl_align.
  destruct (ex' - ex)%Z as [|d|d] eqn:E; cbn [fst].
  - replace (ex - ex')%Z with 0%Z by lia. lia.
  - lia.
  - replace (ex - ex')%Z with (Zpos d) by lia. apply iter_xO.
Qed.

Lemma shl_align_mag mx ex ex' :
  mag (fst (shl_align mx ex ex')) (snd (shl_align mx ex ex')) == mag mx ex.
Proof.
  unfold shl_align.
  destruct (ex' - ex)%Z as [|d|d] eqn:E; cbn [fst snd]; try reflexivity.
  unfold mag.
  rewrite iter_xO, inject_Z_mult, bpow_inject by lia.
  replace ex with (Zpos d + ex')%Z by lia. rewrite bpow_add. ring.
Qed.

Lemma is_mag_abs s r R : is_mag s r R -> is_mag false (SFabs r) R.
Proof. intros []; constructor. Qed.

(** Rounding the exact value [p * 2^e]. *)
Lemma binary_round_bound s p e :
  mag p e < bpow 972 ->
  exists R u,
    is_mag s (binary_round prec emax s p e) R /\
    0 <= u /\ R - 2 * u <= mag p e /\ mag p e <= R + 2 * u /\
    (u <= bpow (-1074) \/ bpow 52 * u <= R).
Proof.
  intros Hov. unfold binary_round.
  pose proof (shl_align_mag p e (fexp prec emax (Zpos (digits2_pos p) + e))) as Hv.
  destruct (shl_align p e (fexp prec emax (Zpos (digits2_pos p) + e))) as [mz ez].
  cbn [fst snd] in Hv. unfold mag in Hv at 1.
  apply bra_bound.
  - lia.
  - rewrite Hv. apply Qle_refl.
  - rewrite inject_Z_add_1, <- Hv. pose proof (bpow_pos ez). nra.
  - exact Hov.
  - left. split; [reflexivity | now symmetry].
Qed.

(** Subtraction of a non-negative finite number from a positive one. *)
Lemma sub_bound m e r Rv :
  is_mag false r Rv ->
  Qabs (mag m e - Rv) < bpow 972 ->
  exists D u,
    is_mag false (SFabs (SF64sub (S754_finite false m e) r)) D /\
    0 <= u /\ D - 2 * u <= Qabs (mag m e - Rv) /\ Qabs (mag m e - Rv) <= D + 2 * u /\
    (u <= bpow (-1074) \/ bpow 52 * u <= D).
Proof.
  intros Hr Hov. pose proof (bpow_pos (-1074)) as Heps.
  destruct Hr as [|mr er].
  - exists (mag m e), 0. cbn [SF64sub SFsub SFabs]. split; [constructor|].
    assert (HA : Qabs (mag m e - 0) == mag m e).
    { setoid_replace (mag m e - 0) with (mag m e) by ring.
      apply Qabs_pos, Qlt_le_weak, mag_pos. }
    rewrite HA. lra.
  - fold (mag mr er) in *. cbn [SF64sub SFsub cond_Zopp].
    set (ez := Z.min e er).
    set (D := (Zpos (fst (shl_align m e ez)) - Zpos (fst (shl_align mr er ez)))%Z).
    assert (HD : inject_Z D * bpow ez == mag m e - mag mr er).
    { unfold D. rewrite !shl_align_fst by (unfold ez; lia).
      unfold Z.sub at 1. rewrite inject_Z_plus, inject_Z_opp, !inject_Z_mult.
      rewrite !bpow_inject by (unfold ez; lia).
      unfold mag. rewrite (bpow_split e ez), (bpow_split er ez). ring. }
    rewrite <- HD in Hov.
    pose proof (bpow_pos ez) as Hez.
    unfold binary_normalize.
    destruct D as [|p|p].
    + exists 0, 0. cbn [SFabs]. split; [constructor|].
      assert (HA : Qabs (inject_Z 0 * bpow ez) == 0)
        by (setoid_replace (inject_Z 0 * bpow ez) with 0 by ring; reflexivity).
      rewrite <- HD, HA. lra.
    + assert (HA : Qabs (inject_Z (Zpos p) * bpow ez) == mag p ez).
      { apply Qabs_pos, Qlt_le_weak, mag_pos. }
      rewrite HA in Hov.
      destruct (binary_round_bound false p ez Hov) as (R & u & Hm & Hb).
      exists R, u. split; [now apply is_mag_abs in Hm |]. rewrite <- HD, HA. exact Hb.
    + assert (HA : Qabs (inject_Z (Zneg p) * bpow ez) == mag p ez).
      { setoid_replace (inject_Z (Zneg p) * bpow ez) with (- mag p ez)
          by (unfold mag; change (Zneg p) with (- Zpos p)%Z; rewrite inject_Z_opp; ring).
        rewrite Qabs_opp. apply Qabs_pos, Qlt_le_weak, mag_pos. }
      rewrite HA in Hov.
      destruct (binary_round_bound true p ez Hov) as (R & u & Hm & Hb).
      exists R, u. split; [now apply is_mag_abs in Hm |]. rewrite <- HD, HA. exact Hb.
Qed.


(** What validity says about the mantissa and exponent. *)
Lemma valid_finite s m e :
  valid_binary (S754_finite s m e) = true ->
  (Zpos m < 2 ^ 53)%Z /\ (-1074 <= e)%Z /\ (e = -1074 \/ 2 ^ 52 <= Zpos m)%Z.
Proof.
  unfold valid_binary, bounded, canonical_mantissa. intros H.
  apply andb_true_iff in H as [Hc _]. apply Z.eqb_eq in Hc. rewrite fexp64 in Hc.
  destruct (Zdigits2_bounds (Zpos m) ltac:(lia)) as [Hlo Hhi]. cbn [Zdigits2] in Hlo, Hhi.
  set (d := Zpos (digits2_pos m)) in *.
  assert (Hd : (d <= 53)%Z) by lia.
  split; [|split; [lia|]].
  - apply Z.lt_le_trans with (2 ^ d)%Z; [exact Hhi|]. apply Z.pow_le_mono_r; lia.
  - destruct (Z.eq_dec e (-1074)) as [|Hne]; [now left|right].
    assert (d = 53%Z) by lia. subst d. rewrite H in Hlo. exact Hlo.
Qed.

(** Comparison of magnitudes at one exponent is comparison of mantissas. *)
Lemma mag_lt_same_exp m1 m2 e : mag m1 e < mag m2 e -> (m1 < m2)%positive.
Proof.
  unfold mag. intros H. pose proof (bpow_pos e).
  assert (H' : inject_Z (Zpos m1) < inject_Z (Zpos m2)) by nra.
  rewrite <- Zlt_Qlt in H'. lia.
Qed.

Lemma mag_le_same_exp m1 m2 e : (m1 <= m2)%positive -> mag m1 e <= mag m2 e.
Proof.
  unfold mag. intros H. pose proof (bpow_pos e).
  assert (H' : inject_Z (Zpos m1) <= inject_Z (Zpos m2)) by (apply inject_Z_le; lia).
  nra.
Qed.

(** A normal number at a higher exponent is larger than any number at a
    lower exponent. *)
Lemma mag_lt_exp m1 e1 m2 e2 :
  (Zpos m1 < 2 ^ 53)%Z -> (2 ^ 52 <= Zpos m2)%Z -> (e1 < e2)%Z -> mag m1 e1 < mag m2 e2.
Proof.
  intros H1 H2 He. unfold mag.
  assert (Hb : bpow e2 == bpow (e2 - e1 - 1) * 2 * bpow e1).
  { rewrite (bpow_split e2 e1). rewrite (bpow_split (e2 - e1) 1).
    change (bpow 1) with 2. ring. }
  assert (Hk : 1 <= bpow (e2 - e1 - 1)) by (change 1 with (bpow 0); apply bpow_le; lia).
  pose proof (bpow_pos e1) as Hp.
  assert (Hm1 : inject_Z (Zpos m1) + 1 <= 9007199254740992)
    by (rewrite <- inject_Z_add_1; change 9007199254740992 with (inject_Z (2 ^ 53));
        apply inject_Z_le; lia).
  assert (Hm2 : 4503599627370496 <= inject_Z (Zpos m2))
    by (change 4503599627370496 with (inject_Z (2 ^ 52)); now apply inject_Z_le).
  rewrite Hb.
  assert (H3 : inject_Z (Zpos m1) * bpow e1 < 9007199254740992 * bpow e1) by nra.
  assert (H4 : 4503599627370496 * (bpow (e2 - e1 - 1) * 2 * bpow e1)
               <= inject_Z (Zpos m2) * (bpow (e2 - e1 - 1) * 2 * bpow e1)).
  { apply Qmult_le_compat_r; [exact Hm2|]. nra. }
  assert (H5 : 9007199254740992 * bpow e1
               <= 4503599627370496 * (bpow (e2 - e1 - 1) * 2 * bpow e1)) by nra.
  lra.
Qed.

(** The binary64 test [a < b] holds when the exact values are in that
    order. *)
Lemma SFltb_mag a A mb eb :
  is_mag false a A ->
  valid_binary a = true ->
  (Zpos mb < 2 ^ 53)%Z -> (-1074 <= eb)%Z ->
  A < mag mb eb ->
  SFltb a (S754_finite false mb eb) = true.
Proof.
  intros Ha Hv Hmb Heb Hlt. destruct Ha as [|ma ea]; [reflexivity|].
  fold (mag ma ea) in Hlt.
  destruct (valid_finite _ _ _ Hv) as (Hma & Hea & Hn).
  unfold SFltb, SFcompare.
  destruct (Z.compare_spec ea eb) as [E|E|E].
  - subst eb. apply mag_lt_same_exp in Hlt.
    change (Pos.compare_cont Eq ma mb) with (Pos.compare ma mb).
    apply Pos.compare_lt_iff in Hlt. now rewrite Hlt.
  - reflexivity.
  - exfalso. assert (Hma52 : (2 ^ 52 <= Zpos ma)%Z) by lia.
    pose proof (mag_lt_exp mb eb ma ea Hmb Hma52 E). lra.
Qed.

(** A valid number that is positive and at most a normal bound. *)
Lemma positive_bounded x mB eB :
  valid_binary x = true ->
  SFltb (S754_zero false) x = true ->
  SFleb x (S754_finite false mB eB) = true ->
  (2 ^ 52 <= Zpos mB)%Z ->
  exists m e, x = S754_finite false m e /\ mag m e <= mag mB eB.
Proof.
  intros Hv Hpos Hle HB.
  destruct x as [s|s| |s m e]; try discriminate.
  - destruct s; discriminate.
  - destruct s; [discriminate|].
    exists m, e. split; [reflexivity|].
    destruct (valid_finite _ _ _ Hv) as (Hm & He & Hn).
    unfold SFleb, SFcompare in Hle.
    destruct (Z.compare_spec e eB) as [E|E|E].
    + subst eB. apply mag_le_same_exp.
      change (Pos.compare_cont Eq m mB) with (Pos.compare m mB) in Hle.
      apply Pos.compare_le_iff. intros Hgt. rewrite Hgt in Hle. discriminate Hle.
    + apply Qlt_le_weak, mag_lt_exp; assumption.
    + discriminate.
Qed.

(** The tolerance [1e-10] and the bound [100000] as binary64 numbers. *)
Lemma Prim2SF_tolerance :
  Prim2SF 1e-10%float = S754_finite false 7737125245533627 (-86).
Proof. reflexivity. Qed.

Lemma Prim2SF_bound :
  Prim2SF 100000%float = S754_finite false 6871947673600000 (-36).
Proof. reflexivity. Qed.

(** The numeric core: the three rounding errors add up to less than the
    tolerance when the value is at most 100000. *)
Lemma roundtrip_numeric (V a w R u2 D u3 : Q) :
  0 < V -> V <= 100000 ->
  0 <= a -> 0 <= w -> a - 2 * w <= V -> V <= a + 2 * w ->
  (w <= (1 # 1000000000000000000000000000000) \/ 4503599627370496 * w <= a) ->
  0 <= R -> 0 <= u2 -> R - 2 * u2 <= a -> a <= R + 2 * u2 ->
  (u2 <= (1 # 1000000000000000000000000000000) \/ 4503599627370496 * u2 <= R) ->
  0 <= D -> 0 <= u3 -> D - 2 * u3 <= Qabs (V - R) ->
  (u3 <= (1 # 1000000000000000000000000000000) \/ 4503599627370496 * u3 <= D) ->
  D < (99999999999 # 1000000000000000000000) /\
  Qabs (V - R) < (1 # 10000000000).
Proof.
  intros HV0 HV Ha Hw H1 H2 Hcw HR Hu2 H3 H4 Hcu2 HD Hu3 H5 Hcu3.
  assert (HA : Qabs (V - R) <= 2 * w + 2 * u2).
  { apply Qabs_Qle_condition. lra. }
  split; lra.
Qed.

(** Numeric facts used below. *)
Lemma eps_small : bpow (-1074) <= (1 # 128000000000000000000000000000000).
Proof. vm_compute. discriminate. Qed.

Lemma bpow52_val : bpow 52 == 4503599627370496.
Proof. reflexivity. Qed.

Lemma big_bound : 1000000000000 < bpow 972.
Proof. reflexivity. Qed.

Lemma unit_cases (u R : Q) :
  (u <= bpow (-1074) \/ bpow 52 * u <= R) ->
  (u <= (1 # 128000000000000000000000000000000) \/ 4503599627370496 * u <= R).
Proof.
  intros [H|H]; [left | right].
  - pose proof eps_small. lra.
  - now rewrite <- bpow52_val.
Qed.

(** Converting a positive value of at most 100000 to base and back, with a
    factor between 1/128 and 64, gives a value within the default tolerance
    of the original. *)
Lemma roundtrip_close (v f : float) (mf : positive) (ef : Z) :
  Prim2SF f = S754_finite false mf ef ->
  (1 # 128) <= mag mf ef -> mag mf ef <= 64 ->
  (0 <? v)%float = true ->
  (v <=? 100000)%float = true ->
  (PrimFloat.abs (v - (v * f) / f) <? 1e-10)%float = true /\
  Qabs (Qval v - Qval ((v * f) / f)) < (1 # 10000000000).
Proof.
  intros Hf Hflo Hfhi Hpos Hle.
  rewrite ltb_spec in Hpos. rewrite leb_spec, Prim2SF_bound in Hle.
  change (Prim2SF 0%float) with (S754_zero false) in Hpos.
  destruct (positive_bounded _ _ _ (Prim2SF_valid v) Hpos Hle ltac:(lia)) as (m & e & Hv & HVle).
  assert (HB : mag 6871947673600000 (-36) == 100000) by reflexivity.
  rewrite HB in HVle.
  pose proof (mag_pos m e) as HV0.
  set (V := mag m e) in *. set (F := mag mf ef) in *.
  pose proof big_bound as Hbig.
  (* multiplication *)
  assert (HX : V * F <= 6400000) by nra.
  destruct (mul_bound m e mf ef ltac:(fold V F; lra)) as (Y & u1 & HmY & Hu1 & HY1 & HY2 & HcY).
  fold V F in HY1, HY2.
  rewrite <- Hv, <- Hf, <- mul_spec in HmY.
  pose proof (is_mag_nonneg _ _ _ HmY) as HY0.
  apply unit_cases in HcY.
  (* division *)
  assert (HF0 : 0 < F) by lra.
  assert (HYhi : Y <= 20000000) by lra.
  assert (Hov2 : Y / F < bpow 972).
  { apply Qlt_shift_div_r; [exact HF0|].
    assert (1000000000000 * F <= bpow 972 * F) by (apply Qmult_le_compat_r; lra).
    lra. }
  destruct (div_bound _ Y mf ef HmY Hov2) as (R & u2 & HmR & Hu2 & HR1 & HR2 & HcR).
  fold F in HR1, HR2.
  rewrite <- Hf, <- div_spec in HmR.
  pose proof (is_mag_nonneg _ _ _ HmR) as HR0.
  apply unit_cases in HcR.
  set (a := Y / F) in *. set (w := u1 / F).
  assert (Ha0 : 0 <= a) by (apply Qle_shift_div_l; [exact HF0 | lra]).
  assert (Hw0 : 0 <= w) by (apply Qle_shift_div_l; [exact HF0 | lra]).
  assert (Ha1 : a - 2 * w <= V).
  { setoid_replace (a - 2 * w) with ((Y - 2 * u1) / F) by (unfold a, w; field; lra).
    apply Qle_shift_div_r; [exact HF0 | lra]. }
  assert (Ha2 : V <= a + 2 * w).
  { setoid_replace (a + 2 * w) with ((Y + 2 * u1) / F) by (unfold a, w; field; lra).
    apply Qle_shift_div_l; [exact HF0 | lra]. }
  assert (Hcw : w <= (1 # 1000000000000000000000000000000) \/ 4503599627370496 * w <= a).
  { destruct HcY as [H|H].
    - left. apply Qle_shift_div_r; [exact HF0|].
      lra.
    - right.
      setoid_replace (4503599627370496 * w) with ((4503599627370496 * u1) / F)
        by (unfold w; field; lra).
      unfold a. apply Qle_shift_div_l; [exact HF0|].
      setoid_replace (4503599627370496 * u1 / F * F) with (4503599627370496 * u1)
        by (field; lra).
      exact H. }
  (* subtraction *)
  assert (HRhi : R <= 10000000000) by lra.
  assert (Hov3 : Qabs (V - R) < bpow 972).
  { apply Qabs_Qlt_condition. lra. }
  destruct (sub_bound m e _ R HmR Hov3) as (D & u3 & HmD & Hu3 & HD1 & HD2 & HcD).
  fold V in HD1, HD2.
  rewrite <- Hv, <- sub_spec, <- abs_spec in HmD.
  pose proof (is_mag_nonneg _ _ _ HmD) as HD0.
  apply unit_cases in HcD.
  (* comparison with the tolerance *)
  assert (HcR' : u2 <= (1 # 1000000000000000000000000000000)
                 \/ 4503599627370496 * u2 <= R)
    by (destruct HcR; [left; lra | now right]).
  assert (HcD' : u3 <= (1 # 1000000000000000000000000000000)
                 \/ 4503599627370496 * u3 <= D)
    by (destruct HcD; [left; lra | now right]).
  destruct (roundtrip_numeric V a w R u2 D u3 HV0 HVle Ha0 Hw0 Ha1 Ha2 Hcw HR0 Hu2
              HR1 HR2 HcR' HD0 Hu3 HD1 HcD') as [Hnum Hexact].
  split.
  - rewrite ltb_spec, Prim2SF_tolerance.
    apply (SFltb_mag _ D); [exact HmD | apply Prim2SF_valid | lia | lia |].
    apply Qlt_le_trans with (99999999999 # 1000000000000000000000); [exact Hnum|].
    vm_compute. discriminate.
  - assert (EV : Qval v = V) by (unfold Qval; rewrite Hv; reflexivity).
    assert (ER : Qval (v * f / f) = R)
      by (unfold Qval; destruct HmR; reflexivity).
    rewrite EV, ER. exact Hexact.
Qed.

End Rounding.

(** ** Round trip *)

(** C1 (counterexample).  One million pounds does not round-trip within the
    default tolerance: the result differs from the input by 2^-33, about
    1.16e-10, in both revisions of the table. *)
Lemma validateRoundTrip_large_value :
  validateRoundTrip Src.TO_BASE_FACTORS 1000000 "lb" default_tolerance = Ok false /\
  validateRoundTrip Dist.TO_BASE_FACTORS 1000000 "lb" default_tolerance = Ok false /\
  (let* b := toBase Src.TO_BASE_FACTORS 1000000 "lb" in
   let* d := fromBase Src.TO_BASE_FACTORS b "lb" in
   Ok (PrimFloat.abs (1000000 - d))%float) = Ok 0x1p-33%float.
Proof. repeat split; reflexivity. Qed.

(** Every factor of either table is a positive binary64 number between
    1/128 and 64. *)
Lemma registered_factor (T : unit_table) (u : string) (c : conversion) :
  T = Src.TO_BASE_FACTORS \/ T = Dist.TO_BASE_FACTORS ->
  get T u = Own c ->
  exists mf ef,
    Prim2SF (factor c) = S754_finite false mf ef /\
    ((1 # 128) <= mag mf ef)%Q /\ (mag mf ef <= 64)%Q.
Proof.
  intros HT HG. apply get_Own_In in HG.
  destruct HT as [-> | ->]; cbn [Src.TO_BASE_FACTORS Dist.TO_BASE_FACTORS In] in HG;
    repeat (destruct HG as [HG|HG];
            [injection HG as <- <-; eexists _, _; split; [reflexivity|];
             split; vm_compute; discriminate|]);
    contradiction.
Qed.

(** C1 (amended).  For every unit registered in either revision of the table
    and every value [v] with [0 < v <= 100000], [validateRoundTrip(v, U)]
    with the default tolerance returns true: [toBase] and [fromBase]
    succeed, the floating-point test [|v - back| < 1e-10] holds, and the
    exact values of [v] and of the round-trip result differ by less than
    1e-10. *)
Theorem validateRoundTrip_bounded (T : unit_table) (value : float) (u : string)
    (c : conversion) :
  T = Src.TO_BASE_FACTORS \/ T = Dist.TO_BASE_FACTORS ->
  get T u = Own c ->
  (0 <? value)%float = true ->
  (value <=? 100000)%float = true ->
  validateRoundTrip T value u default_tolerance = Ok true /\
  exists back,
    (let* baseValue := toBase T value u in fromBase T baseValue u) = Ok back /\
    (PrimFloat.abs (value - back) <? 1e-10)%float = true /\
    (Qabs (Qval value - Qval back) < (1 # 10000000000))%Q.
Proof.
  intros HT HG Hpos Hle.
  destruct (registered_factor T u c HT HG) as (mf & ef & Hf & Hlo & Hhi).
  destruct (roundtrip_close value (factor c) mf ef Hf Hlo Hhi Hpos Hle) as [Hclose Hexact].
  unfold validateRoundTrip.
  rewrite (toBase_Own _ _ _ _ HG). cbn [bind].
  rewrite (fromBase_Own _ _ _ _ HG). cbn [bind].
  unfold default_tolerance. rewrite Hclose.
  split; [reflexivity|].
  eexists. split; [reflexivity|]. split; assumption.
Qed.

Lemma validateRoundTrip_bounded_witness :
  validateRoundTrip Dist.TO_BASE_FACTORS 72 "in" default_tolerance = Ok true.
Proof.
  refine (proj1 (validateRoundTrip_bounded Dist.TO_BASE_FACTORS 72%float "in"
                   {| factor := 0.0254%float; base := "m" |}
                   (or_intror eq_refl) eq_refl _ _)); reflexivity.
Defined.

(** ** End-to-end scenarios *)

(** Migrating [{id:'1', key:'body_weight', value:165.3, units:'lbs'}] gives
    [value_base = 165.3 * 0.45359237], whose exact value is within 0.03 of
    75 and more than 0.02 away from it, with the audit fields 165.3 and
    'lbs'; migrating [{id:'2', key:'height', value:180, units:null}] passes
    everything through.  Both tables agree. *)
Theorem migrate_end_to_end (lc : string -> string) :
  (forall T, T = Src.TO_BASE_FACTORS \/ T = Dist.TO_BASE_FACTORS ->
     migrateTestResult T lc record_lbs
     = MigratedTestResult.mk "1" (165.3 * 0.45359237)%float 165.3 (Some "lbs") /\
     migrateTestResult T lc record_height = MigratedTestResult.mk "2" 180 180 None) /\
  (Qabs (Qval (165.3 * 0.45359237)%float - 75) <= 3 # 100)%Q /\
  ((2 # 100) < Qabs (Qval (165.3 * 0.45359237)%float - 75))%Q.
Proof.
  split; [|split].
  - intros T [-> | ->]; split; reflexivity.
  - vm_compute. discriminate.
  - vm_compute. reflexivity.
Qed.

Lemma migrate_end_to_end_witness :
  migrateTestResult Src.TO_BASE_FACTORS sample_lower_case record_height = MigratedTestResult.mk "2" 180 180 None.
Proof.
  exact (proj2 (proj1 (migrate_end_to_end sample_lower_case) Src.TO_BASE_FACTORS
                  (or_introl eq_refl))).
Defined.

(** * Further properties

    Properties of the functions of the library beyond those its
    specification states. *)

(** ** Division by one *)

Section DivisionByOne.

Local Open Scope Z_scope.

Lemma div_eucl_2_52 (a : Z) :
  Z.div_eucl (a * 2 ^ 52) 4503599627370496 = (a, 0).
Proof.
  pose proof (Z_div_mod (a * 2 ^ 52) 4503599627370496 ltac:(lia)) as H.
  destruct (Z.div_eucl (a * 2 ^ 52) 4503599627370496) as [q r]. destruct H as [H1 H2].
  assert (q = a) by lia. subst q. f_equal. lia.
Qed.

(** Rounding a canonical mantissa changes nothing. *)
Lemma binary_round_aux_canonical s m e :
  fexp prec emax (Zpos (digits2_pos m) + e) = e ->
  (e <=? emax - prec) = true ->
  binary_round_aux prec emax s (Zpos m) e loc_Exact = S754_finite s m e.
Proof.
  intros Hc Hb. unfold binary_round_aux, shr_fexp.
  cbn [Zdigits2 shr_record_of_loc]. rewrite Hc, Z.sub_diag.
  cbn [shr shr_m loc_of_shr_record round_nearest_even Zdigits2 shr_record_of_loc].
  rewrite Hc, Z.sub_diag. cbn [shr shr_m]. now rewrite Hb.
Qed.

(** Rounding an even mantissa that has one bit too many halves it. *)
Lemma binary_round_aux_even s m e :
  fexp prec emax (Zpos (digits2_pos m) + e) = e ->
  (e <=? emax - prec) = true ->
  binary_round_aux prec emax s (Zpos m~0) (e - 1) loc_Exact = S754_finite s m e.
Proof.
  intros Hc Hb. unfold binary_round_aux, shr_fexp.
  cbn [Zdigits2 shr_record_of_loc digits2_pos].
  replace (Zpos (Pos.succ (digits2_pos m)) + (e - 1)) with (Zpos (digits2_pos m) + e) by lia.
  rewrite Hc. replace (e - (e - 1)) with 1 by lia.
  cbn [shr iter_pos shr_1 shr_m loc_of_shr_record round_nearest_even orb Zdigits2
       shr_record_of_loc].
  replace (e - 1 + 1) with e by lia.
  rewrite Hc, Z.sub_diag. cbn [shr shr_m]. now rewrite Hb.
Qed.

(** Dividing a binary64 number by one is exact. *)
Lemma SF64div_one (x : spec_float) :
  valid_binary x = true -> SF64div x (Prim2SF 1%float) = x.
Proof.
  rewrite Prim2SF_one.
  destruct x as [s|s| |s m e]; cbn [SF64div SFdiv]; intros Hv.
  - now rewrite xorb_false_r.
  - now rewrite xorb_false_r.
  - reflexivity.
  - rewrite xorb_false_r.
    unfold valid_binary, bounded, canonical_mantissa in Hv.
    apply andb_true_iff in Hv as [Hc Hb].
    apply Z.eqb_eq in Hc.
    assert (Hc' : Z.max (Zpos (digits2_pos m) + e - 53) (-1074) = e) by exact Hc.
    unfold SFdiv_core_binary.
    change (Zdigits2 (Zpos m)) with (Zpos (digits2_pos m)).
    change (Zdigits2 4503599627370496) with 53.
    change (fexp prec emax (Zpos (digits2_pos m) + e - (53 + -52))) with
      (Z.max (Zpos (digits2_pos m) + e - (53 + -52) - 53) (-1074)).
    destruct (Z.eq_dec e (-1074)) as [He|He].
    + (* least exponent: the quotient is the mantissa *)
      replace (Z.min (Z.max (Zpos (digits2_pos m) + e - (53 + -52) - 53) (-1074)) (e - -52))
        with e by lia.
      replace (e - -52 - e) with 52 by lia.
      rewrite Z.shiftl_mul_pow2 by lia.
      rewrite div_eucl_2_52.
      change (new_location 4503599627370496 0) with loc_Exact.
      now apply binary_round_aux_canonical.
    + (* normal: the quotient is twice the mantissa, one exponent lower *)
      replace (Z.min (Z.max (Zpos (digits2_pos m) + e - (53 + -52) - 53) (-1074)) (e - -52))
        with (e - 1) by lia.
      replace (e - -52 - (e - 1)) with 53 by lia.
      rewrite Z.shiftl_mul_pow2 by lia.
      replace (Zpos m * 2 ^ 53) with (Zpos (m~0) * 2 ^ 52) by (rewrite Pos2Z.inj_xO; lia).
      rewrite div_eucl_2_52.
      change (new_location 4503599627370496 0) with loc_Exact.
      now apply binary_round_aux_even.
Qed.

End DivisionByOne.

Lemma float_div_1_r (x : float) : (x / 1)%float = x.
Proof.
  apply Prim2SF_inj. rewrite div_spec.
  apply SF64div_one, Prim2SF_valid.
Qed.

(** ** More binary64 facts *)

Lemma float_mul_nan_l (x : float) : (nan * x)%float = nan.
Proof.
  apply Prim2SF_inj. rewrite mul_spec.
  change (Prim2SF nan) with S754_nan. reflexivity.
Qed.

Lemma float_div_nan_l (x : float) : (nan / x)%float = nan.
Proof.
  apply Prim2SF_inj. rewrite div_spec.
  change (Prim2SF nan) with S754_nan. reflexivity.
Qed.

Lemma float_sub_nan_r (x : float) : (x - nan)%float = nan.
Proof.
  apply Prim2SF_inj. rewrite sub_spec.
  change (Prim2SF nan) with S754_nan.
  unfold SF64sub. now destruct (Prim2SF x).
Qed.

Lemma float_ltb_nan_l (x : float) : (nan <? x)%float = false.
Proof. rewrite ltb_spec. change (Prim2SF nan) with S754_nan. reflexivity. Qed.

(** A finite number is a zero or has a mantissa and an exponent. *)
Lemma is_finite_cases (x : float) :
  PrimFloat.is_finite x = true ->
  (exists s, Prim2SF x = S754_zero s) \/ (exists s m e, Prim2SF x = S754_finite s m e).
Proof.
  unfold PrimFloat.is_finite, PrimFloat.is_nan, PrimFloat.is_infinity.
  rewrite !eqb_spec, abs_spec.
  destruct (Prim2SF x) as [s|s| |s m e].
  - intros _. left. now exists s.
  - destruct s; cbn; discriminate.
  - cbn. discriminate.
  - intros _. right. now exists s, m, e.
Qed.

(** A finite number minus itself is zero. *)
Lemma float_sub_diag (x : float) : PrimFloat.is_finite x = true -> (x - x)%float = 0%float.
Proof.
  intros H. apply Prim2SF_inj. rewrite sub_spec.
  change (Prim2SF 0) with (S754_zero false).
  destruct (is_finite_cases x H) as [[s ->] | (s & m & e & ->)].
  - now destruct s.
  - unfold SF64sub, SFsub. rewrite Z.sub_diag. reflexivity.
Qed.

(** ** Base units *)

Section BaseUnitFacts.

Variable T : unit_table.

Lemma getBaseUnit_Some u b :
  getBaseUnit T u = Ok (Some b) <-> exists c, get T u = Own c /\ base c = b.
Proof.
  unfold getBaseUnit. destruct (get T u) as [c| |]; cbn.
  - split.
    + intros [= <-]. now exists c.
    + intros (c' & [= <-] & <-). reflexivity.
  - split; [discriminate | intros (c & H & _); discriminate].
  - split; [discriminate | intros (c & H & _); discriminate].
Qed.

Lemma fromBase_factor_one value u c :
  get T u = Own c -> factor c = 1%float -> fromBase T value u = Ok value.
Proof.
  intros H1 H2. rewrite (fromBase_Own _ _ _ _ H1), H2. now rewrite float_div_1_r.
Qed.

Lemma convertUnit_Own x u1 u2 c1 c2 :
  get T u1 = Own c1 -> get T u2 = Own c2 -> base c1 = base c2 ->
  convertUnit T x u1 u2 = Ok ((x * factor c1) / factor c2)%float.
Proof.
  intros H1 H2 Hb. unfold convertUnit, toBase, fromBase. rewrite H1, H2.
  cbn [falsy orb base_of factor_of bind]. rewrite Hb, opt_string_neq_refl.
  reflexivity.
Qed.

End BaseUnitFacts.

(** In both revisions the base unit of an entry is itself an entry, with
    factor one and itself as base. *)
Lemma base_entry (T : unit_table) (u : string) (c : conversion) :
  T = Src.TO_BASE_FACTORS \/ T = Dist.TO_BASE_FACTORS ->
  get T u = Own c ->
  get T (base c) = Own {| factor := 1; base := base c |}.
Proof.
  intros HT HG. apply get_Own_In in HG.
  destruct HT as [-> | ->]; cbn [Src.TO_BASE_FACTORS Dist.TO_BASE_FACTORS In] in HG;
    repeat (destruct HG as [HG|HG]; [injection HG as <- <-; reflexivity|]);
    contradiction.
Qed.

(** The outcomes of [convertUnit], for every table, value and pair of unit
    names: it throws the invalid-units error exactly when one of the two
    table reads is undefined; it returns a number exactly when [getBaseUnit]
    succeeds on both units with the same result, and the number is then
    [fromBase(toBase(x, fromUnit), toUnit)]; it never throws the
    unknown-unit error of [toBase] and [fromBase]; and whether it returns
    does not depend on the value. *)
Theorem convertUnit_outcome (T : unit_table) (x : float) (fromUnit toUnit : string) :
  (convertUnit T x fromUnit toUnit = Throw (InvalidUnits fromUnit toUnit)
   <-> get T fromUnit = Absent \/ get T toUnit = Absent) /\
  ((exists y, convertUnit T x fromUnit toUnit = Ok y)
   <-> exists b, getBaseUnit T fromUnit = Ok b /\ getBaseUnit T toUnit = Ok b) /\
  (forall y, convertUnit T x fromUnit toUnit = Ok y ->
     (let* baseValue := toBase T x fromUnit in fromBase T baseValue toUnit) = Ok y) /\
  (forall u, convertUnit T x fromUnit toUnit <> Throw (UnknownUnit u)) /\
  (forall x', (exists y, convertUnit T x fromUnit toUnit = Ok y) ->
              exists y', convertUnit T x' fromUnit toUnit = Ok y').
Proof.
  unfold convertUnit, getBaseUnit, toBase, fromBase.
  destruct (get T fromUnit) as [c1| |], (get T toUnit) as [c2| |];
    cbn [falsy orb base_of factor_of bind opt_string_neq].
  - (* two entries *)
    destruct (String.eqb (base c1) (base c2)) eqn:E; cbn [negb].
    + apply String.eqb_eq in E.
      split; [split; [discriminate | intros [H|H]; discriminate]|].
      split; [split; [intros _; exists (Some (base c1)); now rewrite E
                     | intros _; now eexists]|].
      split; [intros y H; exact H|].
      split; [intros u; discriminate|].
      intros x' _. now eexists.
    + apply String.eqb_neq in E.
      split; [split; [discriminate | intros [H|H]; discriminate]|].
      split; [split; [intros [y H]; discriminate
                     | intros (b & H1 & H2); congruence]|].
      split; [intros y H; discriminate|].
      split; [intros u; discriminate|].
      intros x' [y H]. discriminate.
  - (* an entry and an inherited member *)
    split; [split; [discriminate | intros [H|H]; discriminate]|].
    split; [split; [intros [y H]; discriminate
                   | intros (b & H1 & H2); congruence]|].
    split; [intros y H; discriminate|].
    split; [intros u; discriminate|].
    intros x' [y H]. discriminate.
  - split; [split; [intros _; now right | intros _; reflexivity]|].
    split; [split; [intros [y H]; discriminate
                   | intros (b & H1 & H2); discriminate]|].
    split; [intros y H; discriminate|].
    split; [intros u; discriminate|].
    intros x' [y H]. discriminate.
  - split; [split; [discriminate | intros [H|H]; discriminate]|].
    split; [split; [intros [y H]; discriminate
                   | intros (b & H1 & H2); congruence]|].
    split; [intros y H; discriminate|].
    split; [intros u; discriminate|].
    intros x' [y H]. discriminate.
  - (* two inherited members *)
    split; [split; [discriminate | intros [H|H]; discriminate]|].
    split; [split; [intros _; now exists None | intros _; now eexists]|].
    split; [intros y H; exact H|].
    split; [intros u; discriminate|].
    intros x' _. now eexists.
  - split; [split; [intros _; now right | intros _; reflexivity]|].
    split; [split; [intros [y H]; discriminate
                   | intros (b & H1 & H2); discriminate]|].
    split; [intros y H; discriminate|].
    split; [intros u; discriminate|].
    intros x' [y H]. discriminate.
  - split; [split; [intros _; now left | intros _; reflexivity]|].
    split; [split; [intros [y H]; discriminate
                   | intros (b & H1 & H2); discriminate]|].
    split; [intros y H; discriminate|].
    split; [intros u; discriminate|].
    intros x' [y H]. discriminate.
  - split; [split; [intros _; now left | intros _; reflexivity]|].
    split; [split; [intros [y H]; discriminate
                   | intros (b & H1 & H2); discriminate]|].
    split; [intros y H; discriminate|].
    split; [intros u; discriminate|].
    intros x' [y H]. discriminate.
  - split; [split; [intros _; now left | intros _; reflexivity]|].
    split; [split; [intros [y H]; discriminate
                   | intros (b & H1 & H2); discriminate]|].
    split; [intros y H; discriminate|].
    split; [intros u; discriminate|].
    intros x' [y H]. discriminate.
Qed.

(** In both revisions of the table, the base unit [b] of a registered unit
    [u] is registered and is its own base unit; [toBase] and [fromBase] are
    the identity on it; and converting between [u] and [b] is [toBase],
    respectively [fromBase], of [u]. *)
Theorem getBaseUnit_base (T : unit_table) (u b : string) :
  T = Src.TO_BASE_FACTORS \/ T = Dist.TO_BASE_FACTORS ->
  getBaseUnit T u = Ok (Some b) ->
  getBaseUnit T b = Ok (Some b) /\
  (forall x, toBase T x b = Ok x /\ fromBase T x b = Ok x) /\
  (forall x, convertUnit T x u b = toBase T x u /\
             convertUnit T x b u = fromBase T x u).
Proof.
  intros HT HB. apply getBaseUnit_Some in HB as (c & HG & <-).
  pose proof (base_entry T u c HT HG) as HE.
  split; [|split].
  - apply getBaseUnit_Some. eexists. split; [exact HE | reflexivity].
  - intros x. split.
    + apply (toBase_factor_one T x _ _ HE). reflexivity.
    + apply (fromBase_factor_one T x _ _ HE). reflexivity.
  - intros x. split.
    + rewrite (convertUnit_Own T x _ _ _ _ HG HE eq_refl).
      rewrite (toBase_Own _ _ _ _ HG). cbn [factor]. now rewrite float_div_1_r.
    + rewrite (convertUnit_Own T x _ _ _ _ HE HG eq_refl).
      rewrite (fromBase_Own _ _ _ _ HG). cbn [factor]. now rewrite float_mul_1_r.
Qed.

Lemma getBaseUnit_base_witness :
  convertUnit Dist.TO_BASE_FACTORS 72 "in" "m" = toBase Dist.TO_BASE_FACTORS 72 "in".
Proof.
  exact (proj1 (proj2 (proj2 (getBaseUnit_base Dist.TO_BASE_FACTORS "in" "m"
                                 (or_intror eq_refl) eq_refl)) 72%float)).
Defined.

(** For a unit that is its own base unit (kg, m, s, m/s and the
    pass-through units), in both revisions of the table, the round trip is
    exact for every value, and [validateRoundTrip] with the default
    tolerance returns true for every finite value, however large. *)
Theorem validateRoundTrip_base_unit (T : unit_table) (u : string) (value : float) :
  T = Src.TO_BASE_FACTORS \/ T = Dist.TO_BASE_FACTORS ->
  getBaseUnit T u = Ok (Some u) ->
  (let* baseValue := toBase T value u in fromBase T baseValue u) = Ok value /\
  (PrimFloat.is_finite value = true ->
   validateRoundTrip T value u default_tolerance = Ok true).
Proof.
  intros HT HB. apply getBaseUnit_Some in HB as (c & HG & Hb).
  pose proof (base_entry T u c HT HG) as HE. rewrite Hb, HG in HE.
  injection HE as HE.
  assert (H1 : toBase T value u = Ok value)
    by (apply (toBase_factor_one T value u c HG); now rewrite HE).
  assert (H2 : fromBase T value u = Ok value)
    by (apply (fromBase_factor_one T value u c HG); now rewrite HE).
  split.
  - rewrite H1. cbn [bind]. exact H2.
  - intros Hf. unfold validateRoundTrip. rewrite H1. cbn [bind]. rewrite H2. cbn [bind].
    now rewrite (float_sub_diag value Hf).
Qed.

Lemma validateRoundTrip_base_unit_witness :
  validateRoundTrip Dist.TO_BASE_FACTORS 1e300 "reps" default_tolerance = Ok true.
Proof.
  exact (proj2 (validateRoundTrip_base_unit Dist.TO_BASE_FACTORS "reps" 1e300%float
                  (or_intror eq_refl) eq_refl) eq_refl).
Defined.

(** Every factor of either table maps the infinities to themselves. *)
Lemma registered_factor_infinity (T : unit_table) (u : string) (c : conversion) :
  T = Src.TO_BASE_FACTORS \/ T = Dist.TO_BASE_FACTORS ->
  get T u = Own c ->
  (infinity * factor c = infinity /\ infinity / factor c = infinity /\
   neg_infinity * factor c = neg_infinity /\ neg_infinity / factor c = neg_infinity /\
   PrimFloat.abs (0 - (0 * factor c) / factor c) = 0 /\
   PrimFloat.abs (-0 - (-0 * factor c) / factor c) = 0)%float.
Proof.
  intros HT HG. apply get_Own_In in HG.
  destruct HT as [-> | ->]; cbn [Src.TO_BASE_FACTORS Dist.TO_BASE_FACTORS In] in HG;
    repeat (destruct HG as [HG|HG];
            [injection HG as <- <-; repeat split; reflexivity|]);
    contradiction.
Qed.

(** [validateRoundTrip] on special inputs: it throws the unknown-unit error
    for a name that is neither in the table nor inherited; it returns false
    for every value when the name is inherited from [Object.prototype], and
    for NaN with any unit it does not throw on, whatever the tolerance; for
    the registered units of both revisions it returns false for the two
    infinities and true, with the default tolerance, for the two zeros. *)
Theorem validateRoundTrip_special_values :
  (forall T value u tolerance,
      get T u = Absent ->
      validateRoundTrip T value u tolerance = Throw (UnknownUnit u)) /\
  (forall T value u tolerance,
      get T u = Inherited ->
      validateRoundTrip T value u tolerance = Ok false) /\
  (forall T u tolerance,
      get T u <> Absent ->
      validateRoundTrip T nan u tolerance = Ok false) /\
  (forall T u c tolerance,
      T = Src.TO_BASE_FACTORS \/ T = Dist.TO_BASE_FACTORS ->
      get T u = Own c ->
      validateRoundTrip T infinity u tolerance = Ok false /\
      validateRoundTrip T neg_infinity u tolerance = Ok false /\
      validateRoundTrip T 0 u default_tolerance = Ok true /\
      validateRoundTrip T (-0) u default_tolerance = Ok true).
Proof.
  split; [|split; [|split]].
  - intros T value u tol H. unfold validateRoundTrip.
    now rewrite (toBase_Absent _ _ _ H).
  - intros T value u tol H. unfold validateRoundTrip.
    rewrite (toBase_Inherited _ _ _ H). cbn [bind].
    rewrite (fromBase_Inherited _ _ _ H). cbn [bind].
    rewrite float_sub_nan_r. change (PrimFloat.abs nan) with nan.
    now rewrite float_ltb_nan_l.
  - intros T u tol H. unfold validateRoundTrip, toBase, fromBase.
    destruct (get T u) as [c| |]; [| |congruence]; cbn [falsy bind];
      rewrite float_mul_nan_l, float_div_nan_l, float_sub_nan_r;
      change (PrimFloat.abs nan) with nan; now rewrite float_ltb_nan_l.
  - intros T u c tol HT HG.
    destruct (registered_factor_infinity T u c HT HG) as (H1 & H2 & H3 & H4 & H5 & H6).
    unfold validateRoundTrip.
    rewrite !(toBase_Own _ _ _ _ HG). cbn [bind].
    rewrite !(fromBase_Own _ _ _ _ HG). cbn [bind].
    rewrite H1, H2, H3, H4, H5, H6.
    change (infinity - infinity)%float with nan.
    change (neg_infinity - neg_infinity)%float with nan.
    change (PrimFloat.abs nan) with nan. rewrite float_ltb_nan_l.
    repeat split; reflexivity.
Qed.

Lemma validateRoundTrip_special_values_witness :
  validateRoundTrip Src.TO_BASE_FACTORS infinity "lb" default_tolerance = Ok false.
Proof.
  exact (proj1 (proj2 (proj2 (proj2 validateRoundTrip_special_values))
                  Src.TO_BASE_FACTORS "lb" {| factor := 0.45359237; base := "kg" |}
                  default_tolerance (or_introl eq_refl) eq_refl)).
Defined.

(** The pass-through units of the nine-family revision (count, percent,
    score, reps, '%', level): each is its own base unit, [toBase], [fromBase]
    and [convertUnit] to itself return the value unchanged, and [convertUnit]
    between it and any other unit name throws. *)
Theorem non_convertible_units_isolated (u : string) :
  Dist.isNonConvertibleUnit u = true ->
  getBaseUnit Dist.TO_BASE_FACTORS u = Ok (Some u) /\
  (forall x, toBase Dist.TO_BASE_FACTORS x u = Ok x /\
             fromBase Dist.TO_BASE_FACTORS x u = Ok x /\
             convertUnit Dist.TO_BASE_FACTORS x u u = Ok x) /\
  (forall x u', u' <> u ->
     (exists e, convertUnit Dist.TO_BASE_FACTORS x u u' = Throw e) /\
     (exists e, convertUnit Dist.TO_BASE_FACTORS x u' u = Throw e)).
Proof.
  intros H.
  assert (HG : get Dist.TO_BASE_FACTORS u = Own {| factor := 1; base := u |}).
  { unfold Dist.isNonConvertibleUnit in H. cbn [existsb] in H.
    repeat (apply orb_true_iff in H as [H|H];
            [apply String.eqb_eq in H; subst u; reflexivity|]).
    discriminate. }
  split; [|split].
  - apply getBaseUnit_Some. eexists. split; [exact HG | reflexivity].
  - intros x.
    assert (H1 : toBase Dist.TO_BASE_FACTORS x u = Ok x)
      by (apply (toBase_factor_one _ x u _ HG); reflexivity).
    assert (H2 : fromBase Dist.TO_BASE_FACTORS x u = Ok x)
      by (apply (fromBase_factor_one _ x u _ HG); reflexivity).
    split; [exact H1|]. split; [exact H2|].
    rewrite (convertUnit_Own _ x _ _ _ _ HG HG eq_refl). cbn [factor].
    now rewrite float_mul_1_r, float_div_1_r.
  - intros x u' Hne.
    assert (Hb : forall c, get Dist.TO_BASE_FACTORS u' = Own c -> base c <> u).
    { intros c Hc Heq. apply get_Own_In in Hc.
      unfold Dist.isNonConvertibleUnit in H. cbn [existsb] in H.
      cbn [Dist.TO_BASE_FACTORS In] in Hc.
      repeat (destruct Hc as [Hc|Hc];
              [injection Hc as <- <-; cbn [base] in Heq; subst u;
               first [discriminate H | now apply Hne]|]).
      contradiction. }
    unfold convertUnit. rewrite HG.
    destruct (get Dist.TO_BASE_FACTORS u') as [c| |] eqn:E;
      cbn [falsy orb base_of opt_string_neq base].
    + specialize (Hb c eq_refl).
      assert (E1 : String.eqb u (base c) = false) by (apply String.eqb_neq; congruence).
      assert (E2 : String.eqb (base c) u = false) by now apply String.eqb_neq.
      rewrite E1, E2. cbn [negb]. split; eexists; reflexivity.
    + split; eexists; reflexivity.
    + split; eexists; reflexivity.
Qed.

Lemma non_convertible_units_isolated_witness :
  exists e, convertUnit Dist.TO_BASE_FACTORS 50 "percent" "%" = Throw e.
Proof.
  refine (proj1 (proj2 (proj2 (non_convertible_units_isolated "percent" eq_refl))
                   50%float "%" _)).
  discriminate.
Defined.

(** ** Normalisation of free-text units *)

Ltac norm_step :=
  match goal with
  | |- context [if one_of ?n ?l then _ else _] => destruct (one_of n l) eqn:?
  end.

Lemma normalizeUnitString_cases (lc : string -> string) (unit : string) :
  In (normalizeUnitString lc unit) canonical_units \/
  (normalizeUnitString lc unit = unit /\
   forall unit', trim (toLowerCase lc unit') = trim (toLowerCase lc unit) ->
                 normalizeUnitString lc unit' = unit').
Proof.
  unfold normalizeUnitString at 1 2.
  repeat (norm_step; [left; cbn; tauto|]).
  right. split; [reflexivity|].
  intros unit' E. unfold normalizeUnitString. rewrite E.
  repeat match goal with H : one_of _ _ = false |- _ => rewrite H; clear H end.
  reflexivity.
Qed.

(** [normalizeUnitString] is idempotent; its result is the input itself or
    one of eleven canonical names, each of which it leaves unchanged and
    which is an entry, the same one, of both revisions of the table; and two
    inputs with the same trimmed lower-case form are either both returned
    unchanged or both mapped to the same canonical name; such are 'lb' and
    'lb' followed by a no-break space, and 'km/h' is the result for the
    Kelvin sign followed by 'ph'. *)
Theorem normalizeUnitString_canonical (lc : string -> string) (unit : string) :
  normalizeUnitString lc (normalizeUnitString lc unit) = normalizeUnitString lc unit /\
  (normalizeUnitString lc unit = unit \/ In (normalizeUnitString lc unit) canonical_units) /\
  (forall c, In c canonical_units ->
     normalizeUnitString lc c = c /\
     (exists e, get Src.TO_BASE_FACTORS c = Own e /\ get Dist.TO_BASE_FACTORS c = Own e)) /\
  (forall unit', trim (toLowerCase lc unit') = trim (toLowerCase lc unit) ->
     (normalizeUnitString lc unit = unit /\ normalizeUnitString lc unit' = unit') \/
     (In (normalizeUnitString lc unit) canonical_units /\
      normalizeUnitString lc unit' = normalizeUnitString lc unit)) /\
  (trim (toLowerCase lc ("lb" ++ no_break_space)) = trim (toLowerCase lc "lb") /\
   normalizeUnitString lc ("lb" ++ no_break_space) = "lb" /\
   normalizeUnitString lc (kelvin_sign ++ "ph") = "km/h" /\
   normalizeUnitString lc " KG " = "kg").
Proof.
  assert (Hc : forall c, In c canonical_units ->
     normalizeUnitString lc c = c /\
     (exists e, get Src.TO_BASE_FACTORS c = Own e /\ get Dist.TO_BASE_FACTORS c = Own e)).
  { intros c Hc. cbn in Hc.
    repeat (destruct Hc as [<-|Hc];
            [split; [reflexivity | eexists; split; reflexivity]|]).
    contradiction. }
  split; [|split; [|split; [|split]]]; [| | | |repeat split; reflexivity].
  - destruct (normalizeUnitString_cases lc unit) as [H | [H _]].
    + apply (Hc _ H).
    + now rewrite H.
  - destruct (normalizeUnitString_cases lc unit) as [H | [H _]]; [now right | now left].
  - exact Hc.
  - intros unit' E.
    destruct (normalizeUnitString_cases lc unit) as [H | [H H']].
    + right. split; [exact H|].
      unfold normalizeUnitString at 1 2. rewrite E.
      unfold normalizeUnitString in H. revert H.
      repeat (norm_step; [reflexivity|]).
      intros H. exfalso.
      (* the input itself is canonical, so one of the tests held *)
      cbn in H.
      clear Hc E.
      repeat (destruct H as [H|H];
              [subst unit;
               match goal with
               | H' : one_of _ _ = false |- _ => vm_compute in H'; discriminate H'
               end|]).
      contradiction.
    + left. split; [exact H | now apply H'].
Qed.

(** ** Accounting of the validation report *)

(** What one iteration adds to the counters. *)
Lemma validateRecord_counts i orig mig st :
  let st' := validateRecord i orig mig st in
  (l_failed st' + List.length (l_errors st) = List.length (l_errors st') + l_failed st /\
   l_failed st <= l_failed st' <= l_failed st + 2 /\
   List.length (l_errors st) <= List.length (l_errors st') /\
   l_converted st' + l_unchanged st'
     + List.length (filter is_id_mismatch (l_errors st'))
   = S (l_converted st + l_unchanged st
        + List.length (filter is_id_mismatch (l_errors st))) /\
   l_converted st <= l_converted st' /\
   List.length (l_warnings st') + l_converted st
   <= l_converted st' + List.length (l_warnings st) /\
   List.length (l_warnings st) <= List.length (l_warnings st'))%nat.
Proof.
  cbv zeta. unfold validateRecord.
  destruct (negb _).
  - cbn [l_errors l_warnings l_converted l_unchanged l_failed].
    rewrite filter_app, !length_app. cbn [List.length filter is_id_mismatch]. lia.
  - destruct (PrimFloat.ltb _ _); [|destruct (orb _ _)];
      destruct (strict_neq _ _); destruct (opt_string_neq _ _);
      cbn [l_errors l_warnings l_converted l_unchanged l_failed];
      rewrite ?filter_app, ?length_app; cbn [List.length filter is_id_mismatch]; lia.
Qed.

Lemma validateLoop_counts original :
  forall migrated i st,
    List.length original = List.length migrated ->
    let st' := validateLoop i original migrated st in
    (l_failed st' + List.length (l_errors st) = List.length (l_errors st') + l_failed st /\
     l_failed st <= l_failed st' <= l_failed st + 2 * List.length original /\
     List.length (l_errors st) <= List.length (l_errors st') /\
     l_converted st' + l_unchanged st'
       + List.length (filter is_id_mismatch (l_errors st'))
     = List.length original + (l_converted st + l_unchanged st
          + List.length (filter is_id_mismatch (l_errors st))) /\
     l_converted st <= l_converted st' /\
     List.length (l_warnings st') + l_converted st
     <= l_converted st' + List.length (l_warnings st) /\
     List.length (l_warnings st) <= List.length (l_warnings st'))%nat.
Proof.
  induction original as [|orig original IH]; intros [|mig migrated] i st Hlen;
    try discriminate Hlen.
  - cbn. lia.
  - cbn [validateLoop]. cbv zeta.
    pose proof (validateRecord_counts i orig mig st) as H1. cbv zeta in H1.
    specialize (IH migrated (S i) (validateRecord i orig mig st)
                   ltac:(cbn in Hlen; lia)).
    cbv zeta in IH. cbn [List.length]. lia.
Qed.

(** The counters of [validateMigration] over two sequences of equal length:
    [total] is the length; [failed] is the number of errors; every pair is
    counted exactly once as converted, unchanged or identifier mismatch; there
    are at most as many warnings as converted pairs; [failed] is at most twice
    [total]; and [success] holds exactly when [failed] is zero. *)
Theorem validateMigration_accounting
    (original : list TestResultMigrationData.t) (migrated : list MigratedTestResult.t) :
  List.length original = List.length migrated ->
  let report := validateMigration original migrated in
  let s := statistics report in
  (total s = List.length original /\
   failed s = List.length (errors report) /\
   converted s + unchanged s + List.length (filter is_id_mismatch (errors report))
   = total s /\
   List.length (warnings report) <= converted s /\
   failed s <= 2 * total s /\
   (success report = true <-> failed s = 0))%nat.
Proof.
  intros Hlen. cbv zeta. unfold validateMigration.
  rewrite Hlen, Nat.eqb_refl. cbn [negb success errors warnings statistics
                                    total converted unchanged failed].
  pose proof (validateLoop_counts original migrated 0
                {| l_errors := []; l_warnings := []; l_converted := 0;
                   l_unchanged := 0; l_failed := 0 |} Hlen) as H.
  cbv zeta in H. cbn [l_errors l_warnings l_converted l_unchanged l_failed
                      List.length filter] in H.
  rewrite <- Hlen.
  repeat split; try lia.
  - intros Hs. apply is_empty_true in Hs. rewrite Hs in H. cbn in H. lia.
  - intros Hf. apply is_empty_true.
    destruct (l_errors _); [reflexivity | cbn in H; lia].
Qed.

Lemma validateMigration_accounting_witness :
  failed (statistics (validateMigration [record_nan]
            [MigratedTestResult.mk "r2" nan nan None])) = 1%nat.
Proof.
  exact (proj1 (proj2 (validateMigration_accounting [record_nan]
                         [MigratedTestResult.mk "r2" nan nan None] eq_refl))).
Defined.

(** ** Substrings *)

Lemma append_assoc (a b c : string) : (a ++ b) ++ c = a ++ (b ++ c).
Proof. induction a as [|x a IH]; cbn; [reflexivity | now rewrite IH]. Qed.

Lemma prefix_app (n s : string) : String.prefix n s = true <-> exists q, s = n ++ q.
Proof.
  revert s. induction n as [|a n IH]; intros s.
  - destruct s; cbn; split; eauto.
  - destruct s as [|b s]; cbn.
    + split; [discriminate | intros [q H]; discriminate].
    + destruct (ascii_dec a b) as [->|Hne].
      * rewrite IH. split; intros [q H]; exists q; congruence.
      * split; [discriminate | intros [q H]; congruence].
Qed.

(** [s.includes(n)] holds when [n] occurs somewhere in [s]. *)
Lemma includes_app (s n : string) :
  includes s n = true <-> exists p q, s = p ++ n ++ q.
Proof.
  induction s as [|c s IH].
  - cbn [includes]. destruct (String.prefix n "") eqn:E.
    + split; [intros _|reflexivity].
      apply prefix_app in E as [q E]. now exists "", q.
    + split; [discriminate|]. intros (p & q & H).
      assert (E' : String.prefix n "" = true).
      { apply prefix_app. destruct p; [|discriminate]. now exists q. }
      congruence.
  - cbn [includes]. destruct (String.prefix n (String c s)) eqn:E.
    + split; [intros _|reflexivity].
      apply prefix_app in E as [q E]. now exists "", q.
    + rewrite IH. split.
      * intros (p & q & H). exists (String c p), q. cbn. now rewrite H.
      * intros (p & q & H). destruct p as [|c' p].
        -- assert (E' : String.prefix n (String c s) = true)
             by (apply prefix_app; now exists q).
           congruence.
        -- cbn in H. injection H as _ H. now exists p, q.
Qed.

Lemma includes_trans (s n m : string) :
  includes s n = true -> includes n m = true -> includes s m = true.
Proof.
  rewrite !includes_app. intros (p & q & ->) (p' & q' & ->).
  exists (p ++ p'), (q' ++ q). now rewrite !append_assoc.
Qed.

(** A key that does not contain [m] contains no string that contains [m]. *)
Lemma includes_false_trans (s m n : string) :
  includes s m = false -> includes n m = true -> includes s n = false.
Proof.
  intros H1 H2. destruct (includes s n) eqn:E; [|reflexivity].
  now rewrite (includes_trans s n m E H2) in H1.
Qed.

(** ** The classifiers as keyword tables *)

Ltac split_on k kw :=
  destruct (includes k kw) eqn:?; cbn [orb]; [reflexivity|].

Ltac dead k kw m :=
  rewrite (includes_false_trans k kw m) by (assumption || reflexivity); cbn [orb].

Lemma Src_getMetricType_table (k : string) :
  Src.getMetricType k = first_keyword Src_keywords Src.distance k.
Proof.
  unfold Src.getMetricType, Src_keywords, some_included.
  cbn [first_keyword existsb]. cbv zeta.
  split_on k "weight". split_on k "mass". split_on k "height".
  split_on k "distance". split_on k "jump". split_on k "time".
  split_on k "duration". split_on k "speed". split_on k "velocity".
  dead k "weight" "body_weight". dead k "weight" "max_weight".
  split_on k "load".
  dead k "jump" "vertical_jump". dead k "jump" "broad_jump".
  dead k "time" "sprint_time". dead k "time" "reaction_time". dead k "time" "hold_time".
  dead k "speed" "max_speed". dead k "speed" "average_speed".
  now destruct (includes k "reach").
Qed.

Lemma Dist_getMetricType_table (k : string) :
  Dist.getMetricType k = first_keyword Dist_keywords Dist.distance k.
Proof.
  unfold Dist.getMetricType, Dist_keywords, some_included.
  cbn [first_keyword existsb]. cbv zeta.
  split_on k "score". split_on k "fms". split_on k "rating".
  split_on k "count". split_on k "number". split_on k "percent". split_on k "%".
  split_on k "reps". split_on k "repetitions".
  split_on k "weight". split_on k "mass".
  split_on k "height". split_on k "reach". split_on k "span".
  split_on k "distance". split_on k "jump".
  split_on k "time". split_on k "duration".
  split_on k "speed". split_on k "velocity".
  split_on k "deep_squat". split_on k "overhead_squat". split_on k "shoulder_mobility".
  split_on k "trunk_stability". split_on k "rotary_stability".
  split_on k "push_ups". split_on k "sit_ups". split_on k "attempts".
  dead k "reps" "max_reps". dead k "reps" "total_reps".
  dead k "weight" "body_weight". dead k "weight" "max_weight".
  split_on k "load".
  dead k "span" "arm_span".
  split_on k "leg_length". split_on k "torso_length".
  dead k "jump" "vertical_jump". dead k "jump" "broad_jump".
  dead k "distance" "sprint_distance". dead k "distance" "throw_distance".
  dead k "time" "sprint_time". dead k "time" "reaction_time". dead k "time" "hold_time".
  dead k "speed" "max_speed". dead k "speed" "average_speed".
  reflexivity.
Qed.

Ltac table_case :=
  match goal with
  | |- (if includes ?k ?kw then _ else _) = _ -> _ =>
      destruct (includes k kw) eqn:?; [first [discriminate | intros _; tauto]|]
  end.

(** Both classifiers are a first-match scan of one ordered keyword table:
    of the exemplar lists only 'load' decides anything in the four-family
    revision, and only the squat/mobility/stability keys, 'push_ups',
    'sit_ups', 'attempts', 'load', 'leg_length' and 'torso_length' in the
    nine-family one; every other exemplar contains a keyword of an earlier
    scan.  In particular a key is classified time, speed or reps only when
    it contains the keyword itself. *)
Theorem getMetricType_keyword_table (metricKey : string) :
  Src.getMetricType metricKey = first_keyword Src_keywords Src.distance metricKey /\
  Dist.getMetricType metricKey = first_keyword Dist_keywords Dist.distance metricKey /\
  (Src.getMetricType metricKey = Src.time ->
     includes metricKey "time" = true \/ includes metricKey "duration" = true) /\
  (Src.getMetricType metricKey = Src.speed ->
     includes metricKey "speed" = true \/ includes metricKey "velocity" = true) /\
  (Dist.getMetricType metricKey = Dist.reps ->
     includes metricKey "reps" = true \/ includes metricKey "repetitions" = true) /\
  (Dist.getMetricType metricKey = Dist.time ->
     includes metricKey "time" = true \/ includes metricKey "duration" = true) /\
  (Dist.getMetricType metricKey = Dist.speed ->
     includes metricKey "speed" = true \/ includes metricKey "velocity" = true).
Proof.
  split; [apply Src_getMetricType_table|].
  split; [apply Dist_getMetricType_table|].
  rewrite Src_getMetricType_table, Dist_getMetricType_table.
  unfold Src_keywords, Dist_keywords. cbn [first_keyword].
  repeat split; repeat table_case; discriminate.
Qed.

Lemma getMetricType_keyword_table_witness :
  includes "sprint_time" "time" = true \/ includes "sprint_time" "duration" = true.
Proof.
  exact (proj1 (proj2 (proj2 (proj2 (proj2 (proj2
           (getMetricType_keyword_table "sprint_time")))))) eq_refl).
Defined.

(** ** The display unit of a test *)

(** [getTestDisplayUnit]: a pass-through unit key is returned as it is,
    whatever the family and the preferences; otherwise the families length,
    distance, mass (or weight), time and speed select the preference of that
    family and ignore the unit key.  When every preference is a name the
    table knows, so is the result, except for a reference of family count or
    percent, whose non-empty unit key is returned unchecked.  A name
    inherited from [Object.prototype] passes the test [unitKey in
    TO_BASE_FACTORS] and is returned although it is no entry. *)
Theorem getTestDisplayUnit_cases (apiUnit : string) (baseUnitRef : option BaseUnitRef.t)
    (preferences : Dist.UnitPreferences) :
  let unitKey := unitKey_of apiUnit baseUnitRef in
  let shown := getTestDisplayUnit apiUnit baseUnitRef preferences in
  (Dist.isNonConvertibleUnit unitKey = true -> shown = unitKey) /\
  (Dist.isNonConvertibleUnit unitKey = false ->
     (family_is baseUnitRef "length" = true -> shown = preferences Dist.length) /\
     (family_is baseUnitRef "distance" = true -> shown = preferences Dist.distance) /\
     (family_is baseUnitRef "mass" = true \/ family_is baseUnitRef "weight" = true ->
      shown = preferences Dist.mass) /\
     (family_is baseUnitRef "time" = true -> shown = preferences Dist.time) /\
     (family_is baseUnitRef "speed" = true -> shown = preferences Dist.speed)) /\
  ((forall f, get Dist.TO_BASE_FACTORS (preferences f) <> Absent) ->
     get Dist.TO_BASE_FACTORS shown <> Absent \/
     ((family_is baseUnitRef "count" = true \/ family_is baseUnitRef "percent" = true) /\
      shown = unitKey /\ unitKey <> "")) /\
  (forall k, In k Object_prototype_keys ->
     getTestDisplayUnit k None preferences = k /\
     get Dist.TO_BASE_FACTORS k = Inherited).
Proof.
  cbv zeta. split; [|split; [|split]]; cycle 3.
  { intros k Hk. cbn in Hk.
    repeat (destruct Hk as [<-|Hk]; [split; reflexivity|]). contradiction. }
  - intros H. unfold getTestDisplayUnit. now rewrite H.
  - intros H. unfold getTestDisplayUnit. rewrite H.
    destruct baseUnitRef as [r|]; cbn [family_is];
      [|repeat split; try discriminate; intros [?|?]; discriminate].
    repeat split.
    + intros E. now rewrite E.
    + intros E. apply String.eqb_eq in E. now rewrite E.
    + intros [E|E]; apply String.eqb_eq in E; now rewrite E.
    + intros E. apply String.eqb_eq in E. now rewrite E.
    + intros E. apply String.eqb_eq in E. now rewrite E.
  - intros Hp. unfold getTestDisplayUnit.
    destruct (Dist.isNonConvertibleUnit _) eqn:Hn.
    { left. unfold Dist.isNonConvertibleUnit in Hn. cbn [existsb] in Hn.
      repeat (apply orb_true_iff in Hn as [Hn|Hn];
              [apply String.eqb_eq in Hn; rewrite Hn; discriminate|]).
      discriminate. }
    destruct (family_is baseUnitRef "length"); [left; apply Hp|].
    destruct (family_is baseUnitRef "distance"); [left; apply Hp|].
    destruct (family_is baseUnitRef "mass" || family_is baseUnitRef "weight");
      [left; apply Hp|].
    destruct (family_is baseUnitRef "time"); [left; apply Hp|].
    destruct (family_is baseUnitRef "speed"); [left; apply Hp|].
    destruct (family_is baseUnitRef "count" || family_is baseUnitRef "percent") eqn:Hf;
      cbn [andb].
    + destruct (String.eqb (unitKey_of apiUnit baseUnitRef) "") eqn:He; cbn [negb].
      * destruct (get Dist.TO_BASE_FACTORS (unitKey_of apiUnit baseUnitRef)) eqn:Hg;
          cbn [falsy negb]; left; try (rewrite Hg; discriminate); discriminate.
      * right. apply orb_true_iff in Hf. apply String.eqb_neq in He. tauto.
    + destruct (get Dist.TO_BASE_FACTORS (unitKey_of apiUnit baseUnitRef)) eqn:Hg;
        cbn [falsy negb]; left; try (rewrite Hg; discriminate); discriminate.
Qed.

Lemma getTestDisplayUnit_cases_witness :
  getTestDisplayUnit "cm" (Some (BaseUnitRef.mk "cm" "length"))
    (fun f => match f with Dist.length => "in" | f' => Dist.DEFAULT_PREFERENCES f' end)
  = "in".
Proof.
  exact (proj1 (proj1 (proj2 (getTestDisplayUnit_cases "cm"
           (Some (BaseUnitRef.mk "cm" "length"))
           (fun f => match f with Dist.length => "in" | f' => Dist.DEFAULT_PREFERENCES f' end)))
           eq_refl) eq_refl).
Defined.

(** ** Formatting never throws on registered preferences *)

Lemma toFixed_total NumberToString (x : float) (p : Z) :
  (0 <= p <= 100)%Z -> exists digits, toFixed NumberToString x p = Ok digits.
Proof.
  intros Hp. unfold toFixed.
  replace ((p <? 0)%Z || (100 <? p)%Z) with false by (symmetry; apply orb_false_iff; lia).
  destruct (Prim2SF x) as [s|[|]| |s m e]; try (eexists; reflexivity).
  destruct (PrimFloat.ltb _ _); eexists; reflexivity.
Qed.

Lemma toFixed_range NumberToString (x : float) (p : Z) :
  (p < 0 \/ 100 < p)%Z -> toFixed NumberToString x p = Throw RangeError.
Proof.
  intros Hp. unfold toFixed.
  replace ((p <? 0)%Z || (100 <? p)%Z) with true by (symmetry; apply orb_true_iff; lia).
  reflexivity.
Qed.

(** [formatBaseValue] on a number that is not NaN, for every table,
    classifier and preferences: it throws the unknown-unit error exactly
    when the unit preferred for the key's family is unknown to the table
    (whatever the precision); with a known unit it throws a RangeError when
    the precision is outside 0..100; otherwise it returns the converted
    value, the text [toFixed] gives for it followed by a space and the unit,
    and the unit. *)
Theorem formatBaseValue_outcome (NumberToString : float -> string) (T : unit_table)
    (family UnitPreferences : Type) (getMetricType : string -> family)
    (getDisplayUnit : family -> UnitPreferences -> string)
    (x : float) (metricKey : string) (preferences : UnitPreferences)
    (precision : option Z) :
  isNaN x = false ->
  let displayUnit := getDisplayUnit (getMetricType metricKey) preferences in
  let digits := match precision with Some p => p | None => 2%Z end in
  let formatted := formatBaseValue NumberToString T family UnitPreferences
                     getMetricType getDisplayUnit
                     (JSnumber x) metricKey preferences precision in
  (get T displayUnit = Absent -> formatted = Throw (UnknownUnit displayUnit)) /\
  (get T displayUnit <> Absent -> (digits < 0 \/ 100 < digits)%Z ->
     formatted = Throw RangeError) /\
  (get T displayUnit <> Absent -> (0 <= digits <= 100)%Z ->
     exists text,
       toFixed NumberToString (x / factor_of (get T displayUnit)) digits = Ok text /\
       formatted = Ok {| displayValue := Some (x / factor_of (get T displayUnit))%float;
                         formattedValue := text ++ " " ++ displayUnit;
                         unit := displayUnit |}).
Proof.
  intros Hx. cbv zeta. unfold formatBaseValue, formatValue, fromBase. rewrite Hx.
  split; [|split].
  - intros H. now rewrite H.
  - intros H Hp.
    destruct (get T _) as [c| |]; [| |congruence]; cbn [falsy bind];
      now rewrite (toFixed_range NumberToString _ _ Hp).
  - intros H Hp.
    destruct (toFixed_total NumberToString
                (x / factor_of (get T (getDisplayUnit (getMetricType metricKey)
                                         preferences))) _ Hp) as [t Ht].
    exists t. split; [exact Ht|].
    destruct (get T _) as [c| |]; [| |congruence]; cbn [falsy bind];
      now rewrite Ht.
Qed.

Lemma formatBaseValue_outcome_witness :
  formatBaseValue (fun _ => "") Dist.TO_BASE_FACTORS Dist.family Dist.UnitPreferences
    Dist.getMetricType Dist.getDisplayUnit (JSnumber 75) "body_weight"
    (fun _ => "stone") None
  = Throw (UnknownUnit "stone").
Proof.
  exact (proj1 (formatBaseValue_outcome (fun _ => "") Dist.TO_BASE_FACTORS Dist.family
                  Dist.UnitPreferences Dist.getMetricType Dist.getDisplayUnit
                  75%float "body_weight" (fun _ => "stone") None eq_refl) eq_refl).
Defined.

(** The default preferences of both revisions name entries of the table. *)
Lemma Src_default_registered (f : Src.family) :
  get Src.TO_BASE_FACTORS (Src.DEFAULT_PREFERENCES f)
  = Own {| factor := 1; base := Src.DEFAULT_PREFERENCES f |}.
Proof. now destruct f. Qed.

Lemma Dist_default_registered (f : Dist.family) :
  get Dist.TO_BASE_FACTORS (Dist.DEFAULT_PREFERENCES f)
  = Own {| factor := if match f with Dist.length => true | _ => false end
                     then 0.01 else 1;
           base := if match f with Dist.length => true | _ => false end
                   then "m" else Dist.DEFAULT_PREFERENCES f |}.
Proof. now destruct f. Qed.

(** With the default preferences and the precision omitted,
    [formatBaseValue] never throws, for every value and metric key, in both
    revisions; the unit is the default of the key's family; and the display
    value of a number is the number itself, except for the length family of
    the nine-family revision, shown in centimetres. *)
Theorem formatBaseValue_default_preferences (NumberToString : float -> string)
    (baseValue : nullable_number) (metricKey : string) :
  (exists r,
     formatBaseValue NumberToString Src.TO_BASE_FACTORS Src.family Src.UnitPreferences
       Src.getMetricType Src.getDisplayUnit baseValue metricKey
       Src.DEFAULT_PREFERENCES None = Ok r /\
     unit r = Src.DEFAULT_PREFERENCES (Src.getMetricType metricKey) /\
     (forall x, baseValue = JSnumber x -> isNaN x = false -> displayValue r = Some x)) /\
  (exists r,
     formatBaseValue NumberToString Dist.TO_BASE_FACTORS Dist.family Dist.UnitPreferences
       Dist.getMetricType Dist.getDisplayUnit baseValue metricKey
       Dist.DEFAULT_PREFERENCES None = Ok r /\
     unit r = Dist.DEFAULT_PREFERENCES (Dist.getMetricType metricKey) /\
     (forall x, baseValue = JSnumber x -> isNaN x = false ->
        displayValue r = Some (match Dist.getMetricType metricKey with
                               | Dist.length => x / 0.01
                               | _ => x
                               end)%float)).
Proof.
  split.
  - unfold formatBaseValue, formatValue, fromBase, Src.getDisplayUnit.
    destruct baseValue as [| |x];
      try (eexists; split; [reflexivity|]; split; [reflexivity|]; intros; discriminate).
    destruct (isNaN x) eqn:Hx;
      [eexists; split; [reflexivity|]; split; [reflexivity|]; intros y [= <-]; congruence|].
    rewrite Src_default_registered. cbn [falsy bind factor_of factor].
    rewrite float_div_1_r.
    destruct (toFixed_total NumberToString x 2 ltac:(lia)) as [t ->]. cbn [bind].
    eexists; split; [reflexivity|]; split; [reflexivity|]. now intros y [= <-].
  - unfold formatBaseValue, formatValue, fromBase, Dist.getDisplayUnit.
    destruct baseValue as [| |x];
      try (eexists; split; [reflexivity|]; split; [reflexivity|]; intros; discriminate).
    destruct (isNaN x) eqn:Hx;
      [eexists; split; [reflexivity|]; split; [reflexivity|]; intros y [= <-]; congruence|].
    rewrite Dist_default_registered. cbn [falsy bind factor_of factor].
    destruct (toFixed_total NumberToString
                (x / (if match Dist.getMetricType metricKey with
                         | Dist.length => true | _ => false end then 0.01 else 1))
                2 ltac:(lia)) as [t ->]. cbn [bind].
    eexists; split; [reflexivity|]; split; [reflexivity|].
    intros y [= <-] _. cbn [displayValue].
    destruct (Dist.getMetricType metricKey); try reflexivity; now rewrite float_div_1_r.
Qed.

(** ** Batch formatting *)

Lemma map_result_Ok {A B : Type} (f : A -> result B) (l : list A) :
  forall bs, map_result f l = Ok bs -> Forall2 (fun a b => f a = Ok b) l bs.
Proof.
  induction l as [|a l IH]; cbn [map_result]; intros bs H.
  - injection H as <-. constructor.
  - destruct (f a) as [b|e] eqn:Ha; [|discriminate]. cbn [bind] in H.
    destruct (map_result f l) as [bs'|e]; [|discriminate]. cbn [bind] in H.
    injection H as <-. constructor; [exact Ha | now apply IH].
Qed.

Lemma map_result_Throw {A B : Type} (f : A -> result B) (l : list A) (e : error) :
  map_result f l = Throw e -> exists a, In a l /\ f a = Throw e.
Proof.
  induction l as [|a l IH]; cbn [map_result]; intros H; [discriminate|].
  destruct (f a) as [b|e'] eqn:Ha; cbn [bind] in H.
  - destruct (map_result f l) as [bs'|e']; [discriminate|]. cbn [bind] in H.
    injection H as ->. destruct (IH eq_refl) as (a' & Hin & Ha').
    exists a'. split; [now right | exact Ha'].
  - injection H as ->. exists a. split; [now left | exact Ha].
Qed.

Lemma map_result_total {A B : Type} (f : A -> result B) (l : list A) :
  (forall a, In a l -> exists b, f a = Ok b) -> exists bs, map_result f l = Ok bs.
Proof.
  induction l as [|a l IH]; cbn [map_result]; intros H.
  - now eexists.
  - destruct (H a (or_introl eq_refl)) as [b ->]. cbn [bind].
    destruct (IH (fun a' Hin => H a' (or_intror Hin))) as [bs ->]. cbn [bind].
    now eexists.
Qed.

Section FormatOne.

Variable NumberToString : float -> string.
Variable T : unit_table.
Variable family : Type.
Variable UnitPreferences : Type.
Variable getMetricType : string -> family.
Variable getDisplayUnit : family -> UnitPreferences -> string.

(** The outcomes of [formatBaseValue] with the precision omitted. *)
Lemma formatBaseValue_default_precision v key preferences :
  (forall r,
     formatBaseValue NumberToString T family UnitPreferences getMetricType getDisplayUnit
       v key preferences None = Ok r ->
     unit r = getDisplayUnitForMetric family UnitPreferences getMetricType getDisplayUnit
                key preferences /\
     (displayValue r = None <-> is_missing v = true)) /\
  (forall e,
     formatBaseValue NumberToString T family UnitPreferences getMetricType getDisplayUnit
       v key preferences None = Throw e ->
     is_missing v = false /\
     e = UnknownUnit (getDisplayUnitForMetric family UnitPreferences getMetricType
                        getDisplayUnit key preferences) /\
     get T (getDisplayUnitForMetric family UnitPreferences getMetricType getDisplayUnit
              key preferences) = Absent) /\
  (is_missing v = true \/
   get T (getDisplayUnitForMetric family UnitPreferences getMetricType getDisplayUnit
            key preferences) <> Absent ->
   exists r,
     formatBaseValue NumberToString T family UnitPreferences getMetricType getDisplayUnit
       v key preferences None = Ok r).
Proof.
  unfold getDisplayUnitForMetric, formatBaseValue, formatValue, fromBase.
  cbv zeta.
  destruct v as [| |x]; cbn [is_missing].
  1, 2: split; [intros r [= <-]; cbn; tauto|];
        split; [intros e; discriminate | intros _; now eexists].
  destruct (isNaN x) eqn:Hx.
  { split; [intros r [= <-]; cbn; tauto|].
    split; [intros e; discriminate | intros _; now eexists]. }
  destruct (get T _) as [c| |] eqn:Hg; cbn [falsy bind].
  - destruct (toFixed_total NumberToString (x / factor_of (Own c)) 2 ltac:(lia))
      as [t ->]. cbn [bind].
    split; [intros r [= <-]; cbn; split; [reflexivity|split; discriminate]|].
    split; [intros e; discriminate | intros _; now eexists].
  - destruct (toFixed_total NumberToString (x / factor_of Inherited) 2 ltac:(lia))
      as [t ->]. cbn [bind].
    split; [intros r [= <-]; cbn; split; [reflexivity|split; discriminate]|].
    split; [intros e; discriminate | intros _; now eexists].
  - split; [intros r; discriminate|].
    split; [intros e [= <-]; auto|].
    intros [H|H]; [discriminate | congruence].
Qed.

End FormatOne.

(** [formatTestResultsForAPI] and [formatAssessmentResults]: when they
    return, the output has one element per input, in order, carrying the
    input, the unit of the key's family, and a null display value exactly
    for a null, undefined or NaN [value_base]; they throw only the
    unknown-unit error, and only when some input holds a number and the unit
    preferred for its key is unknown to the table; they return whenever
    every input is missing a value or has a known unit. *)
Theorem format_batch_outcome (NumberToString : float -> string) (T : unit_table)
    (family UnitPreferences : Type) (getMetricType : string -> family)
    (getDisplayUnit : family -> UnitPreferences -> string)
    (R : Type) (key : R -> string) (value_base : R -> nullable_number)
    (results : list R) (preferences : UnitPreferences) :
  let unit_for r :=
    getDisplayUnitForMetric family UnitPreferences getMetricType getDisplayUnit
      (key r) preferences in
  let forAPI :=
    formatTestResultsForAPI NumberToString T family UnitPreferences getMetricType
      getDisplayUnit R key value_base results preferences in
  let forDisplay :=
    formatAssessmentResults NumberToString T family UnitPreferences getMetricType
      getDisplayUnit R key value_base results preferences in
  (forall out, forAPI = Ok out ->
     Forall2 (fun r o => api_result o = r /\ display_unit o = unit_for r /\
                         (display_value o = None <-> is_missing (value_base r) = true))
             results out) /\
  (forall out, forDisplay = Ok out ->
     Forall2 (fun r o => fst o = r /\ unit (snd o) = unit_for r /\
                         (displayValue (snd o) = None <-> is_missing (value_base r) = true))
             results out) /\
  (forall e, forAPI = Throw e \/ forDisplay = Throw e ->
     exists r, In r results /\ is_missing (value_base r) = false /\
               get T (unit_for r) = Absent /\ e = UnknownUnit (unit_for r)) /\
  ((forall r, In r results ->
      is_missing (value_base r) = true \/ get T (unit_for r) <> Absent) ->
   (exists out, forAPI = Ok out) /\ (exists out, forDisplay = Ok out)).
Proof.
  cbv zeta. unfold formatTestResultsForAPI, formatAssessmentResults.
  split; [|split; [|split]].
  - intros out H. apply map_result_Ok in H.
    induction H as [|r o results out Hro _ IH]; constructor; [|exact IH].
    destruct (formatBaseValue _ _ _ _ _ _ _ _ _ _) as [f|e] eqn:Hf; [|discriminate].
    cbn [bind] in Hro. injection Hro as <-. cbn [api_result display_unit display_value].
    split; [reflexivity|].
    exact (proj1 (formatBaseValue_default_precision NumberToString T family
                    UnitPreferences getMetricType getDisplayUnit _ _ _) f Hf).
  - intros out H. apply map_result_Ok in H.
    induction H as [|r o results out Hro _ IH]; constructor; [|exact IH].
    destruct (formatBaseValue _ _ _ _ _ _ _ _ _ _) as [f|e] eqn:Hf; [|discriminate].
    cbn [bind] in Hro. injection Hro as <-. cbn [fst snd].
    split; [reflexivity|].
    exact (proj1 (formatBaseValue_default_precision NumberToString T family
                    UnitPreferences getMetricType getDisplayUnit _ _ _) f Hf).
  - intros e [H|H]; apply map_result_Throw in H as (r & Hin & Hr);
      destruct (formatBaseValue _ _ _ _ _ _ _ _ _ _) as [f|e'] eqn:Hf;
      try discriminate; cbn [bind] in Hr; injection Hr as ->;
      destruct (proj1 (proj2 (formatBaseValue_default_precision NumberToString T family
                    UnitPreferences getMetricType getDisplayUnit _ _ _)) e Hf)
        as (H1 & H2 & H3);
      exists r; auto.
  - intros H. split; apply map_result_total; intros r Hin;
      destruct (proj2 (proj2 (formatBaseValue_default_precision NumberToString T family
                    UnitPreferences getMetricType getDisplayUnit
                    (value_base r) (key r) preferences)) (H r Hin)) as [f Hf];
      rewrite Hf; cbn [bind]; now eexists.
Qed.

Lemma format_batch_outcome_witness :
  exists out,
    formatTestResultsForAPI (fun _ => "") Dist.TO_BASE_FACTORS Dist.family
      Dist.UnitPreferences Dist.getMetricType Dist.getDisplayUnit
      (string * nullable_number) fst snd
      [("height", JSnumber 1.8); ("push_ups", JSnull)] Dist.DEFAULT_PREFERENCES
    = Ok out.
Proof.
  refine (proj1 (proj2 (proj2 (proj2
            (format_batch_outcome (fun _ => "") Dist.TO_BASE_FACTORS Dist.family
               Dist.UnitPreferences Dist.getMetricType Dist.getDisplayUnit
               (string * nullable_number) fst snd
               [("height", JSnumber 1.8); ("push_ups", JSnull)]
               Dist.DEFAULT_PREFERENCES))) _)).
  intros r [<-|[<-|[]]]; [right; discriminate | left; reflexivity].
Defined.

(** ** The SQL statements of the migration *)

Lemma read_escaped (u : string) (c : ascii) (rest : string) :
  Ascii.eqb c "'" = false ->
  read_sql_literal (escape_quotes u ++ String "'" (String c rest))
  = Some (u, String c rest).
Proof.
  intros Hc. induction u as [|a u IH].
  - cbn. now rewrite Hc.
  - cbn [escape_quotes]. destruct (Ascii.eqb a "'") eqn:Ha.
    + apply Ascii.eqb_eq in Ha. subst a.
      cbn [append read_sql_literal]. rewrite Ascii.eqb_refl.
      cbn [append] in IH. now rewrite IH.
    + cbn [append read_sql_literal]. rewrite Ha. now rewrite IH.
Qed.

Lemma escape_quote_free (s : string) : quote_free s = true -> escape_quotes s = s.
Proof.
  induction s as [|a s IH]; cbn; [reflexivity|].
  intros H. apply andb_true_iff in H as [Ha Hs].
  apply negb_true_iff in Ha. rewrite Ha. now rewrite IH.
Qed.

(** [generateMigrationSQL] emits one statement per record.  For a null or
    empty [unit_raw] the statement assigns NULL; for any other [unit_raw] it
    assigns a quoted literal which, read by the SQL rule (two quotes stand
    for one), denotes exactly [unit_raw] and ends where the WHERE clause
    begins.  The identifier in the WHERE clause is not escaped: it reads
    back as itself when it holds no quote, and a quote in it ends the
    literal early, the rest of the identifier becoming statement text. *)
Theorem generateMigrationSQL_literals (NumberToString : float -> string)
    (migrated : list MigratedTestResult.t) (result : MigratedTestResult.t) :
  In result migrated ->
  let head :=
    "UPDATE " ++ double_quote ++ "TestResult" ++ double_quote ++ " SET " ++
    double_quote ++ "value_base" ++ double_quote ++ " = " ++
      NumberToString (MigratedTestResult.value_base result) ++ ", " ++
    double_quote ++ "value_raw" ++ double_quote ++ " = " ++
      NumberToString (MigratedTestResult.value_raw result) ++ ", " ++
    double_quote ++ "unit_raw" ++ double_quote ++ " = " in
  let where_clause := " WHERE " ++ double_quote ++ "result_id" ++ double_quote ++ " = '" in
  let id := MigratedTestResult.result_id result in
  List.length (generateMigrationSQL NumberToString migrated) = List.length migrated /\
  (MigratedTestResult.unit_raw result = None \/
   MigratedTestResult.unit_raw result = Some "" ->
   In (head ++ "NULL" ++ where_clause ++ id ++ "';")
      (generateMigrationSQL NumberToString migrated)) /\
  (forall u, MigratedTestResult.unit_raw result = Some u -> u <> "" ->
     In (head ++ "'" ++ escape_quotes u ++ "'" ++ where_clause ++ id ++ "';")
        (generateMigrationSQL NumberToString migrated) /\
     read_sql_literal (escape_quotes u ++ "'" ++ where_clause ++ id ++ "';")
     = Some (u, where_clause ++ id ++ "';")) /\
  (quote_free id = true -> read_sql_literal (id ++ "';") = Some (id, ";")) /\
  (forall a c b, id = a ++ "'" ++ String c b -> quote_free a = true ->
     Ascii.eqb c "'" = false ->
     read_sql_literal (id ++ "';") = Some (a, String c b ++ "';")).
Proof.
  intros Hin. cbv zeta.
  assert (Hstmt : In (migrationStatement NumberToString result)
                     (generateMigrationSQL NumberToString migrated))
    by (unfold generateMigrationSQL; now apply in_map).
  split; [apply length_map|].
  split; [|split; [|split]].
  - intros H. unfold migrationStatement in Hstmt.
    destruct H as [H|H]; rewrite H in Hstmt; cbn [unit_raw_sql String.eqb] in Hstmt;
      repeat rewrite append_assoc in Hstmt; repeat rewrite append_assoc; exact Hstmt.
  - intros u Hu Hne. split.
    + unfold migrationStatement in Hstmt. rewrite Hu in Hstmt. cbn [unit_raw_sql] in Hstmt.
      apply String.eqb_neq in Hne. rewrite Hne in Hstmt.
      repeat rewrite append_assoc in Hstmt; repeat rewrite append_assoc; exact Hstmt.
    + cbn [append]. now apply read_escaped.
  - intros Hq. rewrite <- (escape_quote_free _ Hq) at 1.
    change "';" with (String "'" (String ";" "")). now apply read_escaped.
  - intros a c b -> Hq Hc. rewrite append_assoc. cbn [append].
    rewrite <- (escape_quote_free _ Hq) at 1. now apply read_escaped.
Qed.

Lemma generateMigrationSQL_literals_witness :
  read_sql_literal (escape_quotes "5'11" ++ "'" ++
                    " WHERE " ++ double_quote ++ "result_id" ++ double_quote ++ " = '" ++
                    "r7" ++ "';")
  = Some ("5'11", " WHERE " ++ double_quote ++ "result_id" ++ double_quote ++ " = '" ++
                  "r7" ++ "';").
Proof.
  refine (proj2 (proj1 (proj2 (proj2
            (generateMigrationSQL_literals (fun _ => "0")
               [MigratedTestResult.mk "r7" 0 0 (Some "5'11")]
               (MigratedTestResult.mk "r7" 0 0 (Some "5'11")) (or_introl eq_refl))))
            "5'11" eq_refl _)).
  discriminate.
Defined.

(** ** The two revisions of the table *)

(** The nine-family table extends the four-family one: a read of the
    four-family table that finds an entry or an inherited member finds the
    same in the nine-family table, and the six names the nine-family table
    adds are entries with factor one. *)
Lemma get_Src_Dist (u : string) :
  match get Src.TO_BASE_FACTORS u with
  | Own c => get Dist.TO_BASE_FACTORS u = Own c
  | Inherited => get Dist.TO_BASE_FACTORS u = Inherited
  | Absent =>
      get Dist.TO_BASE_FACTORS u = Absent \/
      exists c, get Dist.TO_BASE_FACTORS u = Own c /\ factor c = 1%float
  end.
Proof.
  unfold get, Src.TO_BASE_FACTORS, Dist.TO_BASE_FACTORS. cbn [find fst snd].
  repeat match goal with
         | |- context [String.eqb ?a u] =>
             destruct (String.eqb a u) eqn:?; [reflexivity|]
         end.
  destruct (existsb _ _) eqn:Hex.
  { repeat match goal with
           | |- context [String.eqb ?a u] =>
               let Hq := fresh in
               destruct (String.eqb a u) eqn:Hq;
               [apply String.eqb_eq in Hq; subst u; discriminate Hex|]
           end.
    reflexivity. }
  repeat match goal with
         | |- context [String.eqb ?a u] =>
             destruct (String.eqb a u) eqn:?; [right; eexists; split; reflexivity|]
         end.
  now left.
Qed.

(** Migration gives the same result with either revision of the table, for
    every record and every batch: the units the nine-family table adds have
    factor one, and for them the four-family table falls back to the
    original value. *)
Theorem migrateTestResult_revision_independent (lc : string -> string)
    (r : TestResultMigrationData.t) :
  migrateTestResult Src.TO_BASE_FACTORS lc r = migrateTestResult Dist.TO_BASE_FACTORS lc r /\
  (forall records,
     migrateTestResults Src.TO_BASE_FACTORS lc records
     = migrateTestResults Dist.TO_BASE_FACTORS lc records).
Proof.
  assert (H : forall r, migrateTestResult Src.TO_BASE_FACTORS lc r
                        = migrateTestResult Dist.TO_BASE_FACTORS lc r).
  { clear r. intros r. unfold migrateTestResult.
    destruct (TestResultMigrationData.units r) as [u|]; [|reflexivity].
    destruct (_ || _); [reflexivity|].
    pose proof (get_Src_Dist (normalizeUnitString lc u)) as HG.
    destruct (get Src.TO_BASE_FACTORS (normalizeUnitString lc u)) as [c| |] eqn:E.
    - now rewrite (toBase_Own _ _ _ _ E), (toBase_Own _ _ _ _ HG).
    - now rewrite (toBase_Inherited _ _ _ E), (toBase_Inherited _ _ _ HG).
    - rewrite (toBase_Absent _ _ _ E).
      destruct HG as [HG | (c & HG & Hc)].
      + now rewrite (toBase_Absent _ _ _ HG).
      + now rewrite (toBase_factor_one _ _ _ _ HG Hc). }
  split; [apply H|].
  intros records. unfold migrateTestResults. apply map_ext. intros a. apply H.
Qed.

(** ** Failures of the library's own migration output *)

Lemma validateLoop_own_migration (T : unit_table) (lc : string -> string)
    (records : list TestResultMigrationData.t) :
  forall i st,
    let st' := validateLoop i records (migrateTestResults T lc records) st in
    l_failed st'
    = (l_failed st
       + List.length (filter (fun r => isNaN (TestResultMigrationData.value r)) records))%nat /\
    List.length (l_errors st')
    = (List.length (l_errors st)
       + List.length (filter (fun r => isNaN (TestResultMigrationData.value r)) records))%nat /\
    filter is_id_mismatch (l_errors st') = filter is_id_mismatch (l_errors st).
Proof.
  induction records as [|r records IH]; intros i st; cbv zeta.
  - cbn. repeat split; lia.
  - cbn [migrateTestResults map validateLoop filter].
    specialize (IH (S i) (validateRecord i r (migrateTestResult T lc r) st)).
    cbv zeta in IH. unfold migrateTestResults in IH.
    destruct IH as (IH1 & IH2 & IH3). rewrite IH1, IH2, IH3.
    rewrite validateRecord_failed, validateRecord_errors. cbv zeta.
    destruct (migrateTestResult_audit T lc r) as (Hid & Hv & Hu).
    rewrite Hid, Hv, Hu, String.eqb_refl, opt_string_neq_refl. cbn [negb].
    change (strict_neq (TestResultMigrationData.value r) (TestResultMigrationData.value r))
      with (isNaN (TestResultMigrationData.value r)).
    destruct (isNaN (TestResultMigrationData.value r));
      rewrite ?app_nil_r, ?filter_app, ?length_app; cbn [List.length filter is_id_mismatch];
      rewrite ?app_nil_r; repeat split; lia.
Qed.

(** Validating a batch against its own migration output, for every table
    and batch: the number of failures, and of errors, is the number of
    records whose value is NaN; every record is counted converted or
    unchanged; and validation succeeds exactly when no value is NaN. *)
Theorem self_validation_failures (T : unit_table) (lc : string -> string)
    (records : list TestResultMigrationData.t) :
  let report := validateMigration records (migrateTestResults T lc records) in
  let nans := filter (fun r => isNaN (TestResultMigrationData.value r)) records in
  failed (statistics report) = List.length nans /\
  List.length (errors report) = List.length nans /\
  (converted (statistics report) + unchanged (statistics report)
   = List.length records)%nat /\
  (success report = true
   <-> Forall (fun r => isNaN (TestResultMigrationData.value r) = false) records).
Proof.
  cbv zeta.
  assert (HL : List.length records = List.length (migrateTestResults T lc records))
    by (symmetry; apply length_map).
  pose proof (validateLoop_counts records (migrateTestResults T lc records) 0
                {| l_errors := []; l_warnings := []; l_converted := 0;
                   l_unchanged := 0; l_failed := 0 |} HL) as HA.
  cbv zeta in HA. cbn [l_errors l_converted l_unchanged List.length filter] in HA.
  unfold validateMigration in *. rewrite <- HL, Nat.eqb_refl in *.
  cbn [negb success errors warnings statistics total converted unchanged failed] in *.
  destruct (validateLoop_own_migration T lc records 0
              {| l_errors := []; l_warnings := []; l_converted := 0;
                 l_unchanged := 0; l_failed := 0 |}) as (H1 & H2 & H3).
  cbn [l_errors l_failed List.length filter] in H1, H2, H3.
  split; [exact H1|]. split; [exact H2|]. split.
  - destruct HA as (_ & _ & _ & HA & _). rewrite H3 in HA. cbn in HA. lia.
  - rewrite is_empty_true. split.
    + intros He. rewrite He in H2. cbn in H2.
      apply Forall_forall. intros r Hr.
      destruct (isNaN (TestResultMigrationData.value r)) eqn:E; [|reflexivity].
      assert (Hin : In r (filter (fun r => isNaN (TestResultMigrationData.value r)) records))
        by (apply filter_In; now split).
      destruct (filter _ records); [contradiction | discriminate].
    + intros HF.
      assert (E : filter (fun r => isNaN (TestResultMigrationData.value r)) records = []).
      { clear - HF. induction HF as [|r l Hr _ IH]; cbn; [reflexivity|]. now rewrite Hr. }
      rewrite E in H2. cbn in H2.
      destruct (l_errors _); [reflexivity | discriminate].
Qed.

(** ** Accuracy of the conversions *)

Section Accuracy.

Local Open Scope Q_scope.

Lemma is_mag_SF2Q r R : is_mag false r R -> SF2Q r = R.
Proof. now intros []. Qed.

(** The two-ulp bound as a relative error. *)
Lemma ulp_relative (X R u : Q) :
  0 <= R -> 0 <= u -> R - 2 * u <= X -> X <= R + 2 * u ->
  (u <= bpow (-1074) \/ bpow 52 * u <= R) ->
  Qabs (R - X) <= R * bpow (-51) + bpow (-1073).
Proof.
  intros HR Hu H1 H2 Hc.
  assert (E1 : bpow (-1073) == 2 * bpow (-1074)) by reflexivity.
  assert (E2 : bpow 52 == 4503599627370496) by reflexivity.
  assert (E3 : bpow (-51) == 1 # 2251799813685248) by reflexivity.
  pose proof (bpow_pos (-1074)) as Hp.
  rewrite E1, E3. rewrite E2 in Hc.
  apply Qabs_Qle_condition. destruct Hc; split; lra.
Qed.

(** A positive value of at most 100000, as a finite number. *)
Lemma positive_value (v : float) :
  (0 <? v)%float = true -> (v <=? 100000)%float = true ->
  exists m e, Prim2SF v = S754_finite false m e /\ Qval v = mag m e /\
              0 < mag m e /\ mag m e <= 100000.
Proof.
  intros Hpos Hle.
  rewrite ltb_spec in Hpos. rewrite leb_spec, Prim2SF_bound in Hle.
  change (Prim2SF 0%float) with (S754_zero false) in Hpos.
  destruct (positive_bounded _ _ _ (Prim2SF_valid v) Hpos Hle ltac:(lia))
    as (m & e & Hv & HVle).
  assert (HB : mag 6871947673600000 (-36) == 100000) by reflexivity.
  rewrite HB in HVle.
  exists m, e. split; [exact Hv|]. split; [unfold Qval; now rewrite Hv|].
  split; [apply mag_pos | exact HVle].
Qed.

End Accuracy.

(** For a unit registered in either revision and a value [0 < v <= 100000],
    the results of [toBase] and [fromBase] are within a relative error of
    2^-51 (plus 2^-1073 in the subnormal range) of the exact product,
    respectively quotient, of the value and the factor. *)
Theorem conversion_accuracy (T : unit_table) (value : float) (u : string)
    (c : conversion) :
  T = Src.TO_BASE_FACTORS \/ T = Dist.TO_BASE_FACTORS ->
  get T u = Own c ->
  (0 <? value)%float = true ->
  (value <=? 100000)%float = true ->
  exists b d,
    toBase T value u = Ok b /\ fromBase T value u = Ok d /\
    (Qabs (Qval b - Qval value * Qval (factor c))
     <= Qval b * bpow (-51) + bpow (-1073))%Q /\
    (Qabs (Qval d - Qval value / Qval (factor c))
     <= Qval d * bpow (-51) + bpow (-1073))%Q.
Proof.
  intros HT HG Hpos Hle.
  destruct (registered_factor T u c HT HG) as (mf & ef & Hf & Hlo & Hhi).
  destruct (positive_value value Hpos Hle) as (m & e & Hv & EV & HV0 & HVle).
  assert (EF : Qval (factor c) = mag mf ef) by (unfold Qval; now rewrite Hf).
  rewrite (toBase_Own _ _ _ _ HG), (fromBase_Own _ _ _ _ HG).
  exists (value * factor c)%float, (value / factor c)%float.
  split; [reflexivity|]. split; [reflexivity|].
  rewrite EV, EF.
  pose proof big_bound as Hbig.
  set (V := mag m e) in *. set (F := mag mf ef) in *.
  split.
  - assert (HX : (V * F <= 6400000)%Q) by nra.
    destruct (mul_bound m e mf ef ltac:(fold V F; lra))
      as (Y & u1 & HmY & Hu1 & HY1 & HY2 & HcY).
    fold V F in HY1, HY2.
    rewrite <- Hv, <- Hf, <- mul_spec in HmY.
    pose proof (is_mag_nonneg _ _ _ HmY) as HY0.
    unfold Qval at 1. rewrite (is_mag_SF2Q _ _ HmY).
    unfold Qval at 1. rewrite (is_mag_SF2Q _ _ HmY).
    now apply (ulp_relative _ Y u1).
  - assert (HF0 : (0 < F)%Q) by lra.
    assert (HmV : is_mag false (Prim2SF value) V) by (rewrite Hv; constructor).
    assert (Hov : (V / F < bpow 972)%Q).
    { apply Qlt_shift_div_r; [exact HF0|].
      assert (1000000000000 * F <= bpow 972 * F)%Q by (apply Qmult_le_compat_r; lra).
      nra. }
    destruct (div_bound _ V mf ef HmV Hov) as (R & u2 & HmR & Hu2 & HR1 & HR2 & HcR).
    fold F in HR1, HR2.
    rewrite <- Hf, <- div_spec in HmR.
    pose proof (is_mag_nonneg _ _ _ HmR) as HR0.
    unfold Qval at 1. rewrite (is_mag_SF2Q _ _ HmR).
    unfold Qval at 1. rewrite (is_mag_SF2Q _ _ HmR).
    now apply (ulp_relative _ R u2).
Qed.

Lemma conversion_accuracy_witness :
  exists b d,
    toBase Dist.TO_BASE_FACTORS 165.3 "lb" = Ok b /\
    fromBase Dist.TO_BASE_FACTORS 165.3 "lb" = Ok d /\
    (Qabs (Qval b - Qval 165.3 * Qval 0.45359237)
     <= Qval b * bpow (-51) + bpow (-1073))%Q /\
    (Qabs (Qval d - Qval 165.3 / Qval 0.45359237)
     <= Qval d * bpow (-51) + bpow (-1073))%Q.
Proof.
  exact (conversion_accuracy Dist.TO_BASE_FACTORS 165.3%float "lb"
           {| factor := 0.45359237%float; base := "kg" |}
           (or_intror eq_refl) eq_refl eq_refl eq_refl).
Defined.

(** ** Warnings on the library's own migration output *)

Lemma float_ltb_nan_r (x : float) : (x <? nan)%float = false.
Proof.
  rewrite ltb_spec. change (Prim2SF nan) with S754_nan.
  unfold SFltb, SFcompare. now destruct (Prim2SF x).
Qed.

Lemma float_sub_nan_l (x : float) : (nan - x)%float = nan.
Proof.
  apply Prim2SF_inj. rewrite sub_spec. change (Prim2SF nan) with S754_nan. reflexivity.
Qed.

Lemma SFcompare_finite_Lt_Gt sa ma ea sb mb eb :
  SFcompare (S754_finite sa ma ea) (S754_finite sb mb eb) = Some Lt ->
  SFcompare (S754_finite sb mb eb) (S754_finite sa ma ea) = Some Gt.
Proof.
  assert (E : Pos.compare_cont Eq mb ma = CompOpp (Pos.compare_cont Eq ma mb))
    by (rewrite Pos.compare_cont_antisym; reflexivity).
  cbn. rewrite (Z.compare_antisym ea eb), E.
  destruct sa, sb; try discriminate; try reflexivity;
    destruct (Z.compare ea eb); cbn; try discriminate; try reflexivity;
    destruct (Pos.compare_cont Eq ma mb); cbn; discriminate || reflexivity.
Qed.

Lemma SFcompare_Lt_Gt a b : SFcompare a b = Some Lt -> SFcompare b a = Some Gt.
Proof.
  destruct a as [sa|sa| |sa ma ea], b as [sb|sb| |sb mb eb];
    try apply SFcompare_finite_Lt_Gt; cbn;
    repeat match goal with s : bool |- _ => destruct s end;
    try discriminate; reflexivity.
Qed.

Lemma SFltb_antisym a b : SFltb a b = true -> SFltb b a = false.
Proof.
  unfold SFltb. destruct (SFcompare a b) as [[| |]|] eqn:E; try discriminate.
  intros _. now rewrite (SFcompare_Lt_Gt a b E).
Qed.

Section Ratio.

Local Open Scope Q_scope.

(** The converse reading of a failed binary64 test [a < b]. *)
Lemma SFltb_false_mag a A mb eb :
  is_mag false a A ->
  valid_binary a = true ->
  (Zpos mb < 2 ^ 53)%Z -> (-1074 <= eb)%Z ->
  SFltb a (S754_finite false mb eb) = false ->
  mag mb eb <= A.
Proof.
  intros Ha Hv Hmb Heb Hf.
  destruct (Qlt_le_dec A (mag mb eb)) as [Hlt|Hle]; [|exact Hle].
  rewrite (SFltb_mag a A mb eb Ha Hv Hmb Heb Hlt) in Hf. discriminate Hf.
Qed.

Lemma Prim2SF_milli : Prim2SF 0.001%float = S754_finite false 4611686018427388 (-62).
Proof. reflexivity. Qed.

Lemma Prim2SF_kilo : Prim2SF 1000%float = S754_finite false 8796093022208000 (-43).
Proof. reflexivity. Qed.

(** The numeric core: when the conversion moved the value by about the
    tolerance or more, the value is not tiny and the rounded ratio is close
    to the factor. *)
Lemma ratio_numeric (V F Y u1 D u3 : Q) :
  0 < V -> V <= 100000 -> (1 # 128) <= F -> F <= 64 ->
  0 <= Y -> 0 <= u1 -> Y - 2 * u1 <= V * F -> V * F <= Y + 2 * u1 ->
  (u1 <= (1 # 128000000000000000000000000000000) \/ 4503599627370496 * u1 <= Y) ->
  0 <= D -> 0 <= u3 -> Qabs (V - Y) <= D + 2 * u3 -> D - 2 * u3 <= Qabs (V - Y) ->
  (u3 <= (1 # 128000000000000000000000000000000) \/ 4503599627370496 * u3 <= D) ->
  (99 # 1000000000000) <= D ->
  (7 # 1000) * V <= Y /\ Y <= 66 * V.
Proof.
  intros HV0 HV HF1 HF2 HY Hu1 H1 H2 Hc1 HD Hu3 H3 H3' Hc3 Htol.
  assert (HX1 : (1 # 128) * V <= V * F) by nra.
  assert (HX2 : V * F <= 64 * V) by nra.
  assert (HA : Qabs (V - Y) <= V + Y).
  { apply Qabs_Qle_condition. lra. }
  assert (HVlo : (1 # 1000000000000) <= V).
  { destruct Hc1, Hc3; lra. }
  destruct Hc1; split; lra.
Qed.

Lemma quotient_numeric (V Y R u2 : Q) :
  0 < V -> (7 # 1000) * V <= Y -> Y <= 66 * V ->
  0 <= R -> 0 <= u2 -> R - 2 * u2 <= Y / V -> Y / V <= R + 2 * u2 ->
  (u2 <= (1 # 128000000000000000000000000000000) \/ 4503599627370496 * u2 <= R) ->
  (2 # 1000) < R /\ R < 67.
Proof.
  intros HV0 HY1 HY2 HR Hu2 H1 H2 Hc.
  assert (Ha1 : (7 # 1000) <= Y / V) by (apply Qle_shift_div_l; lra).
  assert (Ha2 : Y / V <= 66) by (apply Qle_shift_div_r; lra).
  destruct Hc; split; lra.
Qed.

(** A registered factor never yields a suspicious ratio: either the value is
    classified unchanged, or the ratio [value_base / value] passes both
    tests of the warning. *)
Lemma no_suspicious_ratio (v f : float) (mf : positive) (ef : Z) :
  Prim2SF f = S754_finite false mf ef ->
  (1 # 128) <= mag mf ef -> mag mf ef <= 64 ->
  (0 <? v)%float = true ->
  (v <=? 100000)%float = true ->
  (PrimFloat.abs (v - v * f) <? 1e-10)%float = false ->
  ((v * f) / v <? 0.001)%float = false /\ (1000 <? (v * f) / v)%float = false.
Proof.
  intros Hf Hflo Hfhi Hpos Hle Htest.
  destruct (positive_value v Hpos Hle) as (m & e & Hv & _ & HV0 & HVle).
  set (V := mag m e) in *. set (F := mag mf ef) in *.
  pose proof big_bound as Hbig.
  (* multiplication *)
  assert (HX : V * F <= 6400000) by nra.
  destruct (mul_bound m e mf ef ltac:(fold V F; lra)) as (Y & u1 & HmY & Hu1 & HY1 & HY2 & HcY).
  fold V F in HY1, HY2.
  rewrite <- Hv, <- Hf, <- mul_spec in HmY.
  pose proof (is_mag_nonneg _ _ _ HmY) as HY0.
  apply unit_cases in HcY.
  assert (HYhi : Y <= 20000000) by (destruct HcY; lra).
  (* subtraction and the classification test *)
  assert (Hov3 : Qabs (V - Y) < bpow 972) by (apply Qabs_Qlt_condition; lra).
  destruct (sub_bound m e _ Y HmY Hov3) as (D & u3 & HmD & Hu3 & HD1 & HD2 & HcD).
  fold V in HD1, HD2.
  rewrite <- Hv, <- sub_spec, <- abs_spec in HmD.
  pose proof (is_mag_nonneg _ _ _ HmD) as HD0.
  apply unit_cases in HcD.
  rewrite ltb_spec, Prim2SF_tolerance in Htest.
  apply (SFltb_false_mag _ D) in Htest;
    [| exact HmD | apply Prim2SF_valid | lia | lia].
  assert (Htol : (99 # 1000000000000) <= D).
  { apply Qle_trans with (mag 7737125245533627 (-86)); [|exact Htest].
    vm_compute. discriminate. }
  destruct (ratio_numeric V F Y u1 D u3 HV0 HVle Hflo Hfhi HY0 Hu1 HY1 HY2 HcY
              HD0 Hu3 HD2 HD1 HcD Htol) as [HYV1 HYV2].
  (* division by the value *)
  assert (Hov2 : Y / V < bpow 972).
  { apply Qlt_shift_div_r; [exact HV0|].
    assert (1000000000000 * V <= bpow 972 * V) by (apply Qmult_le_compat_r; lra).
    lra. }
  destruct (div_bound _ Y m e HmY Hov2) as (R & u2 & HmR & Hu2 & HR1 & HR2 & HcR).
  fold V in HR1, HR2.
  rewrite <- Hv, <- div_spec in HmR.
  pose proof (is_mag_nonneg _ _ _ HmR) as HR0.
  apply unit_cases in HcR.
  destruct (quotient_numeric V Y R u2 HV0 HYV1 HYV2 HR0 Hu2 HR1 HR2 HcR) as [HRlo HRhi].
  pose proof (Prim2SF_valid (v * f / v)) as Hvalid.
  rewrite !ltb_spec, Prim2SF_milli, Prim2SF_kilo.
  destruct HmR as [|mr er].
  { exfalso. lra. }
  fold (mag mr er) in HRlo, HRhi.
  destruct (valid_finite _ _ _ Hvalid) as (Hmr & Her & _).
  split.
  - apply SFltb_antisym.
    apply (SFltb_mag _ (mag 4611686018427388 (-62)));
      [constructor | reflexivity | exact Hmr | exact Her |].
    apply Qle_lt_trans with (2 # 1000); [|exact HRlo]. vm_compute. discriminate.
  - apply SFltb_antisym.
    apply (SFltb_mag _ (mag mr er)); [constructor | exact Hvalid | lia | lia |].
    apply Qlt_le_trans with 67; [exact HRhi|]. vm_compute. discriminate.
Qed.

End Ratio.

(** The warnings after one iteration. *)
Lemma validateRecord_warnings i orig mig st :
  l_warnings (validateRecord i orig mig st) =
  (let oid := TestResultMigrationData.result_id orig in
   let ovalue := TestResultMigrationData.value orig in
   let value_base := MigratedTestResult.value_base mig in
   let ratio := (value_base / ovalue)%float in
   if negb (String.eqb oid (MigratedTestResult.result_id mig)) then l_warnings st
   else if (PrimFloat.abs (ovalue - value_base) <? 1e-10)%float then l_warnings st
   else if ((ratio <? 0.001) || (1000 <? ratio))%float
   then (l_warnings st
         ++ [SuspiciousConversion oid ovalue (TestResultMigrationData.units orig)
               value_base ratio])%list
   else l_warnings st).
Proof.
  unfold validateRecord. cbv zeta.
  destruct (negb _); [reflexivity|].
  destruct (_ <? _)%float; [|destruct (orb _ _)];
    destruct (strict_neq _ _); destruct (opt_string_neq _ _); reflexivity.
Qed.

(** A record with a positive value of at most 100000 raises no warning
    against its own migration. *)
Lemma validateRecord_own_warnings (T : unit_table) (lc : string -> string) i
    (r : TestResultMigrationData.t) st :
  T = Src.TO_BASE_FACTORS \/ T = Dist.TO_BASE_FACTORS ->
  (0 <? TestResultMigrationData.value r)%float = true ->
  (TestResultMigrationData.value r <=? 100000)%float = true ->
  l_warnings (validateRecord i r (migrateTestResult T lc r) st) = l_warnings st.
Proof.
  intros HT Hpos Hle.
  rewrite validateRecord_warnings. cbv zeta.
  destruct (negb _); [reflexivity|].
  destruct (PrimFloat.ltb (PrimFloat.abs _) _) eqn:Htest; [reflexivity|].
  rewrite migrateTestResult_value_base in *.
  set (v := TestResultMigrationData.value r) in *.
  assert (Hvv : (PrimFloat.abs (v - v) <? 1e-10)%float = true).
  { destruct (positive_value v Hpos Hle) as (m & e & Hv & _).
    rewrite float_sub_diag; [reflexivity|].
    unfold PrimFloat.is_finite, PrimFloat.is_nan, PrimFloat.is_infinity.
    rewrite !eqb_spec, abs_spec, Hv. cbn.
    now rewrite Z.compare_refl, Pos.compare_cont_refl. }
  destruct (TestResultMigrationData.units r) as [u|]; [|congruence].
  destruct (_ || _); [congruence|].
  destruct (get T (normalizeUnitString lc u)) as [c| |] eqn:HG; [| |congruence].
  - destruct (registered_factor T _ c HT HG) as (mf & ef & Hf & Hlo & Hhi).
    destruct (no_suspicious_ratio v (factor c) mf ef Hf Hlo Hhi Hpos Hle Htest)
      as [H1 H2].
    now rewrite H1, H2.
  - now rewrite float_div_nan_l, float_ltb_nan_l, float_ltb_nan_r.
Qed.

(** Validating a batch of records with values [0 < v <= 100000] against
    its own migration output, with either revision of the table, raises no
    suspicious-conversion warning, whatever the units are. *)
Theorem self_validation_no_warnings (T : unit_table) (lc : string -> string)
    (records : list TestResultMigrationData.t) :
  T = Src.TO_BASE_FACTORS \/ T = Dist.TO_BASE_FACTORS ->
  Forall (fun r => (0 <? TestResultMigrationData.value r)%float = true /\
                   (TestResultMigrationData.value r <=? 100000)%float = true) records ->
  warnings (validateMigration records (migrateTestResults T lc records)) = [].
Proof.
  intros HT HF.
  assert (HL : forall i st,
             l_warnings (validateLoop i records (migrateTestResults T lc records) st)
             = l_warnings st).
  { induction HF as [|r records [Hpos Hle] _ IH]; intros i st; [reflexivity|].
    cbn [migrateTestResults map validateLoop].
    unfold migrateTestResults in IH. rewrite IH.
    now apply validateRecord_own_warnings. }
  unfold validateMigration.
  replace (List.length (migrateTestResults T lc records)) with (List.length records)
    by (symmetry; apply length_map).
  rewrite Nat.eqb_refl. cbn [negb warnings]. now rewrite HL.
Qed.

Lemma self_validation_no_warnings_witness :
  warnings (validateMigration [record_lbs; record_height; record_constructor]
              (migrateTestResults Dist.TO_BASE_FACTORS sample_lower_case
                 [record_lbs; record_height; record_constructor])) = [].
Proof.
  refine (self_validation_no_warnings Dist.TO_BASE_FACTORS sample_lower_case
            [record_lbs; record_height; record_constructor] (or_intror eq_refl) _).
  repeat constructor.
Defined.
